(** * processCoffeeWithGemini: a shallow embedding of the Firestore trigger

  The development follows [functions/src/index.ts]: the handler registered
  with [onDocumentCreated] for [coffee/{docId}].  The handler is effectful
  (object storage, the AI client, the local file system, the datastore and
  the clock), so it is written in a small state-and-exception monad whose
  state carries the journal of external calls together with the mutable
  arrays of the source ([tempFiles], [contentParts]) and the stored record.
  What the outside world answers to each call is a parameter ([World]). *)

From Stdlib Require Import ZArith String Ascii List DecimalString Bool Lia.
From stdpp Require Import base gmap strings list.
Import ListNotations.

Local Open Scope Z_scope.

(** ** JavaScript values *)

Module Js.

(** Values that can sit in a Firestore field.  Numbers are restricted to
    integers, which is all the handler ever inspects. *)
#[local] Unset Elimination Schemes.
Inductive Value :=
| VUndefined
| VNull
| VBool (b : bool)
| VNum (n : Z)
| VStr (s : string)
| VArr (items : list Value)
| VObj (fields : list (string * Value)).
#[local] Set Elimination Schemes.

(** [if (v)]: ToBoolean. *)
Definition truthy (v : Value) : bool :=
  match v with
  | VUndefined | VNull => false
  | VBool b => b
  | VNum n => negb (n =? 0)
  | VStr s => negb (String.eqb s "")
  | VArr _ | VObj _ => true
  end.

(** A string-typed optional field: [None] is a missing field. *)
Definition truthy_str (o : option string) : bool :=
  match o with
  | Some s => negb (String.eqb s "")
  | None => false
  end.

(** [`${x}`] for an optional string. *)
Definition show_str (o : option string) : string :=
  match o with
  | Some s => s
  | None => "undefined"
  end.

(** Numbers as the age computation meets them: an integer or [NaN]. *)
Inductive Num :=
| NaN
| Int (z : Z).

Definition sub (a b : Num) : Num :=
  match a, b with
  | Int x, Int y => Int (x - y)
  | _, _ => NaN
  end.

Definition lt (a b : Num) : bool :=
  match a, b with
  | Int x, Int y => x <? y
  | _, _ => false
  end.

Definition gt (a b : Num) : bool := lt b a.

Definition strict_eq (a b : Num) : bool :=
  match a, b with
  | Int x, Int y => x =? y
  | _, _ => false
  end.

Definition decimal (z : Z) : string := NilZero.string_of_int (Z.to_int z).

Definition show_num (n : Num) : string :=
  match n with
  | NaN => "NaN"
  | Int z => decimal z
  end.

(** [`${userAge}`] where [userAge] may be [null]. *)
Definition show_nullable (n : option Num) : string :=
  match n with
  | None => "null"
  | Some x => show_num x
  end.

(** [Array.prototype.join]. *)
Definition join (sep : string) (xs : list string) : string :=
  String.concat sep xs.

(** What a [throw] carries: an [Error] object or anything else, the
    latter kept as its [String(...)] rendering. *)
Inductive Thrown :=
| ThrownError (message : string)
| ThrownOther (rendered : string).

(** [error instanceof Error ? error.message : String(error)] *)
Definition message_of (e : Thrown) : string :=
  match e with
  | ThrownError m => m
  | ThrownOther s => s
  end.

End Js.

(** ** Dates

  A [Date] is kept as its calendar fields in the time zone of the host;
  the functions runtime runs in UTC, so [toISOString] prints the same
  fields.  [month] is zero-based as [getMonth] returns it. *)

Module JsDate.

Record Fields := {
  fullYear : Z;
  month : Z;
  date : Z;
  hours : Z;
  minutes : Z;
  seconds : Z;
  milliseconds : Z
}.

Inductive t :=
| Invalid
| Valid (f : Fields).

Definition getFullYear (d : t) : Js.Num :=
  match d with Invalid => Js.NaN | Valid f => Js.Int (fullYear f) end.

Definition getMonth (d : t) : Js.Num :=
  match d with Invalid => Js.NaN | Valid f => Js.Int (month f) end.

Definition getDate (d : t) : Js.Num :=
  match d with Invalid => Js.NaN | Valid f => Js.Int (date f) end.

(** [s.padStart(width, "0")] *)
Fixpoint pad_zeros (missing : nat) (s : string) : string :=
  match missing with
  | O => s
  | S k => String "0"%char (pad_zeros k s)
  end.

Definition padStart (width : nat) (s : string) : string :=
  pad_zeros (width - String.length s)%nat s.

Definition iso_year (y : Z) : string :=
  if (0 <=? y) && (y <=? 9999) then padStart 4 (Js.decimal y)
  else ((if y <? 0 then "-" else "+") +:+ padStart 6 (Js.decimal (Z.abs y))).

(** [toISOString] of a valid date: [YYYY-MM-DDTHH:mm:ss.sssZ]. *)
Definition toISOString (f : Fields) : string :=
  iso_year (fullYear f) +:+ "-" +:+ padStart 2 (Js.decimal (month f + 1))
    +:+ "-" +:+ padStart 2 (Js.decimal (date f))
    +:+ "T" +:+ padStart 2 (Js.decimal (hours f))
    +:+ ":" +:+ padStart 2 (Js.decimal (minutes f))
    +:+ ":" +:+ padStart 2 (Js.decimal (seconds f))
    +:+ "." +:+ padStart 3 (Js.decimal (milliseconds f)) +:+ "Z".

Definition midnight (y m d : Z) : Fields :=
  {| fullYear := y; month := m; date := d;
     hours := 0; minutes := 0; seconds := 0; milliseconds := 0 |}.

End JsDate.

(** ** [path.basename] and [path.join] (POSIX) *)

Module Path.

Definition is_slash (c : ascii) : bool := Ascii.eqb c "/"%char.

Fixpoint drop_slashes (cs : list ascii) : list ascii :=
  match cs with
  | c :: rest => if is_slash c then drop_slashes rest else cs
  | [] => []
  end.

Fixpoint take_segment (cs : list ascii) : list ascii :=
  match cs with
  | c :: rest => if is_slash c then [] else c :: take_segment rest
  | [] => []
  end.

(** Scan from the end: skip trailing slashes, keep up to the next slash. *)
Definition basename (p : string) : string :=
  string_of_list_ascii
    (rev (take_segment (drop_slashes (rev (list_ascii_of_string p))))).

(** The segments between slashes: ["/a//b"] gives [""; "a"; ""; "b"]. *)
Fixpoint split_slashes (cs seg : list ascii) : list string :=
  match cs with
  | [] => [string_of_list_ascii (rev seg)]
  | c :: rest =>
      if is_slash c
      then string_of_list_ascii (rev seg) :: split_slashes rest []
      else split_slashes rest (c :: seg)
  end.

(** [normalizeString]: empty and "." segments go, ".." takes the segment
    before it away; where there is none to take (or it is ".." itself) the
    ".." stays if the path is relative.  [kept] holds the segments kept so
    far, last first. *)
Fixpoint resolve (allowAboveRoot : bool) (segs kept : list string)
    : list string :=
  match segs with
  | [] => rev kept
  | s :: rest =>
      if String.eqb s "" || String.eqb s "." then
        resolve allowAboveRoot rest kept
      else if String.eqb s ".." then
        match kept with
        | top :: below =>
            if String.eqb top ".."
            then resolve allowAboveRoot rest
                   (if allowAboveRoot then ".." :: kept else kept)
            else resolve allowAboveRoot rest below
        | [] =>
            resolve allowAboveRoot rest
              (if allowAboveRoot then [".."] else [])
        end
      else resolve allowAboveRoot rest (s :: kept)
  end.

Definition starts_with_slash (p : string) : bool :=
  match p with
  | String c _ => is_slash c
  | EmptyString => false
  end.

Definition ends_with_slash (p : string) : bool :=
  match rev (list_ascii_of_string p) with
  | c :: _ => is_slash c
  | [] => false
  end.

(** [path.normalize] *)
Definition normalize (p : string) : string :=
  if String.eqb p "" then "." else
  let isAbsolute := starts_with_slash p in
  let trailingSeparator := ends_with_slash p in
  let body :=
    String.concat "/"
      (resolve (negb isAbsolute) (split_slashes (list_ascii_of_string p) [])
         []) in
  if String.eqb body "" then
    if isAbsolute then "/" else if trailingSeparator then "./" else "."
  else
    (if isAbsolute then "/" else "") +:+ body
    +:+ (if trailingSeparator then "/" else "").

(** [path.join(a, b)]: the non-empty arguments joined by a slash, then
    normalised. *)
Definition join (a b : string) : string :=
  if String.eqb a "" then
    if String.eqb b "" then "." else normalize b
  else if String.eqb b "" then normalize a
  else normalize (a +:+ "/" +:+ b).

End Path.

(** ** The outside world and the journal of external calls *)

(** Content parts handed to [createUserContent]: a part made by
    [createPartFromUri], or a plain string. *)
Inductive Part :=
| PartFromUri (fileUri mimeType : string)
| PartText (text : string).

(** What [ai.files.upload] resolves to: the handler reads [uri] and
    [mimeType], either of which may be missing. *)
Inductive UploadResult :=
| UploadThrows (e : Js.Thrown)
| Uploaded (uri mimeType : option string).

(** What [ai.models.generateContent] resolves to; [result.text] may be
    undefined. *)
Inductive GenerateResult :=
| GenerateThrows (e : Js.Thrown)
| Generated (text : option string).

(** One external call together with what came back ([None]: it returned). *)
Inductive Call :=
| Download (photoPath destination : string) (outcome : option Js.Thrown)
| Upload (file mimeType : string) (outcome : UploadResult)
| GenerateContent (model : string) (parts : list Part) (outcome : GenerateResult)
| Unlink (path : string) (outcome : option Js.Thrown)
| Update (collection docId : string) (payload : list (string * Js.Value))
    (outcome : option Js.Thrown).

Inductive Level := LInfo | LWarn | LError.

(** The environment of one invocation.  Every answer may depend on the calls
    made so far; the clock is read by position: [dateNow k] and [newDate k]
    are what [Date.now()] and [new Date()] return when they are reading
    number [k] of the invocation, counted from 0.  [bucket] is what
    [storage.bucket()] does in this deployment: it throws when the app has no
    default bucket. *)
Record World := {
  GEMINI_API_KEY : option string;
  tmpdir : string;
  bucket : option Js.Thrown;
  dateNow : nat -> Z;
  newDate : nat -> JsDate.Fields;
  parseDate : string -> JsDate.t;
  download : list Call -> string -> string -> option Js.Thrown;
  upload : list Call -> string -> string -> UploadResult;
  generateContent : list Call -> string -> list Part -> GenerateResult;
  unlinkSync : list Call -> string -> option Js.Thrown;
  update : list Call -> string -> string -> list (string * Js.Value) ->
           option Js.Thrown
}.

(** The trigger event: [event.data?.data()] and [event.params?.docId]. *)
Record CoffeeData := {
  userName : option string;
  userBirthday : option string;
  userRelationStatus : option string;
  userEmploymentStatus : option string;
  photoPaths : option (list string);
  result : Js.Value
}.

Record Event := {
  data : option CoffeeData;
  docId : string
}.

(** ** The monad *)

Record State := {
  journal : list Call;
  logs : list (Level * string);
  ticks : nat;
  tempFiles : list string;
  contentParts : list Part;
  record : gmap string Js.Value
}.

Inductive Completion (A : Type) :=
| Normal (a : A)
| Throw (e : Js.Thrown).
Arguments Normal {A} a.
Arguments Throw {A} e.

Definition M (A : Type) : Type := State -> Completion A * State.

Definition ret {A} (a : A) : M A := fun st => (Normal a, st).

Definition bind {A B} (m : M A) (k : A -> M B) : M B :=
  fun st =>
    match m st with
    | (Normal a, st') => k a st'
    | (Throw e, st') => (Throw e, st')
    end.

Definition throw {A} (e : Js.Thrown) : M A := fun st => (Throw e, st).

(** [try { body } catch (e) { handler e }] *)
Definition try_catch {A} (body : M A) (handler : Js.Thrown -> M A) : M A :=
  fun st =>
    match body st with
    | (Normal a, st') => (Normal a, st')
    | (Throw e, st') => handler e st'
    end.

Declare Scope js_scope.
Delimit Scope js_scope with js.
Notation "x <- m ;; k" := (bind m (fun x => k))
  (at level 100, m at next level, right associativity) : js_scope.
Notation "m ;; k" := (bind m (fun _ => k))
  (at level 100, right associativity) : js_scope.

Local Open Scope js_scope.

(** [for (const x of xs) body] *)
Fixpoint for_of {A} (xs : list A) (body : A -> M unit) : M unit :=
  match xs with
  | [] => ret tt
  | x :: rest => body x ;; for_of rest body
  end.

Definition record_call (c : Call) (st : State) : State :=
  {| journal := journal st ++ [c]; logs := logs st; ticks := ticks st;
     tempFiles := tempFiles st; contentParts := contentParts st;
     record := record st |}.

Definition of_outcome (o : option Js.Thrown) : Completion unit :=
  match o with
  | None => Normal tt
  | Some e => Throw e
  end.

Definition log (lvl : Level) (msg : string) : M unit :=
  fun st =>
    (Normal tt,
     {| journal := journal st; logs := logs st ++ [(lvl, msg)];
        ticks := ticks st; tempFiles := tempFiles st;
        contentParts := contentParts st; record := record st |}).

Definition tick (st : State) : State :=
  {| journal := journal st; logs := logs st; ticks := S (ticks st);
     tempFiles := tempFiles st; contentParts := contentParts st;
     record := record st |}.

Definition set_tempFiles (fs : list string) : M unit :=
  fun st =>
    (Normal tt,
     {| journal := journal st; logs := logs st; ticks := ticks st;
        tempFiles := fs; contentParts := contentParts st;
        record := record st |}).

Definition set_contentParts (ps : list Part) : M unit :=
  fun st =>
    (Normal tt,
     {| journal := journal st; logs := logs st; ticks := ticks st;
        tempFiles := tempFiles st; contentParts := ps;
        record := record st |}).

Definition get_tempFiles : M (list string) := fun st => (Normal (tempFiles st), st).
Definition get_contentParts : M (list Part) := fun st => (Normal (contentParts st), st).

Definition push_tempFile (f : string) : M unit :=
  fs <- get_tempFiles ;; set_tempFiles (fs ++ [f]).

Definition push_contentPart (p : Part) : M unit :=
  ps <- get_contentParts ;; set_contentParts (ps ++ [p]).

(** Firestore [update]: the listed top-level fields replace the stored ones. *)
Definition apply_update (payload : list (string * Js.Value))
    (doc : gmap string Js.Value) : gmap string Js.Value :=
  foldl (fun m kv => <[fst kv := snd kv]> m) doc payload.

Definition commit (payload : list (string * Js.Value)) (st : State) : State :=
  {| journal := journal st; logs := logs st; ticks := ticks st;
     tempFiles := tempFiles st; contentParts := contentParts st;
     record := apply_update payload (record st) |}.

(** ** The handler *)

Definition GEMINI_MODEL : string := "gemini-2.5-flash".

Definition PROMPT_FINE_TUNE : list string := ["Dil Türkçe olsun."].

(** The age block of the handler, after the two dates are built. *)
Definition ageAsOf (today birthDate : JsDate.t) : Js.Num :=
  let age := Js.sub (JsDate.getFullYear today) (JsDate.getFullYear birthDate) in
  let monthDiff := Js.sub (JsDate.getMonth today) (JsDate.getMonth birthDate) in
  if Js.lt monthDiff (Js.Int 0)
     || (Js.strict_eq monthDiff (Js.Int 0)
         && Js.lt (JsDate.getDate today) (JsDate.getDate birthDate))
  then Js.sub age (Js.Int 1)
  else age.

(** [userAge !== null && userAge > 0] *)
Definition age_given (userAge : option Js.Num) : bool :=
  match userAge with
  | None => false
  | Some a => Js.gt a (Js.Int 0)
  end.

(** The [chunks] array after the four conditional pushes. *)
Definition promptChunks (userName : option string) (userAge : option Js.Num)
    (userRelationStatus userEmploymentStatus : option string) : list string :=
  let chunks := [] in
  let chunks :=
    if Js.truthy_str userName
    then chunks ++ ["ismim " +:+ Js.show_str userName] else chunks in
  let chunks :=
    if age_given userAge
    then chunks ++ ["yasim " +:+ Js.show_nullable userAge] else chunks in
  let chunks :=
    if Js.truthy_str userRelationStatus
    then chunks ++ ["medeni durumum " +:+ Js.show_str userRelationStatus]
    else chunks in
  let chunks :=
    if Js.truthy_str userEmploymentStatus
    then chunks ++ ["iş durumum " +:+ Js.show_str userEmploymentStatus]
    else chunks in
  chunks.

(** [promptText] as it stands when it is pushed onto [contentParts]. *)
Definition composePrompt (userName : option string) (userAge : option Js.Num)
    (userRelationStatus userEmploymentStatus : option string) : string :=
  let chunks :=
    promptChunks userName userAge userRelationStatus userEmploymentStatus in
  let promptText :=
    if (0 <? length chunks)%nat
    then Js.join ", " chunks +:+ " kahve falımı yorumla."
    else "Kahve falımı yorumla." in
  if (0 <? length PROMPT_FINE_TUNE)%nat
  then promptText +:+ " " +:+ Js.join " " PROMPT_FINE_TUNE
  else promptText.

Definition text_value (text : option string) : Js.Value :=
  match text with
  | Some s => Js.VStr s
  | None => Js.VUndefined
  end.

Definition completedPayload (text : option string) (promptText : string)
    (processedAt : string) : list (string * Js.Value) :=
  [ ("result", text_value text);
    ("ai", Js.VObj [ ("promptText", Js.VStr promptText);
                     ("processedAt", Js.VStr processedAt);
                     ("source", Js.VStr GEMINI_MODEL) ]);
    ("status", Js.VStr "completed") ].

Definition errorPayload (error : Js.Thrown) (processedAt : string)
    : list (string * Js.Value) :=
  [ ("result", Js.VObj [ ("error", Js.VStr "Failed to process with Gemini AI");
                         ("errorDetails", Js.VStr (Js.message_of error));
                         ("processedAt", Js.VStr processedAt);
                         ("source", Js.VStr GEMINI_MODEL) ]);
    ("status", Js.VStr "error") ].

Section Handler.

Context (W : World).

(** [Date.now()] *)
Definition Date_now : M Z :=
  fun st => (Normal (dateNow W (ticks st)), tick st).

(** [new Date()] *)
Definition new_Date : M JsDate.Fields :=
  fun st => (Normal (newDate W (ticks st)), tick st).

(** [storage.bucket()] *)
Definition storage_bucket : M unit :=
  fun st => (of_outcome (bucket W), st).

(** [bucket.file(name)]: no call leaves the process, but the client
    library refuses an empty name. *)
Definition bucket_file (name : string) : M unit :=
  fun st =>
    (if String.eqb name ""
     then Throw (Js.ThrownError "A file name must be specified.")
     else Normal tt,
     st).

(** [await file.download({destination})] *)
Definition file_download (photoPath destination : string) : M unit :=
  fun st =>
    let o := download W (journal st) photoPath destination in
    (of_outcome o, record_call (Download photoPath destination o) st).

(** [await ai.files.upload({file, config: {mimeType}})] *)
Definition files_upload (file mimeType : string)
    : M (option string * option string) :=
  fun st =>
    let o := upload W (journal st) file mimeType in
    (match o with
     | UploadThrows e => Throw e
     | Uploaded uri mime => Normal (uri, mime)
     end,
     record_call (Upload file mimeType o) st).

(** [await ai.models.generateContent({model, contents})], returning
    [result.text]. *)
Definition models_generateContent (model : string) (parts : list Part)
    : M (option string) :=
  fun st =>
    let o := generateContent W (journal st) model parts in
    (match o with
     | GenerateThrows e => Throw e
     | Generated text => Normal text
     end,
     record_call (GenerateContent model parts o) st).

(** [fs.unlinkSync(path)] *)
Definition fs_unlinkSync (path : string) : M unit :=
  fun st =>
    let o := unlinkSync W (journal st) path in
    (of_outcome o, record_call (Unlink path o) st).

(** [await db.collection(collection).doc(docId).update(payload)]: the stored
    record changes only when the datastore accepts the write. *)
Definition doc_update (collection docId : string)
    (payload : list (string * Js.Value)) : M unit :=
  fun st =>
    let o := update W (journal st) collection docId payload in
    let st' := record_call (Update collection docId payload o) st in
    (of_outcome o, match o with None => commit payload st' | Some _ => st' end).

(** The age block: [userAge] stays [null] without a birthday. *)
Definition computeUserAge (userBirthday : option string) : M (option Js.Num) :=
  if Js.truthy_str userBirthday then
    try_catch
      (let birthDate := parseDate W (Js.show_str userBirthday) in
       today <- new_Date ;;
       ret (Some (ageAsOf (JsDate.Valid today) birthDate)))
      (fun error =>
         log LWarn ("Failed to calculate age from birthday: "
                    +:+ Js.show_str userBirthday) ;;
         ret None)
  else ret None.

(** One turn of the photo loop. *)
Definition processPhoto (photoPath : string) : M unit :=
  try_catch
    (storage_bucket ;;
     bucket_file photoPath ;;
     timestamp <- Date_now ;;
     let baseName := Path.basename photoPath in
     let tempFileName := "temp_" +:+ Js.decimal timestamp +:+ "_" +:+ baseName in
     let tempFilePath := Path.join (tmpdir W) tempFileName in
     file_download photoPath tempFilePath ;;
     log LInfo ("Downloaded file from Storage: " +:+ photoPath +:+ " to "
                +:+ tempFilePath) ;;
     uploadedFile <- files_upload tempFilePath "image/jpeg" ;;
     (if Js.truthy_str (fst uploadedFile) && Js.truthy_str (snd uploadedFile)
      then push_contentPart
             (PartFromUri (Js.show_str (fst uploadedFile))
                          (Js.show_str (snd uploadedFile)))
      else ret tt) ;;
     push_tempFile tempFilePath)
    (fun uploadError =>
       log LWarn ("Failed to process photo " +:+ photoPath +:+ ":")).

(** [if (photoPaths && photoPaths.length > 0) { for (...) { ... } }] *)
Definition materializePhotos (photoPaths : option (list string)) : M unit :=
  match photoPaths with
  | Some paths =>
      if (0 <? length paths)%nat then for_of paths processPhoto else ret tt
  | None => ret tt
  end.

(** One turn of a cleanup loop; the two loops differ only in the text they
    log when the file is gone. *)
Definition unlinkTurn (done tempFile : string) : M unit :=
  try_catch
    (fs_unlinkSync tempFile ;;
     log LInfo (done +:+ tempFile))
    (fun cleanupError =>
       log LWarn ("Failed to clean up temp file " +:+ tempFile +:+ ":")).

(** [for (const tempFile of tempFiles) { try { ... } catch { ... } }] *)
Definition cleanupTempFiles (done : string) : M unit :=
  files <- get_tempFiles ;;
  for_of files (unlinkTurn done).

Definition tryBlock (d : CoffeeData) (docId : string) : M unit :=
  log LInfo ("Processing coffee document: " +:+ docId) ;;
  (if negb (Js.truthy_str (GEMINI_API_KEY W))
   then throw (Js.ThrownError "Gemini API key is not configured")
   else ret tt) ;;
  userAge <- computeUserAge (userBirthday d) ;;
  log LInfo ("User info for " +:+ docId +:+ ": userName="
             +:+ Js.show_str (userName d) +:+ ", userAge="
             +:+ Js.show_nullable userAge +:+ ", userRelationStatus="
             +:+ Js.show_str (userRelationStatus d)
             +:+ ", userEmploymentStatus="
             +:+ Js.show_str (userEmploymentStatus d)) ;;
  set_contentParts [] ;;
  materializePhotos (photoPaths d) ;;
  let promptText :=
    composePrompt (userName d) userAge (userRelationStatus d)
                  (userEmploymentStatus d) in
  push_contentPart (PartText promptText) ;;
  parts <- get_contentParts ;;
  text <- models_generateContent GEMINI_MODEL parts ;;
  log LInfo ("Gemini response received for document: " +:+ docId) ;;
  cleanupTempFiles "Cleaned up temporary file: " ;;
  now <- new_Date ;;
  doc_update "coffee" docId
    (completedPayload text promptText (JsDate.toISOString now)) ;;
  log LInfo ("Successfully updated document " +:+ docId
             +:+ " with Gemini result").

Definition catchBlock (docId : string) (error : Js.Thrown) : M unit :=
  log LError ("Error processing coffee document " +:+ docId +:+ ":") ;;
  cleanupTempFiles "Cleaned up temporary file after error: " ;;
  now <- new_Date ;;
  doc_update "coffee" docId (errorPayload error (JsDate.toISOString now)).

Definition processCoffeeWithGemini (event : Event) : M unit :=
  match data event with
  | None => log LError "No data associated with the event"
  | Some d =>
      if Js.truthy (result d) then
        log LInfo ("Document " +:+ docId event
                   +:+ " already has a result, skipping")
      else
        set_tempFiles [] ;;
        try_catch (tryBlock d (docId event)) (catchBlock (docId event))
  end.

End Handler.

(** An invocation starts with an empty journal; [doc] is the record as it is
    stored when the handler begins. *)
Definition initial (doc : gmap string Js.Value) : State :=
  {| journal := []; logs := []; ticks := 0%nat; tempFiles := [];
     contentParts := []; record := doc |}.

Definition run (W : World) (event : Event) (doc : gmap string Js.Value)
    : Completion unit * State :=
  processCoffeeWithGemini W event (initial doc).

(** ** Reading the journal *)

Definition is_transfer (c : Call) : bool :=
  match c with
  | Download _ _ _ | Upload _ _ _ => true
  | _ => false
  end.

(** References for which a download was attempted. *)
Definition download_attempt (c : Call) : option string :=
  match c with Download p _ _ => Some p | _ => None end.
Definition downloads (j : list Call) : list string := omap download_attempt j.

(** Transient local files that came into being: destinations of the
    downloads that returned. *)
Definition created_file (c : Call) : option string :=
  match c with Download _ dest None => Some dest | _ => None end.
Definition createdFiles (j : list Call) : list string := omap created_file j.

Definition upload_attempt (c : Call) : option string :=
  match c with Upload f _ _ => Some f | _ => None end.
Definition uploads (j : list Call) : list string := omap upload_attempt j.

(** Files whose registration with the AI service returned. *)
Definition registered_file (c : Call) : option string :=
  match c with Upload f _ (Uploaded _ _) => Some f | _ => None end.
Definition registeredFiles (j : list Call) : list string :=
  omap registered_file j.

(** The content part a returned upload contributes, if any. *)
Definition materialized_part (c : Call) : option Part :=
  match c with
  | Upload _ _ (Uploaded uri mime) =>
      if Js.truthy_str uri && Js.truthy_str mime
      then Some (PartFromUri (Js.show_str uri) (Js.show_str mime))
      else None
  | _ => None
  end.
Definition materializedParts (j : list Call) : list Part :=
  omap materialized_part j.

Definition unlink_attempt (c : Call) : option string :=
  match c with Unlink p _ => Some p | _ => None end.
Definition unlinks (j : list Call) : list string := omap unlink_attempt j.

Definition generation (c : Call)
    : option (string * list Part * GenerateResult) :=
  match c with GenerateContent m ps g => Some (m, ps, g) | _ => None end.
Definition generations (j : list Call)
    : list (string * list Part * GenerateResult) := omap generation j.

Definition update_attempt (c : Call)
    : option (list (string * Js.Value) * option Js.Thrown) :=
  match c with Update _ _ payload o => Some (payload, o) | _ => None end.
Definition updates (j : list Call)
    : list (list (string * Js.Value) * option Js.Thrown) :=
  omap update_attempt j.

(** The text parts that reached the model. *)
Definition text_part (p : Part) : option string :=
  match p with PartText s => Some s | PartFromUri _ _ => None end.
Definition promptsSent (j : list Call) : list string :=
  flat_map (fun g => omap text_part (snd (fst g))) (generations j).

Definition is_uri_part (p : Part) : bool :=
  match p with PartFromUri _ _ => true | PartText _ => false end.

(** First binding of a field in an update payload. *)
Fixpoint field (k : string) (payload : list (string * Js.Value))
    : option Js.Value :=
  match payload with
  | [] => None
  | (k', v) :: rest => if String.eqb k k' then Some v else field k rest
  end.

(** [payload.ai.promptText] *)
Definition storedPromptText (payload : list (string * Js.Value))
    : option Js.Value :=
  match field "ai" payload with
  | Some (Js.VObj meta) => field "promptText" meta
  | _ => None
  end.

(** The record has reached [completed] or [error]. *)
Definition terminal (doc : gmap string Js.Value) : Prop :=
  doc !! "status" = Some (Js.VStr "completed")
  \/ doc !! "status" = Some (Js.VStr "error").

(** The age the handler works with: the value of [userAge] when the clock
    reading taken for [today] is the [k]-th. *)
Definition userAgeAt (W : World) (k : nat) (userBirthday : option string)
    : option Js.Num :=
  if Js.truthy_str userBirthday
  then Some (ageAsOf (JsDate.Valid (newDate W k))
                     (parseDate W (Js.show_str userBirthday)))
  else None.

(** The prompt the handler composes for a record in a given world. *)
Definition promptFor (W : World) (d : CoffeeData) : string :=
  composePrompt (userName d) (userAgeAt W 0 (userBirthday d))
    (userRelationStatus d) (userEmploymentStatus d).

(** ** The prompt as the specification words it *)

Module PromptSpec.

(** A normalised attribute set: each attribute is a value or absent. *)
Record Attributes := {
  name : option string;
  age : option Z;
  relationStatus : option string;
  employmentStatus : option string
}.

Definition clause (phrase : string) (value : option string) : list string :=
  match value with
  | Some v => [phrase +:+ v]
  | None => []
  end.

Definition separator : string := ", ".
Definition closing : string := " kahve falımı yorumla.".
Definition fallback : string := "Kahve falımı yorumla.".
Definition directives : string := " Dil Türkçe olsun.".

Definition clauses (a : Attributes) : list string :=
  clause "ismim " (name a)
  ++ clause "yasim " (option_map Js.decimal (age a))
  ++ clause "medeni durumum " (relationStatus a)
  ++ clause "iş durumum " (employmentStatus a).

Definition prompt (a : Attributes) : string :=
  match clauses a with
  | [] => fallback
  | cs => String.concat separator cs +:+ closing
  end +:+ directives.

Definition nothing : Attributes :=
  {| name := None; age := None; relationStatus := None;
     employmentStatus := None |}.

(** Which raw values the handler counts as present. *)
Definition present (o : option string) : option string :=
  if Js.truthy_str o then o else None.

Definition meaningful_age (a : option Js.Num) : option Z :=
  match a with
  | Some (Js.Int z) => if 0 <? z then Some z else None
  | _ => None
  end.

Definition normalize (userName : option string) (userAge : option Js.Num)
    (userRelationStatus userEmploymentStatus : option string) : Attributes :=
  {| name := present userName;
     age := meaningful_age userAge;
     relationStatus := present userRelationStatus;
     employmentStatus := present userEmploymentStatus |}.

(** "(now.month, now.day) precedes (birth.month, birth.day)
    lexicographically" *)
Definition precedes (nowMonth nowDay birthMonth birthDay : Z) : bool :=
  match nowMonth ?= birthMonth with
  | Lt => true
  | Eq => nowDay <? birthDay
  | Gt => false
  end.

Definition age_rule (now birth : JsDate.Fields) : Z :=
  JsDate.fullYear now - JsDate.fullYear birth
  - (if precedes (JsDate.month now) (JsDate.date now)
                 (JsDate.month birth) (JsDate.date birth)
     then 1 else 0).

End PromptSpec.

(** The normalised attributes of a record in a given world. *)
Definition normalizedAttributes (W : World) (d : CoffeeData)
    : PromptSpec.Attributes :=
  PromptSpec.normalize (userName d) (userAgeAt W 0 (userBirthday d))
    (userRelationStatus d) (userEmploymentStatus d).

(** ** Sample worlds and events *)

Module Sample.

Definition digit (c : ascii) : option Z :=
  let n := Z.of_nat (nat_of_ascii c) - 48 in
  if (0 <=? n) && (n <=? 9) then Some n else None.

Fixpoint number (cs : list ascii) (acc : Z) : option Z :=
  match cs with
  | [] => Some acc
  | c :: rest =>
      match digit c with
      | Some d => number rest (10 * acc + d)
      | None => None
      end
  end.

Definition is_dash (c : ascii) : bool := Ascii.eqb c "-"%char.

(** A [Date] constructor for the date-only form [YYYY-MM-DD]; every other
    string gives an invalid date. *)
Definition parseIsoDate (s : string) : JsDate.t :=
  match list_ascii_of_string s with
  | [y1; y2; y3; y4; s1; m1; m2; s2; d1; d2] =>
      match number [y1; y2; y3; y4] 0, number [m1; m2] 0, number [d1; d2] 0 with
      | Some y, Some m, Some d =>
          if is_dash s1 && is_dash s2
             && (1 <=? m) && (m <=? 12) && (1 <=? d) && (d <=? 31)
          then JsDate.Valid (JsDate.midnight y (m - 1) d)
          else JsDate.Invalid
      | _, _, _ => JsDate.Invalid
      end
  | _ => JsDate.Invalid
  end.

(** 2025-08-28T10:30:00.000Z *)
Definition today : JsDate.Fields :=
  {| JsDate.fullYear := 2025; JsDate.month := 7; JsDate.date := 28;
     JsDate.hours := 10; JsDate.minutes := 30; JsDate.seconds := 0;
     JsDate.milliseconds := 0 |}.

Definition world (key : option string) (uploaded : UploadResult)
    (generated : GenerateResult)
    (written : list (string * Js.Value) -> option Js.Thrown) : World :=
  {| GEMINI_API_KEY := key;
     tmpdir := "/tmp";
     bucket := None;
     dateNow := fun k => 1756377000000 + Z.of_nat k;
     newDate := fun _ => today;
     parseDate := parseIsoDate;
     download := fun _ _ _ => None;
     upload := fun _ _ _ => uploaded;
     generateContent := fun _ _ _ => generated;
     unlinkSync := fun _ _ => None;
     update := fun _ _ _ payload => written payload |}.

Definition accepts : list (string * Js.Value) -> option Js.Thrown :=
  fun _ => None.

(** The datastore turns down the [completed] write and takes the rest. *)
Definition rejects_completed (payload : list (string * Js.Value))
    : option Js.Thrown :=
  match field "status" payload with
  | Some (Js.VStr s) =>
      if String.eqb s "completed" then Some (Js.ThrownError "UNAVAILABLE")
      else None
  | _ => None
  end.

(** Everything works. *)
Definition calm : World :=
  world (Some "key")
        (Uploaded (Some "https://ai.example/files/1") (Some "image/jpeg"))
        (Generated (Some "fal")) accepts.

(** The same with the clock of the next day. *)
Definition tomorrow : World :=
  {| GEMINI_API_KEY := Some "other-key";
     tmpdir := "/var/tmp";
     bucket := None;
     dateNow := fun k => 1756463400000 + Z.of_nat k;
     newDate := fun _ =>
       {| JsDate.fullYear := 2025; JsDate.month := 7; JsDate.date := 29;
          JsDate.hours := 23; JsDate.minutes := 59; JsDate.seconds := 59;
          JsDate.milliseconds := 999 |};
     parseDate := parseIsoDate;
     download := fun _ _ _ => Some (Js.ThrownError "No such object");
     upload := fun _ _ _ => UploadThrows (Js.ThrownError "unreachable");
     generateContent := fun _ _ _ => Generated (Some "başka fal");
     unlinkSync := fun _ _ => None;
     update := fun _ _ _ _ => None |}.

(** Storage serves the object, the AI service refuses the registration. *)
Definition upload_refused : World :=
  world (Some "key") (UploadThrows (Js.ThrownError "503 Service Unavailable"))
        (Generated (Some "fal")) accepts.

(** The first terminal write is turned down. *)
Definition write_rejected : World :=
  world (Some "key")
        (Uploaded (Some "https://ai.example/files/1") (Some "image/jpeg"))
        (Generated (Some "fal")) rejects_completed.

Definition no_key : World :=
  world None
        (Uploaded (Some "https://ai.example/files/1") (Some "image/jpeg"))
        (Generated (Some "fal")) accepts.

Definition created_as (id : string) (d : CoffeeData) : Event :=
  {| data := Some d; docId := id |}.

Definition created : CoffeeData -> Event := created_as "doc1".

Definition person (name birthday relation employment : option string)
    (photos : option (list string)) (res : Js.Value) : CoffeeData :=
  {| userName := name; userBirthday := birthday;
     userRelationStatus := relation; userEmploymentStatus := employment;
     photoPaths := photos; result := res |}.

(** The record of the README. *)
Definition ahmet : CoffeeData :=
  person (Some "Ahmet") (Some "1990-05-15") (Some "evli") (Some "mühendis")
    (Some ["coffee-images/cup1.jpg"; "coffee-images/cup2.jpg"]) Js.VUndefined.

(** The same person in another record: no photos, an explicit null result. *)
Definition ahmet_again : CoffeeData :=
  person (Some "Ahmet") (Some "1990-05-15") (Some "evli") (Some "mühendis")
    None Js.VNull.

Definition one_photo : CoffeeData :=
  person None None None None (Some ["coffee-images/cup1.jpg"]) Js.VUndefined.

Definition bare : CoffeeData :=
  person None None None None None Js.VUndefined.

Definition born (birthday : string) : CoffeeData :=
  person None (Some birthday) None None None Js.VUndefined.

Definition already_done : CoffeeData :=
  person (Some "Ahmet") None None None (Some ["coffee-images/cup1.jpg"])
    (Js.VStr "fal").

End Sample.

(** A reference for which the photo loop gets as far as a download: the
    bucket is there and the reference is not empty. *)
Definition has_handle (W : World) (photoPath : string) : bool :=
  match bucket W with
  | Some _ => false
  | None => negb (String.eqb photoPath "")
  end.

(** ** Shapes of journal segments *)

Definition is_unlink (c : Call) : bool :=
  match c with Unlink _ _ => true | _ => false end.

(** What the photo loop does between two states, [paths] being the
    references it gets a file handle for: only transfers are journalled, one
    download attempt per path, and the two arrays grow by what the returned
    uploads contribute. *)
Definition materialized (st st' : State) (paths : list string) : Prop :=
  exists js,
    journal st' = journal st ++ js
    /\ forallb is_transfer js = true
    /\ downloads js = paths
    /\ uploads js = createdFiles js
    /\ contentParts st' = contentParts st ++ materializedParts js
    /\ tempFiles st' = tempFiles st ++ registeredFiles js
    /\ record st' = record st.

(** A cleanup pass over [files]: one unlink attempt each, in order. *)
Definition sweep (us : list Call) (files : list string) : Prop :=
  forallb is_unlink us = true /\ unlinks us = files.

Definition swept (st st' : State) : Prop :=
  exists us,
    journal st' = journal st ++ us
    /\ sweep us (tempFiles st)
    /\ tempFiles st' = tempFiles st
    /\ contentParts st' = contentParts st
    /\ ticks st' = ticks st
    /\ record st' = record st.

(** The stored record after an update attempt with outcome [o]. *)
Definition settle (o : option Js.Thrown) (payload : list (string * Js.Value))
    (doc : gmap string Js.Value) : gmap string Js.Value :=
  match o with
  | None => apply_update payload doc
  | Some _ => doc
  end.

(** What follows the generation call, by its outcome: the journal tail, how
    the handler completes and the stored record.  [files] is [tempFiles],
    [clock] is [new Date()] by the number of the reading, and [k] readings of
    the clock were taken before the generation call. *)
Inductive Ending (clock : nat -> JsDate.Fields) (k : nat) (docId : string)
    (files : list string) (prompt : string) (doc : gmap string Js.Value)
  : GenerateResult -> list Call -> Completion unit -> gmap string Js.Value
    -> Prop :=
| generation_failed (e : Js.Thrown) us now o :
    sweep us files ->
    now = clock k ->
    Ending clock k docId files prompt doc (GenerateThrows e)
      (us ++ [Update "coffee" docId
                (errorPayload e (JsDate.toISOString now)) o])
      (of_outcome o)
      (settle o (errorPayload e (JsDate.toISOString now)) doc)
| write_accepted text us now :
    sweep us files ->
    now = clock k ->
    Ending clock k docId files prompt doc (Generated text)
      (us ++ [Update "coffee" docId
                (completedPayload text prompt (JsDate.toISOString now)) None])
      (Normal tt)
      (apply_update (completedPayload text prompt (JsDate.toISOString now)) doc)
| write_rejected text us now (e : Js.Thrown) us' now' o :
    sweep us files ->
    sweep us' files ->
    now = clock k ->
    now' = clock (S k) ->
    Ending clock k docId files prompt doc (Generated text)
      (us ++ [Update "coffee" docId
                (completedPayload text prompt (JsDate.toISOString now))
                (Some e)]
          ++ us' ++ [Update "coffee" docId
                       (errorPayload e (JsDate.toISOString now')) o])
      (of_outcome o)
      (settle o (errorPayload e (JsDate.toISOString now')) doc).

(** ** Further readings of the journal *)

(** Calls that settle a run: deletions and datastore writes. *)
Definition is_settling (c : Call) : bool :=
  match c with Unlink _ _ | Update _ _ _ _ => true | _ => false end.

(** A write of [status = "completed"] that the datastore turned down. *)
Definition is_rejected_completion (c : Call) : bool :=
  match c with
  | Update _ _ payload (Some _) =>
      match field "status" payload with
      | Some (Js.VStr status) => String.eqb status "completed"
      | _ => false
      end
  | _ => false
  end.

(** The journal holds a rejected [completed] write. *)
Definition completed_write_rejected (j : list Call) : bool :=
  existsb is_rejected_completion j.

(** How the handler addresses the services in one call: a download goes to
    a temp file named after a clock reading and the base name of the
    reference, uploads are declared as JPEG, the model is the configured one,
    and writes go to the triggering document. *)
Definition well_addressed (W : World) (id : string) (c : Call) : Prop :=
  match c with
  | Download photoPath dest _ =>
      exists k,
        dest = Path.join (tmpdir W)
                 ("temp_" +:+ Js.decimal (dateNow W k) +:+ "_"
                  +:+ Path.basename photoPath)
  | Upload _ mime _ => mime = "image/jpeg"
  | GenerateContent model _ _ => model = GEMINI_MODEL
  | Unlink _ _ => True
  | Update collection docId _ _ => collection = "coffee" /\ docId = id
  end.

(** [m] only adds calls satisfying [Q] to the journal, and a value it
    returns satisfies [R]. *)
Definition yields {A} (Q : Call -> Prop) (R : A -> Prop) (m : M A) : Prop :=
  forall st,
    exists js,
      journal (snd (m st)) = journal st ++ js
      /\ Forall Q js
      /\ match fst (m st) with
         | Normal a => R a
         | Throw _ => True
         end.

Definition anything {A} : A -> Prop := fun _ => True.

(** "At least one full year before": (y + 1, m, d) is not after (y', m', d')
    in the lexicographic order. *)
Definition a_year_before (birth now : JsDate.Fields) : Prop :=
  JsDate.fullYear birth + 1 < JsDate.fullYear now
  \/ (JsDate.fullYear birth + 1 = JsDate.fullYear now
      /\ (JsDate.month birth < JsDate.month now
          \/ (JsDate.month birth = JsDate.month now
              /\ JsDate.date birth <= JsDate.date now))).

(** ** Earlier revisions of the handler *)

(** What the two earlier revisions share: the model, the [||] defaults and
    the shape of the two terminal writes. *)
Module Legacy.

Definition MODEL : string := "gemini-2.0-flash-001".

(** [value || fallback] for an optional string *)
Definition or_else (value : option string) (fallback : string) : string :=
  if Js.truthy_str value then Js.show_str value else fallback.

Definition completedPayload (text : option string) (processedAt : string)
    : list (string * Js.Value) :=
  [ ("result", Js.VObj [ ("analysis", text_value text);
                         ("processedAt", Js.VStr processedAt);
                         ("source", Js.VStr MODEL) ]);
    ("status", Js.VStr "completed") ].

Definition errorPayload (error : Js.Thrown) (processedAt : string)
    : list (string * Js.Value) :=
  [ ("result", Js.VObj [ ("error", Js.VStr "Failed to process with Gemini AI");
                         ("errorDetails", Js.VStr (Js.message_of error));
                         ("processedAt", Js.VStr processedAt);
                         ("source", Js.VStr MODEL) ]);
    ("status", Js.VStr "error") ].

Definition processingPayload : list (string * Js.Value) :=
  [ ("status", Js.VStr "processing") ].

Definition keyError : Js.Thrown :=
  Js.ThrownError "Gemini API key is not configured".

(** A run past the guard, call by call: the [processing] marker first, then
    by what went wrong, if anything; with how the handler completes and the
    record it leaves behind.  [T js parts] relates the calls of the photo loop
    of the revision to the parts it hands to the model, [files js] are the
    temp files it recorded. *)
Inductive Shape (W : World) (docId : string)
    (T : list Call -> list Part -> Prop) (files : list Call -> list string)
    (doc : gmap string Js.Value)
  : list Call -> Completion unit -> gmap string Js.Value -> Prop :=
| marker_rejected (e : Js.Thrown) now o :
    Shape W docId T files doc
      [Update "coffee" docId processingPayload (Some e);
       Update "coffee" docId (errorPayload e (JsDate.toISOString now)) o]
      (of_outcome o)
      (settle o (errorPayload e (JsDate.toISOString now)) doc)
| key_missing now o :
    Js.truthy_str (GEMINI_API_KEY W) = false ->
    Shape W docId T files doc
      [Update "coffee" docId processingPayload None;
       Update "coffee" docId (errorPayload keyError (JsDate.toISOString now)) o]
      (of_outcome o)
      (settle o (errorPayload keyError (JsDate.toISOString now))
         (apply_update processingPayload doc))
| generation_failed js parts (e : Js.Thrown) us now o :
    Js.truthy_str (GEMINI_API_KEY W) = true ->
    T js parts -> sweep us (files js) ->
    Shape W docId T files doc
      (Update "coffee" docId processingPayload None
       :: js ++ GenerateContent MODEL parts (GenerateThrows e)
       :: us ++ [Update "coffee" docId
                   (errorPayload e (JsDate.toISOString now)) o])
      (of_outcome o)
      (settle o (errorPayload e (JsDate.toISOString now))
         (apply_update processingPayload doc))
| write_accepted js parts text us now :
    Js.truthy_str (GEMINI_API_KEY W) = true ->
    T js parts -> sweep us (files js) ->
    Shape W docId T files doc
      (Update "coffee" docId processingPayload None
       :: js ++ GenerateContent MODEL parts (Generated text)
       :: us ++ [Update "coffee" docId
                   (completedPayload text (JsDate.toISOString now)) None])
      (Normal tt)
      (apply_update (completedPayload text (JsDate.toISOString now))
         (apply_update processingPayload doc))
| write_rejected js parts text us now (e : Js.Thrown) us' now' o :
    Js.truthy_str (GEMINI_API_KEY W) = true ->
    T js parts -> sweep us (files js) -> sweep us' (files js) ->
    Shape W docId T files doc
      (Update "coffee" docId processingPayload None
       :: js ++ GenerateContent MODEL parts (Generated text)
       :: us ++ [Update "coffee" docId
                   (completedPayload text (JsDate.toISOString now)) (Some e)]
       ++ us' ++ [Update "coffee" docId
                    (errorPayload e (JsDate.toISOString now')) o])
      (of_outcome o)
      (settle o (errorPayload e (JsDate.toISOString now'))
         (apply_update processingPayload doc)).

End Legacy.

(** The revision that stages photos from storage, marks the record as
    [processing] and puts the birthday itself into the prompt. *)
Module Rev2.

(** [value && value !== placeholder] *)
Definition stated (value placeholder : string) : bool :=
  negb (String.eqb value "") && negb (String.eqb value placeholder).

Definition promptChunks (userName userBirthday userRelationStatus
    userEmploymentStatus : string) : list string :=
  let chunks := [] in
  let chunks :=
    if stated userName "kullanıcı"
    then chunks ++ ["ismim " +:+ userName] else chunks in
  let chunks :=
    if stated userBirthday "belirtilmemiş"
    then chunks ++ ["dogum tarihim " +:+ userBirthday] else chunks in
  let chunks :=
    if stated userRelationStatus "belirtilmemiş"
    then chunks ++ ["medeni durumum " +:+ userRelationStatus] else chunks in
  let chunks :=
    if stated userEmploymentStatus "belirtilmemiş"
    then chunks ++ ["iş durumum " +:+ userEmploymentStatus] else chunks in
  chunks.

Definition composePrompt (userName userBirthday userRelationStatus
    userEmploymentStatus : string) : string :=
  let chunks :=
    promptChunks userName userBirthday userRelationStatus
      userEmploymentStatus in
  if (0 <? length chunks)%nat
  then Js.join ", " chunks +:+ ". Kahve falımı yorumla."
  else "Kahve falımı yorumla.".

(** The prompt of a record: the four [||] defaults, then the chunks. *)
Definition promptFor (d : CoffeeData) : string :=
  composePrompt (Legacy.or_else (userName d) "kullanıcı")
    (Legacy.or_else (userBirthday d) "belirtilmemiş")
    (Legacy.or_else (userRelationStatus d) "belirtilmemiş")
    (Legacy.or_else (userEmploymentStatus d) "belirtilmemiş").

(** What the photo loop journals for a record, and the parts that follow. *)
Definition staged (W : World) (d : CoffeeData) (js : list Call)
    (parts : list Part) : Prop :=
  forallb is_transfer js = true
  /\ downloads js = List.filter (has_handle W) (default [] (photoPaths d))
  /\ uploads js = createdFiles js
  /\ parts = materializedParts js ++ [PartText (promptFor d)].

Section Handler.

Context (W : World).

Definition tryBlock (d : CoffeeData) (docId : string) : M unit :=
  log LInfo ("Processing coffee document: " +:+ docId) ;;
  doc_update W "coffee" docId Legacy.processingPayload ;;
  (if negb (Js.truthy_str (GEMINI_API_KEY W))
   then throw Legacy.keyError
   else ret tt) ;;
  let userName := Legacy.or_else (userName d) "kullanıcı" in
  let userBirthday := Legacy.or_else (userBirthday d) "belirtilmemiş" in
  let userRelationStatus :=
    Legacy.or_else (userRelationStatus d) "belirtilmemiş" in
  let userEmploymentStatus :=
    Legacy.or_else (userEmploymentStatus d) "belirtilmemiş" in
  let photoPaths := default [] (photoPaths d) in
  set_contentParts [] ;;
  materializePhotos W (Some photoPaths) ;;
  let promptText :=
    composePrompt userName userBirthday userRelationStatus
      userEmploymentStatus in
  push_contentPart (PartText promptText) ;;
  parts <- get_contentParts ;;
  text <- models_generateContent W Legacy.MODEL parts ;;
  log LInfo ("Gemini response received for document: " +:+ docId) ;;
  cleanupTempFiles W "Cleaned up temporary file: " ;;
  now <- new_Date W ;;
  doc_update W "coffee" docId
    (Legacy.completedPayload text (JsDate.toISOString now)) ;;
  log LInfo ("Successfully updated document " +:+ docId
             +:+ " with Gemini result").

Definition catchBlock (docId : string) (error : Js.Thrown) : M unit :=
  log LError ("Error processing coffee document " +:+ docId +:+ ":") ;;
  cleanupTempFiles W "Cleaned up temporary file after error: " ;;
  now <- new_Date W ;;
  doc_update W "coffee" docId
    (Legacy.errorPayload error (JsDate.toISOString now)).

Definition processCoffeeWithGemini (event : Event) : M unit :=
  match data event with
  | None => log LError "No data associated with the event"
  | Some d =>
      if Js.truthy (result d) then
        log LInfo ("Document " +:+ docId event
                   +:+ " already has a result, skipping")
      else
        set_tempFiles [] ;;
        try_catch (tryBlock d (docId event)) (catchBlock (docId event))
  end.

End Handler.

Definition run (W : World) (event : Event) (doc : gmap string Js.Value)
    : Completion unit * State :=
  processCoffeeWithGemini W event (initial doc).

End Rev2.

(** The first revision: photo URLs go to the AI service as they are, no
    storage and no temp files, and the prompt names all four attributes. *)
Module Rev1.

Record CoffeeData := {
  userName : option string;
  userBirthday : option string;
  userRelationStatus : option string;
  userEmploymentStatus : option string;
  photoUrls : option (list string);
  result : Js.Value
}.

Record Event := {
  data : option CoffeeData;
  docId : string
}.

Definition composePrompt (userName userBirthday userRelationStatus
    userEmploymentStatus : string) : string :=
  "ismim " +:+ userName +:+ ", dogum tarihim " +:+ userBirthday +:+ ", "
  +:+ "medeni durumum " +:+ userRelationStatus +:+ ", is durumum "
  +:+ userEmploymentStatus +:+ ". Kahve falimi yorumla.".

Definition promptFor (d : CoffeeData) : string :=
  composePrompt (Legacy.or_else (userName d) "kullanıcı")
    (Legacy.or_else (userBirthday d) "belirtilmemiş")
    (Legacy.or_else (userRelationStatus d) "belirtilmemiş")
    (Legacy.or_else (userEmploymentStatus d) "belirtilmemiş").

Definition is_upload (c : Call) : bool :=
  match c with Upload _ _ _ => true | _ => false end.

(** What the upload loop journals for a record, and the parts that follow. *)
Definition uploaded (d : CoffeeData) (js : list Call) (parts : list Part)
    : Prop :=
  forallb is_upload js = true
  /\ uploads js = default [] (photoUrls d)
  /\ parts = materializedParts js ++ [PartText (promptFor d)].

(** This revision records no temp files. *)
Definition no_files : list Call -> list string := fun _ => [].

Section Handler.

Context (W : World).

(** One turn of the upload loop. *)
Definition uploadPhoto (photoUrl : string) : M unit :=
  try_catch
    (uploadedFile <- files_upload W photoUrl "image/jpeg" ;;
     if Js.truthy_str (fst uploadedFile) && Js.truthy_str (snd uploadedFile)
     then push_contentPart
            (PartFromUri (Js.show_str (fst uploadedFile))
                         (Js.show_str (snd uploadedFile)))
     else ret tt)
    (fun uploadError =>
       log LWarn ("Failed to upload photo " +:+ photoUrl +:+ ":")).

Definition tryBlock (d : CoffeeData) (docId : string) : M unit :=
  log LInfo ("Processing coffee document: " +:+ docId) ;;
  doc_update W "coffee" docId Legacy.processingPayload ;;
  (if negb (Js.truthy_str (GEMINI_API_KEY W))
   then throw Legacy.keyError
   else ret tt) ;;
  let userName := Legacy.or_else (userName d) "kullanıcı" in
  let userBirthday := Legacy.or_else (userBirthday d) "belirtilmemiş" in
  let userRelationStatus :=
    Legacy.or_else (userRelationStatus d) "belirtilmemiş" in
  let userEmploymentStatus :=
    Legacy.or_else (userEmploymentStatus d) "belirtilmemiş" in
  let photoUrls := default [] (photoUrls d) in
  set_contentParts [] ;;
  (if (0 <? length photoUrls)%nat
   then for_of photoUrls uploadPhoto
   else ret tt) ;;
  let prompt :=
    composePrompt userName userBirthday userRelationStatus
      userEmploymentStatus in
  push_contentPart (PartText prompt) ;;
  parts <- get_contentParts ;;
  text <- models_generateContent W Legacy.MODEL parts ;;
  log LInfo ("Gemini response received for document: " +:+ docId) ;;
  now <- new_Date W ;;
  doc_update W "coffee" docId
    (Legacy.completedPayload text (JsDate.toISOString now)) ;;
  log LInfo ("Successfully updated document " +:+ docId
             +:+ " with Gemini result").

Definition catchBlock (docId : string) (error : Js.Thrown) : M unit :=
  log LError ("Error processing coffee document " +:+ docId +:+ ":") ;;
  now <- new_Date W ;;
  doc_update W "coffee" docId
    (Legacy.errorPayload error (JsDate.toISOString now)).

Definition processCoffeeWithGemini (event : Event) : M unit :=
  match data event with
  | None => log LError "No data associated with the event"
  | Some d =>
      if Js.truthy (result d) then
        log LInfo ("Document " +:+ docId event
                   +:+ " already has a result, skipping")
      else
        try_catch (tryBlock d (docId event)) (catchBlock (docId event))
  end.

End Handler.

Definition run (W : World) (event : Event) (doc : gmap string Js.Value)
    : Completion unit * State :=
  processCoffeeWithGemini W event (initial doc).

End Rev1.

(** How the second revision addresses the services: as the latest one, with
    the model of its time. *)
Definition rev2_addressed (W : World) (id : string) (c : Call) : Prop :=
  match c with
  | Download photoPath dest _ =>
      exists k,
        dest = Path.join (tmpdir W)
                 ("temp_" +:+ Js.decimal (dateNow W k) +:+ "_"
                  +:+ Path.basename photoPath)
  | Upload _ mime _ => mime = "image/jpeg"
  | GenerateContent model _ _ => model = Legacy.MODEL
  | Unlink _ _ => True
  | Update collection docId _ _ => collection = "coffee" /\ docId = id
  end.

(** The calls the first revision can make for a record: uploads of its
    photo URLs, the generation call and writes to its document. *)
Definition rev1_addressed (d : Rev1.CoffeeData) (id : string) (c : Call)
    : Prop :=
  match c with
  | Download _ _ _ => False
  | Upload file mime _ =>
      In file (default [] (Rev1.photoUrls d)) /\ mime = "image/jpeg"
  | GenerateContent model _ _ => model = Legacy.MODEL
  | Unlink _ _ => False
  | Update collection docId _ _ => collection = "coffee" /\ docId = id
  end.

(** ** More sample worlds and events *)

Module Scenario.

(** No key, and the datastore turns every write down. *)
Definition datastore_down : World :=
  Sample.world None (UploadThrows (Js.ThrownError "unreachable"))
    (GenerateThrows (Js.ThrownError "unreachable"))
    (fun _ => Some (Js.ThrownError "UNAVAILABLE")).

(** The key is there, the datastore turns every write down. *)
Definition writes_refused : World :=
  Sample.world (Some "key")
    (Uploaded (Some "https://ai.example/files/1") (Some "image/jpeg"))
    (Generated (Some "fal")) (fun _ => Some (Js.ThrownError "UNAVAILABLE")).

(** The model answers with an error. *)
Definition quota_exceeded : World :=
  Sample.world (Some "key")
    (Uploaded (Some "https://ai.example/files/1") (Some "image/jpeg"))
    (GenerateThrows (Js.ThrownError "429 quota")) Sample.accepts.

(** An event whose snapshot is missing. *)
Definition no_snapshot : Event := {| data := None; docId := "doc0" |}.

(** The record of the first README, with photo URLs. *)
Definition ahmet_urls : Rev1.CoffeeData :=
  {| Rev1.userName := Some "Ahmet";
     Rev1.userBirthday := Some "1990-05-15";
     Rev1.userRelationStatus := Some "evli";
     Rev1.userEmploymentStatus := Some "mühendis";
     Rev1.photoUrls := Some ["https://example.com/coffee-cup-1.jpg";
                             "https://example.com/coffee-cup-2.jpg"];
     Rev1.result := Js.VUndefined |}.

Definition created1 (d : Rev1.CoffeeData) : Rev1.Event :=
  {| Rev1.data := Some d; Rev1.docId := "doc1" |}.

(** The datastore takes the [processing] marker and nothing else. *)
Definition accepts_marker_only (payload : list (string * Js.Value))
    : option Js.Thrown :=
  match field "status" payload with
  | Some (Js.VStr s) =>
      if String.eqb s "processing" then None
      else Some (Js.ThrownError "UNAVAILABLE")
  | _ => Some (Js.ThrownError "UNAVAILABLE")
  end.

Definition marker_only : World :=
  Sample.world (Some "key")
    (Uploaded (Some "https://ai.example/files/1") (Some "image/jpeg"))
    (Generated (Some "fal")) accepts_marker_only.

(** A record whose first photo reference is empty. *)
Definition blank_reference : CoffeeData :=
  Sample.person (Some "Ahmet") None None None
    (Some [""; "coffee-images/cup2.jpg"]) Js.VUndefined.

(** The clock advances by a second at every reading, and the datastore
    turns down the [completed] write. *)
Definition running_clock : World :=
  {| GEMINI_API_KEY := Some "key";
     tmpdir := "/tmp";
     bucket := None;
     dateNow := fun k => 1756377000000 + 1000 * Z.of_nat k;
     newDate := fun k =>
       {| JsDate.fullYear := 2025; JsDate.month := 7; JsDate.date := 28;
          JsDate.hours := 10; JsDate.minutes := 30;
          JsDate.seconds := Z.of_nat k; JsDate.milliseconds := 0 |};
     parseDate := Sample.parseIsoDate;
     download := fun _ _ _ => None;
     upload := fun _ _ _ =>
       Uploaded (Some "https://ai.example/files/1") (Some "image/jpeg");
     generateContent := fun _ _ _ => Generated (Some "fal");
     unlinkSync := fun _ _ => None;
     update := fun _ _ _ payload => Sample.rejects_completed payload |}.

(** A user whose name is the placeholder of the second revision. *)
Definition namesake : CoffeeData :=
  Sample.person (Some "kullanıcı") None (Some "evli") None None Js.VUndefined.

End Scenario.

(** ** Basic facts *)

Section Loops.

Context (W : World).

Lemma processPhoto_returns (p : string) (st : State) :
  fst (processPhoto W p st) = Normal tt.
Proof.
  unfold processPhoto, try_catch, bind, storage_bucket, bucket_file, Date_now,
    file_download, files_upload, push_contentPart, push_tempFile, log, ret;
    simpl.
  destruct (bucket W); simpl; [reflexivity |].
  destruct (String.eqb p ""); simpl; [reflexivity |].
  destruct (download W _ _ _); simpl; [reflexivity |].
  destruct (upload W _ _ _) as [e | uri mime]; simpl; [reflexivity |].
  destruct (Js.truthy_str uri && Js.truthy_str mime); reflexivity.
Qed.

Lemma processPhoto_materialized (p : string) (st : State) :
  materialized st (snd (processPhoto W p st)) (List.filter (has_handle W) [p]).
Proof.
  unfold materialized, has_handle, processPhoto, try_catch, bind,
    storage_bucket, bucket_file, Date_now, file_download, files_upload,
    push_contentPart, push_tempFile, log, ret; simpl.
  destruct (bucket W) as [e |]; simpl.
  { exists []. rewrite !app_nil_r. repeat split; reflexivity. }
  destruct (String.eqb p ""); simpl.
  { exists []. rewrite !app_nil_r. repeat split; reflexivity. }
  destruct (download W _ _ _) as [e |]; simpl.
  - eexists; split; [reflexivity |].
    repeat split; simpl; rewrite ?app_nil_r; reflexivity.
  - destruct (upload W _ _ _) as [e | uri mime]; simpl.
    + eexists; split; [rewrite <- app_assoc; reflexivity |].
      repeat split; simpl; rewrite ?app_nil_r; reflexivity.
    + destruct (Js.truthy_str uri && Js.truthy_str mime) eqn:Hp; simpl;
        (eexists; split; [rewrite <- app_assoc; reflexivity |];
         repeat split; simpl; rewrite ?Hp, ?app_nil_r; reflexivity).
Qed.

Lemma materialized_refl (st : State) : materialized st st [].
Proof. exists []. rewrite !app_nil_r. repeat split; reflexivity. Qed.

Lemma materialized_trans (st1 st2 st3 : State) (ps qs : list string) :
  materialized st1 st2 ps -> materialized st2 st3 qs ->
  materialized st1 st3 (ps ++ qs).
Proof.
  intros (js & Hj & Ht & Hd & Hu & Hc & Hf & Hr)
         (ks & Hj' & Ht' & Hd' & Hu' & Hc' & Hf' & Hr').
  exists (js ++ ks).
  unfold downloads, uploads, createdFiles, materializedParts, registeredFiles
    in *.
  rewrite !omap_app, forallb_app, Ht, Ht', Hd, Hd', Hu, Hu'.
  rewrite Hj', Hj, Hc', Hc, Hf', Hf, Hr', Hr, <- !app_assoc.
  repeat split; reflexivity.
Qed.

Lemma photo_loop_returns (paths : list string) (st : State) :
  fst (for_of paths (processPhoto W) st) = Normal tt.
Proof.
  revert st; induction paths as [| p paths IH]; intros st; simpl.
  - reflexivity.
  - unfold bind. pose proof (processPhoto_returns p st) as Hp.
    destruct (processPhoto W p st) as [c st1]; simpl in Hp; subst c.
    apply IH.
Qed.

Lemma photo_loop_materialized (paths : list string) (st : State) :
  materialized st (snd (for_of paths (processPhoto W) st))
    (List.filter (has_handle W) paths).
Proof.
  revert st; induction paths as [| p paths IH]; intros st.
  - exists []. simpl. rewrite !app_nil_r. repeat split; reflexivity.
  - change (p :: paths) with ([p] ++ paths) at 2. rewrite List.filter_app.
    cbn [for_of]. unfold bind.
    pose proof (processPhoto_returns p st) as Hp.
    pose proof (processPhoto_materialized p st) as Hm.
    destruct (processPhoto W p st) as [c st1]; simpl in Hp; subst c.
    eapply materialized_trans; [exact Hm | apply IH].
Qed.

Lemma materializePhotos_returns (paths : option (list string)) (st : State) :
  fst (materializePhotos W paths st) = Normal tt.
Proof.
  destruct paths as [paths |]; simpl; [| reflexivity].
  destruct (0 <? length paths)%nat; [apply photo_loop_returns | reflexivity].
Qed.

Lemma materializePhotos_materialized (paths : option (list string))
    (st : State) :
  materialized st (snd (materializePhotos W paths st))
    (List.filter (has_handle W) (default [] paths)).
Proof.
  destruct paths as [paths |]; simpl; [| apply materialized_refl].
  destruct paths as [| p paths]; [apply materialized_refl |].
  apply photo_loop_materialized.
Qed.

(** The clock is read once for every reference that gets a download. *)
Lemma processPhoto_ticks (p : string) (st : State) :
  ticks (snd (processPhoto W p st))
  = (ticks st + length (List.filter (has_handle W) [p]))%nat.
Proof.
  unfold has_handle, processPhoto, try_catch, bind, storage_bucket,
    bucket_file, Date_now, file_download, files_upload, push_contentPart,
    push_tempFile, log, ret; simpl.
  destruct (bucket W) as [e |]; simpl; [lia |].
  destruct (String.eqb p ""); simpl; [lia |].
  destruct (download W _ _ _) as [e |]; simpl; [lia |].
  destruct (upload W _ _ _) as [e | uri mime]; simpl; [lia |].
  destruct (Js.truthy_str uri && Js.truthy_str mime); simpl; lia.
Qed.

Lemma photo_loop_ticks (paths : list string) (st : State) :
  ticks (snd (for_of paths (processPhoto W) st))
  = (ticks st + length (List.filter (has_handle W) paths))%nat.
Proof.
  revert st; induction paths as [| p paths IH]; intros st.
  - simpl. lia.
  - change (p :: paths) with ([p] ++ paths) at 2.
    rewrite List.filter_app, length_app.
    cbn [for_of]. unfold bind.
    pose proof (processPhoto_returns p st) as Hp.
    pose proof (processPhoto_ticks p st) as Ht.
    destruct (processPhoto W p st) as [c st1]; simpl in Hp; subst c.
    cbn [snd] in Ht |- *. rewrite IH, Ht. lia.
Qed.

Lemma materializePhotos_ticks (paths : option (list string)) (st : State) :
  ticks (snd (materializePhotos W paths st))
  = (ticks st + length (List.filter (has_handle W) (default [] paths)))%nat.
Proof.
  destruct paths as [paths |]; simpl; [| lia].
  destruct paths as [| p paths]; [simpl; lia |].
  apply photo_loop_ticks.
Qed.

Lemma cleanup_loop (done : string) (files : list string) (st : State) :
  fst (for_of files (unlinkTurn W done) st) = Normal tt
  /\ exists us,
       journal (snd (for_of files (unlinkTurn W done) st)) = journal st ++ us
       /\ sweep us files
       /\ tempFiles (snd (for_of files (unlinkTurn W done) st)) = tempFiles st
       /\ contentParts (snd (for_of files (unlinkTurn W done) st))
          = contentParts st
       /\ ticks (snd (for_of files (unlinkTurn W done) st)) = ticks st
       /\ record (snd (for_of files (unlinkTurn W done) st)) = record st.
Proof.
  revert st; induction files as [| f files IH]; intros st; simpl.
  - split; [reflexivity |]. exists []. rewrite app_nil_r.
    repeat split; reflexivity.
  - unfold bind.
    assert (Hturn : exists o st1,
               unlinkTurn W done f st = (Normal tt, st1)
               /\ journal st1 = journal st ++ [Unlink f o]
               /\ tempFiles st1 = tempFiles st
               /\ contentParts st1 = contentParts st
               /\ ticks st1 = ticks st
               /\ record st1 = record st).
    { unfold unlinkTurn, try_catch, bind, fs_unlinkSync, log; simpl.
      destruct (unlinkSync W (journal st) f) as [e |]; simpl;
        do 2 eexists; repeat split; reflexivity. }
    destruct Hturn as (o & st1 & -> & Hj & Hf & Hc & Ht & Hr).
    destruct (IH st1) as (Hn & us & Hj' & (Hall & Hus) & Hf' & Hc' & Ht' & Hr').
    split; [exact Hn |].
    exists (Unlink f o :: us).
    rewrite Hj', Hj, Hf', Hf, Hc', Hc, Ht', Ht, Hr', Hr, <- app_assoc.
    repeat split; try reflexivity.
    + simpl. exact Hall.
    + unfold unlinks in *; simpl. f_equal. exact Hus.
Qed.

Lemma cleanupTempFiles_swept (done : string) (st : State) :
  fst (cleanupTempFiles W done st) = Normal tt
  /\ swept st (snd (cleanupTempFiles W done st)).
Proof.
  unfold cleanupTempFiles, bind, get_tempFiles.
  exact (cleanup_loop done (tempFiles st) st).
Qed.

End Loops.

(** ** Stepping through [try { ... } catch { ... }] *)

Lemma try_bind_normal {A B} (m : M A) (k : A -> M B)
    (h : Js.Thrown -> M B) (st st' : State) (a : A) :
  m st = (Normal a, st') ->
  try_catch (bind m k) h st = try_catch (k a) h st'.
Proof. intros H. unfold try_catch, bind. rewrite H. reflexivity. Qed.

Lemma try_bind_throw {A B} (m : M A) (k : A -> M B)
    (h : Js.Thrown -> M B) (st st' : State) (e : Js.Thrown) :
  m st = (Throw e, st') ->
  try_catch (bind m k) h st = h e st'.
Proof. intros H. unfold try_catch, bind. rewrite H. reflexivity. Qed.

Section Run.

Context (W : World).

Lemma computeUserAge_value (birthday : option string) (st : State) :
  computeUserAge W birthday st
  = (Normal (userAgeAt W (ticks st) birthday),
     if Js.truthy_str birthday then tick st else st).
Proof.
  unfold computeUserAge, userAgeAt.
  destruct (Js.truthy_str birthday); reflexivity.
Qed.

(** The catch block: one cleanup pass, then the error write. *)
Lemma catchBlock_ending (docId : string) (e : Js.Thrown) (st : State) :
  exists us now o,
    journal (snd (catchBlock W docId e st))
    = journal st ++ us
      ++ [Update "coffee" docId (errorPayload e (JsDate.toISOString now)) o]
    /\ sweep us (tempFiles st)
    /\ fst (catchBlock W docId e st) = of_outcome o
    /\ record (snd (catchBlock W docId e st))
       = settle o (errorPayload e (JsDate.toISOString now)) (record st)
    /\ now = newDate W (ticks st).
Proof.
  unfold catchBlock, bind, log; cbn beta iota.
  match goal with
  | |- context [cleanupTempFiles W ?d ?s] =>
      destruct (cleanupTempFiles_swept W d s)
        as (Hn & us & Hj & Hs & _ & _ & Htk & Hr);
      destruct (cleanupTempFiles W d s) as [c st1]
  end.
  simpl in Hn, Hj, Hs, Htk, Hr; subst c.
  unfold new_Date, doc_update; cbn beta iota zeta.
  exists us, (newDate W (ticks st1)).
  exists (update W (journal (tick st1)) "coffee" docId
            (errorPayload e (JsDate.toISOString (newDate W (ticks st1))))).
  simpl. rewrite Hj.
  destruct Hs as [Hall Hus].
  destruct (update W _ _ _ _); simpl;
    rewrite ?Hj, ?Hr, ?Htk, <- ?app_assoc; repeat split; auto.
Qed.

(** The try block from the generation call on, once the call has returned. *)
Lemma after_generation (docId prompt : string) (text : option string)
    (st : State) :
  let rest :=
    (log LInfo ("Gemini response received for document: " +:+ docId) ;;
     cleanupTempFiles W "Cleaned up temporary file: " ;;
     now <- new_Date W ;;
     doc_update W "coffee" docId
       (completedPayload text prompt (JsDate.toISOString now)) ;;
     log LInfo ("Successfully updated document " +:+ docId
                +:+ " with Gemini result"))%js in
  exists tail,
    journal (snd (try_catch rest (catchBlock W docId) st)) = journal st ++ tail
    /\ Ending (newDate W) (ticks st) docId (tempFiles st) prompt (record st)
         (Generated text) tail
         (fst (try_catch rest (catchBlock W docId) st))
         (record (snd (try_catch rest (catchBlock W docId) st))).
Proof.
  intros rest; subst rest.
  erewrite try_bind_normal by reflexivity.
  match goal with
  | |- context [try_catch (bind (cleanupTempFiles W ?d) _) _ ?s] =>
      destruct (cleanupTempFiles_swept W d s)
        as (Hn & us & Hj & Hs & Hf & _ & Htk & Hr);
      destruct (cleanupTempFiles W d s) as [c st1] eqn:Hc
  end.
  simpl in Hn, Hj, Hs, Hf, Htk, Hr; subst c.
  erewrite (try_bind_normal _ _ _ _ _ _ Hc).
  erewrite try_bind_normal by reflexivity.
  set (payload := completedPayload text prompt
                    (JsDate.toISOString (newDate W (ticks st1)))).
  destruct (update W (journal (tick st1)) "coffee" docId payload)
    as [e |] eqn:Hu.
  - erewrite try_bind_throw
      by (unfold doc_update; cbn zeta; rewrite Hu; reflexivity).
    match goal with
    | |- context [catchBlock W docId e ?s] =>
        destruct (catchBlock_ending docId e s)
          as (us' & now' & o & Hj' & Hs' & Hn' & Hr' & Hnow')
    end.
    simpl in Hj', Hs', Hr', Hnow'. rewrite Hf in Hs'. rewrite Htk in Hnow'.
    exists (us ++ [Update "coffee" docId payload (Some e)]
               ++ us' ++ [Update "coffee" docId
                            (errorPayload e (JsDate.toISOString now')) o]).
    rewrite Hj', Hn', Hr', Hj, Hr, <- !app_assoc.
    split; [reflexivity |].
    apply write_rejected; try assumption. rewrite Htk; reflexivity.
  - erewrite try_bind_normal
      by (unfold doc_update; cbn zeta; rewrite Hu; reflexivity).
    unfold try_catch, log; simpl.
    exists (us ++ [Update "coffee" docId payload None]).
    rewrite Hj, Hr, <- !app_assoc.
    split; [reflexivity |].
    apply write_accepted; [assumption |]. rewrite Htk; reflexivity.
Qed.

(** The handler past the idempotency guard is the try/catch statement. *)
Lemma run_past_guard (event : Event) (d : CoffeeData)
    (doc : gmap string Js.Value) :
  data event = Some d -> Js.truthy (result d) = false ->
  run W event doc
  = try_catch (tryBlock W d (docId event)) (catchBlock W (docId event))
      (initial doc).
Proof.
  intros Hd Hr. unfold run, processCoffeeWithGemini. rewrite Hd, Hr.
  reflexivity.
Qed.

Lemma run_with_key (event : Event) (d : CoffeeData)
    (doc : gmap string Js.Value) :
  data event = Some d -> Js.truthy (result d) = false ->
  Js.truthy_str (GEMINI_API_KEY W) = true ->
  exists js g tail,
    journal (snd (run W event doc))
    = js ++ GenerateContent GEMINI_MODEL
              (materializedParts js ++ [PartText (promptFor W d)]) g :: tail
    /\ forallb is_transfer js = true
    /\ downloads js = List.filter (has_handle W) (default [] (photoPaths d))
    /\ uploads js = createdFiles js
    /\ Ending (newDate W)
         ((if Js.truthy_str (userBirthday d) then 1 else 0)
          + length (downloads js))%nat
         (docId event) (registeredFiles js) (promptFor W d) doc g tail
         (fst (run W event doc)) (record (snd (run W event doc))).
Proof.
  intros Hd Hr Hk. rewrite (run_past_guard _ _ _ Hd Hr).
  unfold tryBlock.
  erewrite try_bind_normal by reflexivity.
  rewrite Hk. cbv beta iota. simpl negb. cbv iota.
  erewrite try_bind_normal by reflexivity.
  erewrite try_bind_normal by apply computeUserAge_value.
  simpl (ticks _).
  match goal with
  | |- context [try_catch _ _ ?s] =>
      assert (Hst : journal s = [] /\ tempFiles s = [] /\ record s = doc
                    /\ ticks s
                       = (if Js.truthy_str (userBirthday d) then 1 else 0)%nat)
        by (destruct (Js.truthy_str (userBirthday d)); repeat split;
            reflexivity);
      destruct Hst as (Hj1 & Hf1 & Hr1 & Hk1);
      generalize dependent s; intros st1 Hj1 Hf1 Hr1 Hk1
  end.
  fold (promptFor W d).
  erewrite try_bind_normal by reflexivity.
  erewrite try_bind_normal by reflexivity.
  match goal with
  | |- context [try_catch (bind (materializePhotos W ?p) _) _ ?s] =>
      pose proof (materializePhotos_returns W p s) as Hn;
      pose proof (materializePhotos_ticks W p s) as Htk;
      destruct (materializePhotos_materialized W p s)
        as (js & Hj & Ht & Hdl & Hup & Hc & Hf & Hrec);
      destruct (materializePhotos W p s) as [c st2] eqn:Hloop
  end.
  simpl in Hn, Hj, Hc, Hf, Hrec. subst c.
  simpl (ticks _) in Htk. rewrite Hk1, <- Hdl in Htk.
  rewrite Hj1 in Hj. rewrite Hf1 in Hf. rewrite Hr1 in Hrec.
  simpl in Hj, Hf.
  erewrite (try_bind_normal _ _ _ _ _ _ Hloop).
  erewrite try_bind_normal by reflexivity.
  erewrite try_bind_normal by reflexivity.
  simpl (contentParts _).
  rewrite Hc. clear Hloop.
  match goal with
  | |- context [try_catch _ _ ?s] =>
      assert (Hj3 : journal s = js) by exact Hj;
      assert (Hf3 : tempFiles s = registeredFiles js) by exact Hf;
      assert (Hr3 : record s = doc) by exact Hrec;
      assert (Hk3 : ticks s
                    = ((if Js.truthy_str (userBirthday d) then 1 else 0)
                       + length (downloads js))%nat) by exact Htk;
      generalize dependent s; intros st3 Hj3 Hf3 Hr3 Hk3
  end.
  destruct (generateContent W (journal st3) GEMINI_MODEL
              (materializedParts js ++ [PartText (promptFor W d)]))
    as [e | text] eqn:Hg.
  - erewrite try_bind_throw
      by (unfold models_generateContent; cbn zeta; rewrite Hg; reflexivity).
    match goal with
    | |- context [catchBlock W _ e ?s] =>
        destruct (catchBlock_ending (docId event) e s)
          as (us & now & o & Hj' & Hs' & Hn' & Hr' & Hnow)
    end.
    simpl in Hj', Hs', Hr', Hnow. rewrite Hj3 in Hj'. rewrite Hf3 in Hs'.
    rewrite Hr3 in Hr'. rewrite Hk3 in Hnow.
    eexists js, _, _. rewrite Hj', Hn', Hr', <- app_assoc.
    split; [reflexivity |]. repeat (split; [assumption |]).
    apply generation_failed; assumption.
  - erewrite try_bind_normal
      by (unfold models_generateContent; cbn zeta; rewrite Hg; reflexivity).
    match goal with
    | |- context [try_catch _ _ ?s] =>
        destruct (after_generation (docId event) (promptFor W d) text s)
          as (tail & Hj' & Hend)
    end.
    simpl in Hj', Hend. rewrite Hj3 in Hj'. rewrite Hf3, Hr3, Hk3 in Hend.
    eexists js, _, tail. rewrite <- app_assoc in Hj'.
    split; [exact Hj' |]. repeat (split; [assumption |]).
    exact Hend.
Qed.

Lemma run_without_key (event : Event) (d : CoffeeData)
    (doc : gmap string Js.Value) :
  data event = Some d -> Js.truthy (result d) = false ->
  Js.truthy_str (GEMINI_API_KEY W) = false ->
  let payload :=
    errorPayload (Js.ThrownError "Gemini API key is not configured")
      (JsDate.toISOString (newDate W 0)) in
  let o := update W [] "coffee" (docId event) payload in
  journal (snd (run W event doc)) = [Update "coffee" (docId event) payload o]
  /\ fst (run W event doc) = of_outcome o
  /\ record (snd (run W event doc)) = settle o payload doc.
Proof.
  intros Hd Hr Hk. rewrite (run_past_guard _ _ _ Hd Hr).
  unfold tryBlock.
  erewrite try_bind_normal by reflexivity.
  rewrite Hk. cbv beta iota. simpl negb. cbv iota.
  erewrite try_bind_throw by reflexivity.
  unfold catchBlock, bind, log, cleanupTempFiles, get_tempFiles, new_Date,
    doc_update; simpl.
  destruct (update W _ _ _ _); simpl; repeat split; reflexivity.
Qed.

Lemma run_skips (event : Event) (d : CoffeeData) (doc : gmap string Js.Value) :
  data event = Some d -> Js.truthy (result d) = true ->
  run W event doc
  = (Normal tt,
     {| journal := []; logs := [(LInfo, "Document " +:+ docId event
                                         +:+ " already has a result, skipping")];
        ticks := 0%nat; tempFiles := []; contentParts := []; record := doc |}).
Proof.
  intros Hd Hr. unfold run, processCoffeeWithGemini. rewrite Hd, Hr.
  reflexivity.
Qed.

End Run.

(** ** Journal algebra *)

Lemma omap_nothing {A B} (p : A -> bool) (f : A -> option B) (l : list A) :
  (forall c, p c = true -> f c = None) ->
  forallb p l = true -> omap f l = [].
Proof.
  intros Hp. induction l as [| c l IH]; simpl; intros H; [reflexivity |].
  apply andb_true_iff in H as [Hc Hl].
  rewrite (Hp c Hc). apply IH, Hl.
Qed.

Lemma transfers_silent (js : list Call) :
  forallb is_transfer js = true ->
  unlinks js = [] /\ updates js = [] /\ generations js = [].
Proof.
  intros H. repeat split;
    (eapply omap_nothing; [| exact H]); intros [] ?; try discriminate;
    reflexivity.
Qed.

Lemma sweep_silent (us : list Call) (files : list string) :
  sweep us files ->
  updates us = [] /\ generations us = [] /\ downloads us = []
  /\ createdFiles us = [] /\ uploads us = [] /\ registeredFiles us = []
  /\ materializedParts us = [].
Proof.
  intros [H _]. repeat split;
    (eapply omap_nothing; [| exact H]); intros [] ?; try discriminate;
    reflexivity.
Qed.

(** A returned upload that contributes a part was an upload attempt. *)
Lemma no_uploads_no_parts (js : list Call) :
  uploads js = [] -> materializedParts js = [].
Proof.
  induction js as [| c js IH]; [reflexivity |].
  unfold uploads, materializedParts in *; simpl.
  destruct c; simpl; try exact IH. discriminate.
Qed.

Lemma materializedParts_are_uris (js : list Call) :
  forallb is_uri_part (materializedParts js) = true.
Proof.
  induction js as [| c js IH]; [reflexivity |].
  unfold materializedParts in *; simpl.
  destruct c as [| f m [e | uri mime] | | |]; simpl; try exact IH.
  destruct (Js.truthy_str uri && Js.truthy_str mime); simpl; exact IH.
Qed.

Lemma apply_update_completed (text : option string) (prompt at_ : string)
    (doc : gmap string Js.Value) :
  apply_update (completedPayload text prompt at_) doc !! "status"
  = Some (Js.VStr "completed").
Proof. unfold apply_update; simpl. apply lookup_insert_eq. Qed.

Lemma apply_update_error (e : Js.Thrown) (at_ : string)
    (doc : gmap string Js.Value) :
  apply_update (errorPayload e at_) doc !! "status" = Some (Js.VStr "error")
  /\ apply_update (errorPayload e at_) doc !! "result"
     = field "result" (errorPayload e at_).
Proof.
  unfold apply_update; simpl. split; [apply lookup_insert_eq |].
  rewrite lookup_insert_ne by discriminate. apply lookup_insert_eq.
Qed.

(** What a journal tail contributes, by the way the run ended. *)
Lemma ending_journal (clock : nat -> JsDate.Fields) (k : nat)
    (docId : string) (files : list string) (prompt : string)
    (doc doc' : gmap string Js.Value) (g : GenerateResult) (tail : list Call)
    (c : Completion unit) :
  Ending clock k docId files prompt doc g tail c doc' ->
  generations tail = [] /\ downloads tail = [] /\ createdFiles tail = []
  /\ uploads tail = [] /\ registeredFiles tail = []
  /\ materializedParts tail = []
  /\ (unlinks tail = files \/ unlinks tail = files ++ files).
Proof.
  intros H; destruct H as [e us now o Hs | text us now Hs
                          | text us now e us' now' o Hs Hs'];
    pose proof (sweep_silent _ _ Hs) as (_ & Hg & Hd & Hc & Hu & Hr & Hm);
    try pose proof (sweep_silent _ _ Hs') as (_ & Hg' & Hd' & Hc' & Hu' & Hr' & Hm');
    try destruct Hs' as [_ Hus']; destruct Hs as [_ Hus];
    unfold generations, downloads, createdFiles, uploads, registeredFiles,
      materializedParts, unlinks in *;
    rewrite !omap_app; simpl;
    rewrite ?Hg, ?Hd, ?Hc, ?Hu, ?Hr, ?Hm, ?Hg', ?Hd', ?Hc', ?Hu', ?Hr', ?Hm',
      ?Hus, ?Hus', ?app_nil_r;
    repeat split; auto.
Qed.

Lemma ending_updates (clock : nat -> JsDate.Fields) (k : nat)
    (docId : string) (files : list string) (prompt : string)
    (doc doc' : gmap string Js.Value) (g : GenerateResult) (tail : list Call)
    (c : Completion unit) :
  Ending clock k docId files prompt doc g tail c doc' ->
  match g with
  | GenerateThrows e =>
      exists now o,
        updates tail = [(errorPayload e (JsDate.toISOString now), o)]
        /\ c = of_outcome o
        /\ doc' = settle o (errorPayload e (JsDate.toISOString now)) doc
  | Generated text =>
      exists now,
        (updates tail
         = [(completedPayload text prompt (JsDate.toISOString now), None)]
         /\ c = Normal tt
         /\ doc' = apply_update
                     (completedPayload text prompt (JsDate.toISOString now)) doc)
        \/ (exists e now' o,
              updates tail
              = [(completedPayload text prompt (JsDate.toISOString now), Some e);
                 (errorPayload e (JsDate.toISOString now'), o)]
              /\ c = of_outcome o
              /\ doc' = settle o (errorPayload e (JsDate.toISOString now')) doc)
  end.
Proof.
  intros H; destruct H as [e us now o Hs | text us now Hs
                          | text us now e us' now' o Hs Hs'];
    pose proof (sweep_silent _ _ Hs) as (Hu & _);
    try pose proof (sweep_silent _ _ Hs') as (Hu' & _);
    unfold updates in *.
  - exists now, o. rewrite omap_app, Hu. repeat split; reflexivity.
  - exists now. left. rewrite omap_app, Hu. repeat split; reflexivity.
  - exists now. right. exists e, now', o.
    rewrite !omap_app, Hu, Hu'. repeat split; reflexivity.
Qed.

(** The same, with the clock readings that stamp the writes. *)
Lemma ending_updates_at (clock : nat -> JsDate.Fields) (k : nat)
    (docId : string) (files : list string) (prompt : string)
    (doc doc' : gmap string Js.Value) (g : GenerateResult) (tail : list Call)
    (c : Completion unit) :
  Ending clock k docId files prompt doc g tail c doc' ->
  match g with
  | GenerateThrows e =>
      exists o,
        updates tail = [(errorPayload e (JsDate.toISOString (clock k)), o)]
        /\ c = of_outcome o
        /\ doc' = settle o (errorPayload e (JsDate.toISOString (clock k))) doc
  | Generated text =>
      (updates tail
       = [(completedPayload text prompt (JsDate.toISOString (clock k)), None)]
       /\ c = Normal tt
       /\ doc' = apply_update
                   (completedPayload text prompt
                      (JsDate.toISOString (clock k))) doc)
      \/ (exists e o,
            updates tail
            = [(completedPayload text prompt (JsDate.toISOString (clock k)),
                Some e);
               (errorPayload e (JsDate.toISOString (clock (S k))), o)]
            /\ c = of_outcome o
            /\ doc' = settle o
                        (errorPayload e (JsDate.toISOString (clock (S k))))
                        doc)
  end.
Proof.
  intros H; destruct H as [e us now o Hs Hn | text us now Hs Hn
                          | text us now e us' now' o Hs Hs' Hn Hn'];
    subst;
    pose proof (sweep_silent _ _ Hs) as (Hu & _);
    try pose proof (sweep_silent _ _ Hs') as (Hu' & _);
    unfold updates in *.
  - exists o. rewrite omap_app, Hu. repeat split; reflexivity.
  - left. rewrite omap_app, Hu. repeat split; reflexivity.
  - right. exists e, o.
    rewrite !omap_app, Hu, Hu'. repeat split; reflexivity.
Qed.

Lemma completed_write_rejected_app (j j' : list Call) :
  completed_write_rejected (j ++ j')
  = completed_write_rejected j || completed_write_rejected j'.
Proof. apply existsb_app. Qed.

Lemma no_write_no_rejection (p : Call -> bool) (j : list Call) :
  (forall c, p c = true -> is_rejected_completion c = false) ->
  forallb p j = true -> completed_write_rejected j = false.
Proof.
  intros Hp. induction j as [| c j IH]; simpl; intros H; [reflexivity |].
  apply andb_true_iff in H as [Hc Hj].
  rewrite (Hp c Hc). apply IH, Hj.
Qed.

Lemma transfers_no_rejection (js : list Call) :
  forallb is_transfer js = true -> completed_write_rejected js = false.
Proof.
  apply no_write_no_rejection. intros [] ?; try discriminate; reflexivity.
Qed.

Lemma sweep_no_rejection (us : list Call) (files : list string) :
  sweep us files -> completed_write_rejected us = false.
Proof.
  intros [H _]. revert H.
  apply no_write_no_rejection. intros [] ?; try discriminate; reflexivity.
Qed.

(** The cleanup runs once, and a second time exactly when the [completed]
    write was turned down. *)
Lemma ending_sweeps (clock : nat -> JsDate.Fields) (k : nat)
    (docId : string) (files : list string) (prompt : string)
    (doc doc' : gmap string Js.Value) (g : GenerateResult) (tail : list Call)
    (c : Completion unit) :
  Ending clock k docId files prompt doc g tail c doc' ->
  unlinks tail
  = if completed_write_rejected tail then files ++ files else files.
Proof.
  intros H; destruct H as [e us now o Hs | text us now Hs
                          | text us now e us' now' o Hs Hs'];
    rewrite ?completed_write_rejected_app, ?(sweep_no_rejection _ _ Hs),
      ?(sweep_no_rejection _ _ Hs');
    unfold unlinks; rewrite ?omap_app;
    try destruct Hs' as [_ Hus']; destruct Hs as [_ Hus];
    unfold unlinks in Hus |- *; try unfold unlinks in Hus';
    rewrite ?Hus, ?Hus'.
  - destruct o; simpl; rewrite app_nil_r; reflexivity.
  - simpl. rewrite app_nil_r. reflexivity.
  - simpl. rewrite !app_nil_r. reflexivity.
Qed.

Lemma ending_terminal (clock : nat -> JsDate.Fields) (k : nat)
    (docId : string) (files : list string) (prompt : string)
    (doc doc' : gmap string Js.Value) (g : GenerateResult) (tail : list Call)
    (c : Completion unit) :
  Ending clock k docId files prompt doc g tail c doc' ->
  exists payload o,
    last tail = Some (Update "coffee" docId payload o)
    /\ (field "status" payload = Some (Js.VStr "completed")
        \/ field "status" payload = Some (Js.VStr "error"))
    /\ (o = None -> c = Normal tt /\ terminal doc').
Proof.
  intros H; destruct H as [e us now o Hs | text us now Hs
                          | text us now e us' now' o Hs Hs'].
  - eexists _, o. rewrite last_snoc. split; [reflexivity |].
    split; [right; reflexivity |].
    intros ->. split; [reflexivity |]. right. apply apply_update_error.
  - eexists _, None. rewrite last_snoc. split; [reflexivity |].
    split; [left; reflexivity |].
    intros _. split; [reflexivity |]. left. apply apply_update_completed.
  - eexists _, o. rewrite !app_assoc, last_snoc. split; [reflexivity |].
    split; [right; reflexivity |].
    intros ->. split; [reflexivity |]. right. apply apply_update_error.
Qed.

Lemma omap_middle {A B} (f : A -> option B) (l : list A) (c : A)
    (r : list A) :
  omap f (l ++ c :: r) = omap f l ++ omap f [c] ++ omap f r.
Proof. rewrite omap_app. simpl. destruct (f c); reflexivity. Qed.

Section Observed.
Context (W : World).

Lemma run_observed (event : Event) (d : CoffeeData)
    (doc : gmap string Js.Value) :
  data event = Some d -> Js.truthy (result d) = false ->
  Js.truthy_str (GEMINI_API_KEY W) = true ->
  exists js g tail,
    journal (snd (run W event doc))
    = js ++ GenerateContent GEMINI_MODEL
              (materializedParts js ++ [PartText (promptFor W d)]) g :: tail
    /\ materializedParts (journal (snd (run W event doc))) = materializedParts js
    /\ registeredFiles (journal (snd (run W event doc))) = registeredFiles js
    /\ downloads (journal (snd (run W event doc)))
       = List.filter (has_handle W) (default [] (photoPaths d))
    /\ uploads (journal (snd (run W event doc)))
       = createdFiles (journal (snd (run W event doc)))
    /\ generations (journal (snd (run W event doc)))
       = [(GEMINI_MODEL,
           materializedParts js ++ [PartText (promptFor W d)], g)]
    /\ updates (journal (snd (run W event doc))) = updates tail
    /\ unlinks (journal (snd (run W event doc))) = unlinks tail
    /\ Ending (newDate W)
         ((if Js.truthy_str (userBirthday d) then 1 else 0)
          + length (downloads (journal (snd (run W event doc)))))%nat
         (docId event) (registeredFiles js) (promptFor W d) doc g tail
         (fst (run W event doc)) (record (snd (run W event doc))).
Proof.
  intros Hd Hr Hk.
  destruct (run_with_key W event d doc Hd Hr Hk)
    as (js & g & tail & Hj & Ht & Hdl & Hup & Hend).
  exists js, g, tail. split; [exact Hj |].
  destruct (transfers_silent js Ht) as (Hun & Hupd & Hgen).
  destruct (ending_journal _ _ _ _ _ _ _ _ _ _ Hend)
    as (Hg' & Hd' & Hc' & Hu' & Hr' & Hm' & _).
  rewrite Hj.
  unfold materializedParts, registeredFiles, downloads, uploads, createdFiles,
    generations, updates, unlinks in *.
  rewrite !omap_middle.
  rewrite Hun, Hupd, Hgen, Hg', Hd', Hc', Hu', Hr', Hm', Hdl, Hup.
  simpl. rewrite !app_nil_r.
  repeat split; try reflexivity. rewrite Hdl in Hend. exact Hend.
Qed.

End Observed.

(** ** Prompt composition *)

Lemma composePrompt_normalized (n : option string) (a : option Js.Num)
    (r e : option string) :
  composePrompt n a r e = PromptSpec.prompt (PromptSpec.normalize n a r e).
Proof.
  unfold composePrompt, promptChunks, PromptSpec.prompt, PromptSpec.clauses,
    PromptSpec.normalize, PromptSpec.present, PromptSpec.meaningful_age,
    age_given, Js.gt, Js.lt, Js.truthy_str.
  destruct n as [n |]; [destruct (String.eqb n "") |];
    (destruct r as [r |]; [destruct (String.eqb r "") |]);
    (destruct e as [e |]; [destruct (String.eqb e "") |]);
    (destruct a as [[| z] |]; [| destruct (0 <? z) |]);
    reflexivity.
Qed.

Lemma promptFor_normalized (W : World) (d : CoffeeData) :
  promptFor W d = PromptSpec.prompt (normalizedAttributes W d).
Proof. apply composePrompt_normalized. Qed.

Lemma ageAsOf_rule (now birth : JsDate.Fields) :
  ageAsOf (JsDate.Valid now) (JsDate.Valid birth)
  = Js.Int (PromptSpec.age_rule now birth).
Proof.
  unfold ageAsOf, PromptSpec.age_rule, PromptSpec.precedes; simpl.
  destruct (Z.ltb_spec (JsDate.month now - JsDate.month birth) 0),
    (Z.eqb_spec (JsDate.month now - JsDate.month birth) 0),
    (Z.compare_spec (JsDate.month now) (JsDate.month birth)),
    (Z.ltb_spec (JsDate.date now) (JsDate.date birth));
    simpl; try lia; f_equal; lia.
Qed.

Lemma ageAsOf_invalid (today : JsDate.t) :
  ageAsOf today JsDate.Invalid = Js.NaN.
Proof. unfold ageAsOf. destruct today; reflexivity. Qed.

Lemma text_parts_of_materialized (js : list Call) :
  omap text_part (materializedParts js) = [].
Proof.
  apply (omap_nothing is_uri_part).
  - intros [] ?; [reflexivity | discriminate].
  - apply materializedParts_are_uris.
Qed.

Section Prompts.
Context (W : World).

Lemma promptsSent_with_key (event : Event) (d : CoffeeData)
    (doc : gmap string Js.Value) :
  data event = Some d -> Js.truthy (result d) = false ->
  Js.truthy_str (GEMINI_API_KEY W) = true ->
  promptsSent (journal (snd (run W event doc))) = [promptFor W d].
Proof.
  intros Hd Hr Hk.
  destruct (run_observed W event d doc Hd Hr Hk)
    as (js & g & tail & _ & _ & _ & _ & _ & Hg & _).
  unfold promptsSent. rewrite Hg. simpl.
  rewrite omap_app, text_parts_of_materialized. reflexivity.
Qed.

Lemma promptsSent_only (event : Event) (d : CoffeeData)
    (doc : gmap string Js.Value) (p : string) :
  data event = Some d ->
  In p (promptsSent (journal (snd (run W event doc)))) ->
  p = promptFor W d.
Proof.
  intros Hd Hin.
  destruct (Js.truthy (result d)) eqn:Hr.
  - rewrite (run_skips W event d doc Hd Hr) in Hin. destruct Hin.
  - destruct (Js.truthy_str (GEMINI_API_KEY W)) eqn:Hk.
    + rewrite (promptsSent_with_key event d doc Hd Hr Hk) in Hin.
      destruct Hin as [<- | []]. reflexivity.
    + destruct (run_without_key W event d doc Hd Hr Hk) as (Hj & _).
      rewrite Hj in Hin. destruct Hin.
Qed.

End Prompts.

(** ** The claims *)

(** C1.  Idempotency guard: when the record data of the triggering event
    already carries a result that JavaScript counts as present (any non-empty
    string, any object such as the error payload), the handler returns
    normally with an empty journal: no storage download, no AI upload, no
    generation call, no unlink and no datastore update; the stored record is
    unchanged and not even the clock is read. *)
Theorem skip_when_result_present (W : World) (event : Event) (d : CoffeeData)
    (doc : gmap string Js.Value) :
  data event = Some d ->
  Js.truthy (result d) = true ->
  fst (run W event doc) = Normal tt
  /\ journal (snd (run W event doc)) = []
  /\ record (snd (run W event doc)) = doc
  /\ ticks (snd (run W event doc)) = 0%nat.
Proof.
  intros Hd Hr. rewrite (run_skips W event d doc Hd Hr).
  repeat split; reflexivity.
Qed.

Lemma skip_when_result_present_witness :
  Js.truthy (result Sample.already_done) = true
  /\ fst (run Sample.calm (Sample.created Sample.already_done) ∅) = Normal tt
  /\ journal (snd (run Sample.calm (Sample.created Sample.already_done) ∅)) = []
  /\ record (snd (run Sample.calm (Sample.created Sample.already_done) ∅)) = ∅
  /\ ticks (snd (run Sample.calm (Sample.created Sample.already_done) ∅))
     = 0%nat.
Proof.
  split; [reflexivity |].
  apply (skip_when_result_present Sample.calm
           (Sample.created Sample.already_done) Sample.already_done ∅);
    reflexivity.
Defined.

(** C2.  Degraded asset handling: whatever happens to the individual
    references, every failure stays inside the turn of its reference.  A
    reference for which no file handle can be made (no bucket, or an empty
    name) is skipped before anything is called; every other reference of the
    list gets a download attempt, in order; a registration is attempted
    exactly for the files that were staged; and the handler goes on to a
    single generation call whose parts are the parts of the references that
    materialised followed by the prompt text (the prompt alone when nothing
    was staged).  When that call returns, the write that follows is the
    [completed] one, and once the datastore accepts it the record is
    [completed]: no asset failure puts the record in the error state. *)
Theorem photo_failures_are_skipped (W : World) (event : Event)
    (d : CoffeeData) (doc : gmap string Js.Value) (paths : list string) :
  data event = Some d ->
  Js.truthy (result d) = false ->
  Js.truthy_str (GEMINI_API_KEY W) = true ->
  photoPaths d = Some paths ->
  let r := run W event doc in
  let j := journal (snd r) in
  downloads j
  = List.filter
      (fun photoPath =>
         match bucket W with
         | Some _ => false
         | None => negb (String.eqb photoPath "")
         end) paths
  /\ uploads j = createdFiles j
  /\ (createdFiles j = [] -> materializedParts j = [])
  /\ exists g,
       generations j
       = [(GEMINI_MODEL, materializedParts j ++ [PartText (promptFor W d)], g)]
       /\ forall text,
            g = Generated text ->
            exists now o rest,
              updates j
              = (completedPayload text (promptFor W d)
                   (JsDate.toISOString now), o) :: rest
              /\ (o = None ->
                  rest = [] /\ fst r = Normal tt
                  /\ record (snd r) !! "status" = Some (Js.VStr "completed")).
Proof.
  intros Hd Hr Hk Hp r j; subst r j.
  destruct (run_observed W event d doc Hd Hr Hk)
    as (js & g & tail & _ & Hm & _ & Hdl & Hup & Hg & Hupd & _ & Hend).
  rewrite Hdl, Hp, Hup, Hg, Hupd, Hm.
  split; [reflexivity |]. split; [reflexivity |].
  split.
  { intros Hc. rewrite <- Hm. apply no_uploads_no_parts.
    rewrite Hup. exact Hc. }
  exists g. split; [reflexivity |].
  intros text ->.
  destruct (ending_updates _ _ _ _ _ _ _ _ _ _ Hend)
    as (now & [(Hu & Hc & Hdoc) | (e & now' & o & Hu & Hc & Hdoc)]).
  - exists now, None, []. split; [exact Hu |].
    intros _. rewrite Hdoc. repeat split; try assumption.
    apply apply_update_completed.
  - exists now, (Some e), [(errorPayload e (JsDate.toISOString now'), o)].
    split; [exact Hu |]. discriminate.
Qed.

Lemma photo_failures_are_skipped_witness :
  let r := run Sample.tomorrow (Sample.created Scenario.blank_reference) ∅ in
  let j := journal (snd r) in
  downloads j = ["coffee-images/cup2.jpg"]
  /\ uploads j = createdFiles j
  /\ (createdFiles j = [] -> materializedParts j = [])
  /\ exists g,
       generations j
       = [(GEMINI_MODEL,
           materializedParts j
           ++ [PartText (promptFor Sample.tomorrow Scenario.blank_reference)],
           g)]
       /\ forall text,
            g = Generated text ->
            exists now o rest,
              updates j
              = (completedPayload text
                   (promptFor Sample.tomorrow Scenario.blank_reference)
                   (JsDate.toISOString now), o) :: rest
              /\ (o = None ->
                  rest = [] /\ fst r = Normal tt
                  /\ record (snd r) !! "status" = Some (Js.VStr "completed")).
Proof.
  apply (photo_failures_are_skipped Sample.tomorrow
           (Sample.created Scenario.blank_reference)
           Scenario.blank_reference ∅ [""; "coffee-images/cup2.jpg"]);
    reflexivity.
Defined.

(** C3.  Terminal write: every run that gets past the guard issues its
    terminal write as one [update] call, and the payloads are the ones spelled
    out below.  Either the generation call returned [text] and the one update
    of the run carries [result = text], [ai = {promptText, processedAt,
    source}] and [status = "completed"], is accepted, and the handler returns;
    or the run failed with some [e] and its last update carries
    [result = {error, errorDetails, processedAt, source}] with
    [status = "error"], where [e] is the missing key, what the generation call
    threw, or what the datastore answered to the [completed] write (the only
    case with a second update in the journal).  [promptText] is the prompt of
    the record, [source] the model, and [processedAt] the ISO rendering of the
    clock reading taken for the write: the clock has been read before it once
    for the age, when the record has a birthday, and once for each download.
    No update ever writes [status = "processing"]. *)
Theorem terminal_write_is_one_update (W : World) (event : Event)
    (d : CoffeeData) (doc : gmap string Js.Value) :
  data event = Some d ->
  Js.truthy (result d) = false ->
  let r := run W event doc in
  let j := journal (snd r) in
  let read (k : nat) := Js.VStr (JsDate.toISOString (newDate W k)) in
  let completed (text : option string) (k : nat) :=
    [ ("result", match text with
                 | Some s => Js.VStr s
                 | None => Js.VUndefined
                 end);
      ("ai", Js.VObj [ ("promptText", Js.VStr (promptFor W d));
                       ("processedAt", read k);
                       ("source", Js.VStr "gemini-2.5-flash") ]);
      ("status", Js.VStr "completed") ] in
  let failed (e : Js.Thrown) (k : nat) :=
    [ ("result",
       Js.VObj [ ("error", Js.VStr "Failed to process with Gemini AI");
                 ("errorDetails", Js.VStr match e with
                                          | Js.ThrownError message => message
                                          | Js.ThrownOther rendered => rendered
                                          end);
                 ("processedAt", read k);
                 ("source", Js.VStr "gemini-2.5-flash") ]);
      ("status", Js.VStr "error") ] in
  let k := ((if Js.truthy_str (userBirthday d) then 1 else 0)
            + length (downloads j))%nat in
  ((exists parts text,
      generations j
      = [(GEMINI_MODEL, parts ++ [PartText (promptFor W d)], Generated text)]
      /\ updates j = [(completed text k, None)]
      /\ fst r = Normal tt
      /\ record (snd r) = apply_update (completed text k) doc)
   \/ (exists e k' o rejected,
         updates j = rejected ++ [(failed e k', o)]
         /\ fst r = of_outcome o
         /\ record (snd r) = settle o (failed e k') doc
         /\ ((rejected = [] /\ generations j = [] /\ k' = 0%nat
              /\ Js.truthy_str (GEMINI_API_KEY W) = false
              /\ e = Js.ThrownError "Gemini API key is not configured")
             \/ (rejected = [] /\ k' = k
                 /\ exists parts,
                      generations j = [(GEMINI_MODEL, parts, GenerateThrows e)])
             \/ (exists parts text,
                   rejected = [(completed text k, Some e)] /\ k' = S k
                   /\ generations j
                      = [(GEMINI_MODEL, parts, Generated text)]))))
  /\ Forall (fun u => field "status" (fst u) <> Some (Js.VStr "processing"))
       (updates j).
Proof.
  intros Hd Hr r j read completed failed k; subst r j.
  destruct (Js.truthy_str (GEMINI_API_KEY W)) eqn:Hk.
  - destruct (run_observed W event d doc Hd Hr Hk)
      as (js & g & tail & _ & _ & _ & _ & _ & Hg & Hupd & _ & Hend).
    fold k in Hend. clearbody k.
    rewrite Hg, Hupd.
    pose proof (ending_updates_at _ _ _ _ _ _ _ _ _ _ Hend) as Hu.
    destruct g as [e | text].
    + destruct Hu as (o & -> & Hc & Hdoc). split.
      * right. exists e, k, o, []. repeat split; try assumption.
        right; left. repeat split. eexists; reflexivity.
      * repeat constructor; discriminate.
    + destruct Hu as [(-> & Hc & Hdoc) | (e & o & -> & Hc & Hdoc)].
      * split.
        -- left. eexists _, text. repeat split; try assumption.
        -- repeat constructor; discriminate.
      * split.
        -- right. exists e, (S k), o. eexists [_].
           repeat split; try assumption.
           right; right. eexists _, text. repeat split; reflexivity.
        -- repeat constructor; discriminate.
  - destruct (run_without_key W event d doc Hd Hr Hk) as (Hj & Hc & Hdoc).
    rewrite Hj. split.
    + right.
      eexists (Js.ThrownError "Gemini API key is not configured"), 0%nat, _, [].
      repeat split; try eassumption.
      left. repeat split; reflexivity.
    + repeat constructor; discriminate.
Qed.

Lemma terminal_write_is_one_update_witness :
  let r := run Scenario.running_clock (Sample.created Sample.ahmet) ∅ in
  let j := journal (snd r) in
  let completed :=
    [ ("result", Js.VStr "fal");
      ("ai", Js.VObj [ ("promptText",
                        Js.VStr ("ismim Ahmet, yasim 35, medeni durumum evli, "
                                 +:+ "iş durumum mühendis kahve falımı yorumla."
                                 +:+ " Dil Türkçe olsun."));
                       ("processedAt", Js.VStr "2025-08-28T10:30:03.000Z");
                       ("source", Js.VStr "gemini-2.5-flash") ]);
      ("status", Js.VStr "completed") ] in
  let failed :=
    [ ("result",
       Js.VObj [ ("error", Js.VStr "Failed to process with Gemini AI");
                 ("errorDetails", Js.VStr "UNAVAILABLE");
                 ("processedAt", Js.VStr "2025-08-28T10:30:04.000Z");
                 ("source", Js.VStr "gemini-2.5-flash") ]);
      ("status", Js.VStr "error") ] in
  updates j = [(completed, Some (Js.ThrownError "UNAVAILABLE")); (failed, None)]
  /\ fst r = Normal tt
  /\ record (snd r) = apply_update failed ∅
  /\ Forall (fun u => field "status" (fst u) <> Some (Js.VStr "processing"))
       (updates j).
Proof.
  pose proof (terminal_write_is_one_update Scenario.running_clock
                (Sample.created Sample.ahmet) Sample.ahmet ∅
                eq_refl eq_refl) as [_ Hnever].
  repeat split; try (vm_compute; reflexivity). exact Hnever.
Defined.

(** C4 (the code departs from the claim).  Storage serves the one photo of the
    record and the AI service refuses its registration: the download has
    created a transient file, yet the run, which completes, makes no deletion
    attempt, because the path is pushed onto [tempFiles] only after the upload
    has returned.  And when the datastore turns down the [completed] write,
    the cleanup loop runs a second time in the catch block: two deletion
    attempts for the one file. *)
Theorem cleanup_misses_unregistered_file :
  (let r := run Sample.upload_refused (Sample.created Sample.one_photo) ∅ in
   createdFiles (journal (snd r)) = ["/tmp/temp_1756377000000_cup1.jpg"]
   /\ unlinks (journal (snd r)) = []
   /\ fst r = Normal tt
   /\ record (snd r) !! "status" = Some (Js.VStr "completed"))
  /\ (let r := run Sample.write_rejected (Sample.created Sample.one_photo) ∅ in
      createdFiles (journal (snd r)) = ["/tmp/temp_1756377000000_cup1.jpg"]
      /\ unlinks (journal (snd r))
         = ["/tmp/temp_1756377000000_cup1.jpg";
            "/tmp/temp_1756377000000_cup1.jpg"]).
Proof. repeat split; vm_compute; reflexivity. Qed.

(** X5.  What the cleanup does cover: the files whose registration returned
    get one deletion attempt each, in order; the whole pass is made a second
    time exactly when the journal holds a [completed] write that the datastore
    turned down, and never otherwise; and registration is attempted exactly
    for the files that were created. *)
Theorem cleanup_covers_registered (W : World) (event : Event) (d : CoffeeData)
    (doc : gmap string Js.Value) :
  data event = Some d ->
  Js.truthy (result d) = false ->
  Js.truthy_str (GEMINI_API_KEY W) = true ->
  let j := journal (snd (run W event doc)) in
  unlinks j
  = (if completed_write_rejected j
     then registeredFiles j ++ registeredFiles j
     else registeredFiles j)
  /\ uploads j = createdFiles j.
Proof.
  intros Hd Hr Hk j; subst j.
  split; [| destruct (run_observed W event d doc Hd Hr Hk)
              as (js & g & tail & _ & _ & _ & _ & Hup & _); exact Hup].
  destruct (run_with_key W event d doc Hd Hr Hk)
    as (js & g & tail & Hj & Ht & _ & _ & Hend).
  destruct (transfers_silent js Ht) as (Hun & _ & _).
  destruct (ending_journal _ _ _ _ _ _ _ _ _ _ Hend)
    as (_ & _ & _ & _ & Hreg & _ & _).
  rewrite Hj.
  change (GenerateContent GEMINI_MODEL
            (materializedParts js ++ [PartText (promptFor W d)]) g :: tail)
    with ([GenerateContent GEMINI_MODEL
             (materializedParts js ++ [PartText (promptFor W d)]) g] ++ tail).
  rewrite !completed_write_rejected_app, (transfers_no_rejection js Ht).
  unfold unlinks, registeredFiles in *.
  rewrite !omap_app, Hun, Hreg, app_nil_r.
  exact (ending_sweeps _ _ _ _ _ _ _ _ _ _ Hend).
Qed.

(** C5.  Age derivation: for a birthday string that is present, [userAge] is
    the year difference, less one exactly when (month, day) of today precedes
    (month, day) of the birthday, whenever the string parses, and [NaN] when it
    does not.  Born 1990-05-15, on 2025-08-28 the age is 35 and the prompt says
    so; born 2025-08-29 the age is -1 and, like every age that is not above
    zero, it adds no clause to the prompt. *)
Theorem age_follows_calendar_rule :
  (forall (W : World) (s : string) (st : State),
      fst (computeUserAge W (Some s) st)
      = Normal (if String.eqb s "" then None
                else Some match parseDate W s with
                          | JsDate.Valid birth =>
                              Js.Int (PromptSpec.age_rule
                                        (newDate W (ticks st)) birth)
                          | JsDate.Invalid => Js.NaN
                          end))
  /\ userAgeAt Sample.calm 0 (Some "1990-05-15") = Some (Js.Int 35)
  /\ promptsSent (journal (snd (run Sample.calm
                                  (Sample.created (Sample.born "1990-05-15")) ∅)))
     = ["yasim 35 kahve falımı yorumla. Dil Türkçe olsun."]
  /\ userAgeAt Sample.calm 0 (Some "2025-08-29") = Some (Js.Int (-1))
  /\ promptsSent (journal (snd (run Sample.calm
                                  (Sample.created (Sample.born "2025-08-29")) ∅)))
     = ["Kahve falımı yorumla. Dil Türkçe olsun."]
  /\ (forall (z : Z) (n r e : option string),
        promptChunks n (Some (Js.Int z)) r e
        = promptChunks n (if 0 <? z then Some (Js.Int z) else None) r e).
Proof.
  split.
  { intros W s st. rewrite computeUserAge_value. unfold userAgeAt; simpl.
    destruct (String.eqb s ""); simpl; [reflexivity |].
    destruct (parseDate W s) as [| birth].
    - rewrite ageAsOf_invalid. reflexivity.
    - rewrite ageAsOf_rule. reflexivity. }
  repeat split; try (vm_compute; reflexivity).
  intros z n r e. unfold promptChunks, age_given, Js.gt, Js.lt.
  destruct (0 <? z) eqn:Hz; rewrite ?Hz; reflexivity.
Qed.

(** C6.  A birthday that does not parse: [userAge] is not a number above
    zero, so the prompt is the one composed without an age, it is sent to the
    model (the run is not aborted), and the journal ends with the terminal
    write, whose acceptance leaves the record [completed] or [error]. *)
Theorem unparseable_birthday_is_no_age (W : World) (event : Event)
    (d : CoffeeData) (doc : gmap string Js.Value) (s : string) :
  data event = Some d ->
  Js.truthy (result d) = false ->
  Js.truthy_str (GEMINI_API_KEY W) = true ->
  userBirthday d = Some s ->
  parseDate W s = JsDate.Invalid ->
  let r := run W event doc in
  let j := journal (snd r) in
  age_given (userAgeAt W 0 (userBirthday d)) = false
  /\ promptFor W d
     = composePrompt (userName d) None (userRelationStatus d)
         (userEmploymentStatus d)
  /\ promptsSent j = [promptFor W d]
  /\ exists payload o,
       last j = Some (Update "coffee" (docId event) payload o)
       /\ (field "status" payload = Some (Js.VStr "completed")
           \/ field "status" payload = Some (Js.VStr "error"))
       /\ (o = None -> fst r = Normal tt /\ terminal (record (snd r))).
Proof.
  intros Hd Hr Hk Hb Hp r j; subst r j.
  assert (Hage : age_given (userAgeAt W 0 (userBirthday d)) = false).
  { unfold userAgeAt. rewrite Hb; simpl. rewrite Hp, ageAsOf_invalid.
    destruct (String.eqb s ""); reflexivity. }
  split; [exact Hage |]. split.
  { unfold promptFor, composePrompt, promptChunks. rewrite Hage.
    reflexivity. }
  split; [apply promptsSent_with_key; assumption |].
  destruct (run_observed W event d doc Hd Hr Hk)
    as (js & g & tail & Hj & _ & _ & _ & _ & _ & _ & _ & Hend).
  destruct (ending_terminal _ _ _ _ _ _ _ _ _ _ Hend)
    as (payload & o & Hl & Hs & Ht).
  exists payload, o. rewrite Hj. split; [| split; assumption].
  rewrite last_app_cons, last_cons, Hl. reflexivity.
Qed.

Lemma unparseable_birthday_is_no_age_witness :
  parseDate Sample.calm "yesterday" = JsDate.Invalid
  /\ promptsSent (journal (snd (run Sample.calm
                                  (Sample.created (Sample.born "yesterday")) ∅)))
     = [promptFor Sample.calm (Sample.born "yesterday")].
Proof.
  split; [reflexivity |].
  apply (unparseable_birthday_is_no_age Sample.calm
           (Sample.created (Sample.born "yesterday"))
           (Sample.born "yesterday") ∅ "yesterday");
    reflexivity.
Defined.

(** C7.  Prompt composition: the text the handler builds is, for every four
    raw attributes, the specification's prompt of their normalised set: one
    clause per present attribute in the order name, age, relationship status,
    employment status, joined by ", ", closed by the interpretation request,
    followed by the directives; and with no attribute present it is the
    fallback request followed by the same directives. *)
Theorem prompt_is_clauses_closing_directives :
  (forall (n : option string) (a : option Js.Num) (r e : option string),
      composePrompt n a r e
      = PromptSpec.prompt (PromptSpec.normalize n a r e))
  /\ PromptSpec.prompt PromptSpec.nothing
     = PromptSpec.fallback +:+ PromptSpec.directives
  /\ composePrompt None None None None
     = "Kahve falımı yorumla. Dil Türkçe olsun."
  /\ composePrompt (Some "Ahmet") (Some (Js.Int 35)) (Some "evli")
       (Some "mühendis")
     = "ismim Ahmet, yasim 35, medeni durumum evli, iş durumum mühendis kahve falımı yorumla. Dil Türkçe olsun.".
Proof.
  split; [apply composePrompt_normalized |].
  repeat split; reflexivity.
Qed.

(** C8.  Prompt determinism: two runs, in any two worlds (clocks, keys,
    storage and AI answers, stored records) and on any two events, whose
    records have the same normalised attributes send the same prompt text to
    the model. *)
Theorem prompt_depends_on_attributes_only (W1 W2 : World)
    (event1 event2 : Event) (d1 d2 : CoffeeData)
    (doc1 doc2 : gmap string Js.Value) (p1 p2 : string) :
  data event1 = Some d1 ->
  data event2 = Some d2 ->
  normalizedAttributes W1 d1 = normalizedAttributes W2 d2 ->
  In p1 (promptsSent (journal (snd (run W1 event1 doc1)))) ->
  In p2 (promptsSent (journal (snd (run W2 event2 doc2)))) ->
  p1 = p2.
Proof.
  intros Hd1 Hd2 Hn H1 H2.
  rewrite (promptsSent_only W1 event1 d1 doc1 p1 Hd1 H1).
  rewrite (promptsSent_only W2 event2 d2 doc2 p2 Hd2 H2).
  rewrite !promptFor_normalized, Hn. reflexivity.
Qed.

Lemma prompt_depends_on_attributes_only_witness :
  normalizedAttributes Sample.calm Sample.ahmet
  = normalizedAttributes Sample.tomorrow Sample.ahmet_again
  /\ "ismim Ahmet, yasim 35, medeni durumum evli, iş durumum mühendis kahve falımı yorumla. Dil Türkçe olsun."
     = "ismim Ahmet, yasim 35, medeni durumum evli, iş durumum mühendis kahve falımı yorumla. Dil Türkçe olsun.".
Proof.
  split; [vm_compute; reflexivity |].
  apply (prompt_depends_on_attributes_only Sample.calm Sample.tomorrow
           (Sample.created Sample.ahmet)
           (Sample.created_as "doc2" Sample.ahmet_again)
           Sample.ahmet Sample.ahmet_again ∅
           {[ "status" := Js.VStr "pending" ]});
    [reflexivity | reflexivity | vm_compute; reflexivity
    | vm_compute; left; reflexivity | vm_compute; left; reflexivity].
Defined.

(** C9.  Missing API key: when [GEMINI_API_KEY] is undefined (or empty), a
    run that gets past the guard makes a single external call, the error
    write, whose payload has the category "Failed to process with Gemini AI"
    and the message of the configuration error as [errorDetails]; once the
    datastore accepts it the handler returns and the record has
    [status = "error"] and that result. *)
Theorem missing_key_fails_fast (W : World) (event : Event) (d : CoffeeData)
    (doc : gmap string Js.Value) :
  data event = Some d ->
  Js.truthy (result d) = false ->
  Js.truthy_str (GEMINI_API_KEY W) = false ->
  let r := run W event doc in
  let at_ := JsDate.toISOString (newDate W 0) in
  let payload :=
    [ ("result",
       Js.VObj [ ("error", Js.VStr "Failed to process with Gemini AI");
                 ("errorDetails", Js.VStr "Gemini API key is not configured");
                 ("processedAt", Js.VStr at_);
                 ("source", Js.VStr GEMINI_MODEL) ]);
      ("status", Js.VStr "error") ] in
  let o := update W [] "coffee" (docId event) payload in
  journal (snd r) = [Update "coffee" (docId event) payload o]
  /\ (o = None ->
      fst r = Normal tt
      /\ record (snd r) !! "status" = Some (Js.VStr "error")
      /\ record (snd r) !! "result" = field "result" payload).
Proof.
  intros Hd Hr Hk r at_ payload o; subst r.
  destruct (run_without_key W event d doc Hd Hr Hk) as (Hj & Hc & Hdoc).
  split; [exact Hj |].
  intros Ho. fold at_ in Hc, Hdoc.
  change (errorPayload (Js.ThrownError "Gemini API key is not configured") at_)
    with payload in Hc, Hdoc.
  fold o in Hc, Hdoc. rewrite Ho in Hc, Hdoc. rewrite Hc, Hdoc.
  split; [reflexivity |].
  apply (apply_update_error
           (Js.ThrownError "Gemini API key is not configured") at_ doc).
Qed.

Lemma missing_key_fails_fast_witness :
  Js.truthy_str (GEMINI_API_KEY Sample.no_key) = false
  /\ journal (snd (run Sample.no_key (Sample.created Sample.ahmet) ∅))
     = [Update "coffee" "doc1"
          [ ("result",
             Js.VObj [ ("error", Js.VStr "Failed to process with Gemini AI");
                       ("errorDetails",
                        Js.VStr "Gemini API key is not configured");
                       ("processedAt", Js.VStr "2025-08-28T10:30:00.000Z");
                       ("source", Js.VStr "gemini-2.5-flash") ]);
            ("status", Js.VStr "error") ] None].
Proof.
  split; [reflexivity |].
  apply (missing_key_fails_fast Sample.no_key (Sample.created Sample.ahmet)
           Sample.ahmet ∅); reflexivity.
Defined.

(** C10.  Prompt bookkeeping: whenever the journal of a run holds a
    [completed] write (accepted or not), the run made exactly one generation
    call, the parts of that call are parts made from uploaded files followed
    by one text part, and [ai.promptText] of the write is that text.  *)
Theorem stored_prompt_is_sent_prompt (W : World) (event : Event)
    (d : CoffeeData) (doc : gmap string Js.Value)
    (payload : list (string * Js.Value)) (o : option Js.Thrown) :
  data event = Some d ->
  In (payload, o) (updates (journal (snd (run W event doc)))) ->
  field "status" payload = Some (Js.VStr "completed") ->
  exists assets prompt g,
    generations (journal (snd (run W event doc)))
    = [(GEMINI_MODEL, assets ++ [PartText prompt], g)]
    /\ forallb is_uri_part assets = true
    /\ last (assets ++ [PartText prompt]) = Some (PartText prompt)
    /\ storedPromptText payload = Some (Js.VStr prompt).
Proof.
  intros Hd Hin Hs.
  destruct (Js.truthy (result d)) eqn:Hr.
  { rewrite (run_skips W event d doc Hd Hr) in Hin. destruct Hin. }
  destruct (Js.truthy_str (GEMINI_API_KEY W)) eqn:Hk.
  - destruct (run_observed W event d doc Hd Hr Hk)
      as (js & g & tail & _ & _ & _ & _ & _ & Hg & Hupd & _ & Hend).
    exists (materializedParts js), (promptFor W d), g.
    split; [exact Hg |].
    split; [apply materializedParts_are_uris |].
    split; [apply last_snoc |].
    rewrite Hupd in Hin.
    pose proof (ending_updates _ _ _ _ _ _ _ _ _ _ Hend) as Hu.
    destruct g as [e | text].
    + destruct Hu as (now & o' & Hu & _). rewrite Hu in Hin.
      destruct Hin as [Heq | []]. inversion Heq; subst. discriminate.
    + destruct Hu as (now & [(Hu & _) | (e & now' & o' & Hu & _)]);
        rewrite Hu in Hin.
      * destruct Hin as [Heq | []]. inversion Heq; subst. reflexivity.
      * destruct Hin as [Heq | [Heq | []]]; inversion Heq; subst;
          [reflexivity | discriminate].
  - destruct (run_without_key W event d doc Hd Hr Hk) as (Hj & _).
    rewrite Hj in Hin. destruct Hin as [Heq | []].
    inversion Heq; subst. discriminate.
Qed.

Lemma stored_prompt_is_sent_prompt_witness :
  exists assets prompt g,
    generations (journal (snd (run Sample.calm (Sample.created Sample.bare) ∅)))
    = [(GEMINI_MODEL, assets ++ [PartText prompt], g)]
    /\ forallb is_uri_part assets = true
    /\ last (assets ++ [PartText prompt]) = Some (PartText prompt)
    /\ storedPromptText
         (completedPayload (Some "fal")
            "Kahve falımı yorumla. Dil Türkçe olsun."
            "2025-08-28T10:30:00.000Z")
       = Some (Js.VStr prompt).
Proof.
  apply (stored_prompt_is_sent_prompt Sample.calm (Sample.created Sample.bare)
           Sample.bare ∅
           (completedPayload (Some "fal")
              "Kahve falımı yorumla. Dil Türkçe olsun."
              "2025-08-28T10:30:00.000Z") None);
    [reflexivity | vm_compute; left; reflexivity | reflexivity].
Defined.

(** ** More about the handler *)

Lemma ending_settling (clock : nat -> JsDate.Fields) (k : nat)
    (docId : string) (files : list string) (prompt : string)
    (doc doc' : gmap string Js.Value) (g : GenerateResult) (tail : list Call)
    (c : Completion unit) :
  Ending clock k docId files prompt doc g tail c doc' ->
  forallb is_settling tail = true.
Proof.
  assert (Hs : forall us fs, sweep us fs -> forallb is_settling us = true).
  { intros us fs [H _]. induction us as [| u us IH]; [reflexivity |].
    simpl in *. apply andb_true_iff in H as [Hu Hus].
    destruct u; try discriminate. simpl. apply IH, Hus. }
  intros H; destruct H; rewrite ?forallb_app; simpl;
    repeat (erewrite Hs by eassumption); reflexivity.
Qed.

Lemma ending_last_write (clock : nat -> JsDate.Fields) (k : nat)
    (docId : string) (files : list string) (prompt : string) (doc doc' : gmap string Js.Value) (g : GenerateResult)
    (tail : list Call) (c : Completion unit) :
  Ending clock k docId files prompt doc g tail c doc' ->
  exists payload o,
    last tail = Some (Update "coffee" docId payload o)
    /\ (field "status" payload = Some (Js.VStr "completed")
        \/ field "status" payload = Some (Js.VStr "error"))
    /\ c = of_outcome o
    /\ doc' = settle o payload doc.
Proof.
  intros H; destruct H as [e us now o Hs | text us now Hs
                          | text us now e us' now' o Hs Hs'].
  - eexists _, o. rewrite last_snoc. split; [reflexivity |].
    split; [right; reflexivity |]. split; reflexivity.
  - eexists _, None. rewrite last_snoc. split; [reflexivity |].
    split; [left; reflexivity |]. split; reflexivity.
  - eexists _, o. rewrite !app_assoc, last_snoc. split; [reflexivity |].
    split; [right; reflexivity |]. split; reflexivity.
Qed.

(** X2.  The last call of every run that gets past the guard is a write of
    [status = "completed"] or [status = "error"] to the triggering document;
    the handler returns normally exactly when the datastore accepts that
    write and rejects with what the datastore answered otherwise, and the
    stored record is the record as it was with only that last write applied,
    if it was accepted. *)
Theorem run_is_settled_by_its_last_write (W : World) (event : Event)
    (d : CoffeeData) (doc : gmap string Js.Value) :
  data event = Some d ->
  Js.truthy (result d) = false ->
  exists payload o,
    last (journal (snd (run W event doc)))
    = Some (Update "coffee" (docId event) payload o)
    /\ (field "status" payload = Some (Js.VStr "completed")
        \/ field "status" payload = Some (Js.VStr "error"))
    /\ fst (run W event doc) = of_outcome o
    /\ record (snd (run W event doc)) = settle o payload doc.
Proof.
  intros Hd Hr.
  destruct (Js.truthy_str (GEMINI_API_KEY W)) eqn:Hk.
  - destruct (run_observed W event d doc Hd Hr Hk)
      as (js & g & tail & Hj & _ & _ & _ & _ & _ & _ & _ & Hend).
    destruct (ending_last_write _ _ _ _ _ _ _ _ _ _ Hend)
      as (payload & o & Hl & Hs & Hc & Hdoc).
    exists payload, o. rewrite Hj, last_app_cons, last_cons, Hl.
    repeat split; assumption.
  - destruct (run_without_key W event d doc Hd Hr Hk) as (Hj & Hc & Hdoc).
    eexists _, _. rewrite Hj. split; [reflexivity |].
    split; [right; reflexivity |]. split; assumption.
Qed.

Lemma ending_record (clock : nat -> JsDate.Fields) (k : nat)
    (docId : string) (files : list string) (prompt : string)
    (doc doc' : gmap string Js.Value) (g : GenerateResult) (tail : list Call)
    (c : Completion unit) :
  Ending clock k docId files prompt doc g tail c doc' ->
  doc' = doc
  \/ (exists e at_, doc' = apply_update (errorPayload e at_) doc)
  \/ (exists text at_, doc' = apply_update (completedPayload text prompt at_) doc).
Proof.
  intros H; destruct H as [e us now o Hs | text us now Hs
                          | text us now e us' now' o Hs Hs'].
  - destruct o; [left; reflexivity |]. right; left. eexists _, _; reflexivity.
  - right; right. eexists _, _; reflexivity.
  - destruct o; [left; reflexivity |]. right; left. eexists _, _; reflexivity.
Qed.

Lemma apply_update_other (payload : list (string * Js.Value))
    (doc : gmap string Js.Value) (k : string) :
  field k payload = None -> apply_update payload doc !! k = doc !! k.
Proof.
  unfold apply_update. revert doc.
  induction payload as [| [k' v] payload IH]; intros doc H; [reflexivity |].
  simpl in *. destruct (String.eqb k k') eqn:E; [discriminate |].
  rewrite IH by exact H. apply lookup_insert_ne.
  intros ->. rewrite String.eqb_refl in E. discriminate.
Qed.

(** X3.  No run changes a field of the stored record other than [result],
    [status] and [ai]; and [ai] changes only in a run that leaves the record
    [completed]. *)
Theorem user_fields_are_never_written (W : World) (event : Event)
    (doc : gmap string Js.Value) (k : string) :
  k <> "result" -> k <> "status" ->
  (k <> "ai"
   \/ record (snd (run W event doc)) !! "status"
      <> Some (Js.VStr "completed")) ->
  record (snd (run W event doc)) !! k = doc !! k.
Proof.
  intros Hres Hst Hai.
  destruct (data event) as [d |] eqn:Hd.
  2:{ unfold run, processCoffeeWithGemini. rewrite Hd. reflexivity. }
  destruct (Js.truthy (result d)) eqn:Hr.
  { rewrite (run_skips W event d doc Hd Hr). reflexivity. }
  assert (Hne : forall a b : string, a <> b -> String.eqb a b = false).
  { intros a b H. apply String.eqb_neq, H. }
  destruct (Js.truthy_str (GEMINI_API_KEY W)) eqn:Hk.
  - destruct (run_observed W event d doc Hd Hr Hk)
      as (js & g & tail & _ & _ & _ & _ & _ & _ & _ & _ & Hend).
    destruct (ending_record _ _ _ _ _ _ _ _ _ _ Hend)
      as [Hdoc | [(e & at_ & Hdoc) | (text & at_ & Hdoc)]];
      rewrite Hdoc in *.
    + reflexivity.
    + apply apply_update_other.
      simpl. rewrite (Hne _ _ Hres), (Hne _ _ Hst). reflexivity.
    + apply apply_update_other. simpl.
      rewrite (Hne _ _ Hres), (Hne _ _ Hst).
      destruct Hai as [Hai | Hai].
      * rewrite (Hne _ _ Hai). reflexivity.
      * exfalso. apply Hai. apply apply_update_completed.
  - destruct (run_without_key W event d doc Hd Hr Hk) as (_ & _ & Hdoc).
    rewrite Hdoc. destruct (update W _ _ _ _); [reflexivity |].
    apply apply_update_other.
    simpl. rewrite (Hne _ _ Hres), (Hne _ _ Hst). reflexivity.
Qed.

(** X4.  Order of the calls: with the key in place, the journal of a run
    past the guard is downloads and uploads only, then the one generation
    call, then deletions and datastore writes only: nothing is transferred
    after the model was called and nothing is deleted or written before. *)
Theorem transfers_then_generation_then_settling (W : World) (event : Event)
    (d : CoffeeData) (doc : gmap string Js.Value) :
  data event = Some d ->
  Js.truthy (result d) = false ->
  Js.truthy_str (GEMINI_API_KEY W) = true ->
  exists js parts g tail,
    journal (snd (run W event doc))
    = js ++ GenerateContent GEMINI_MODEL parts g :: tail
    /\ forallb is_transfer js = true
    /\ forallb is_settling tail = true.
Proof.
  intros Hd Hr Hk.
  destruct (run_with_key W event d doc Hd Hr Hk)
    as (js & g & tail & Hj & Ht & _ & _ & Hend).
  eexists js, _, g, tail. split; [exact Hj |]. split; [exact Ht |].
  eapply ending_settling, Hend.
Qed.

Lemma omap_cons {A B} (f : A -> option B) (a : A) (l : list A) :
  omap f (a :: l)
  = match f a with Some y => y :: omap f l | None => omap f l end.
Proof. reflexivity. Qed.

Lemma omap_length_le {A B C} (f : A -> option B) (g : A -> option C)
    (l : list A) :
  (forall a, is_Some (f a) -> is_Some (g a)) ->
  (length (omap f l) <= length (omap g l))%nat.
Proof.
  intros H. induction l as [| a l IH]; [reflexivity |].
  rewrite !omap_cons. destruct (f a) eqn:Ef.
  - destruct (H a) as [c Ec]; [rewrite Ef; eexists; reflexivity |].
    rewrite Ec. simpl. lia.
  - destruct (g a); simpl; lia.
Qed.

Lemma kept_length_le {A} (f : A -> bool) (l : list A) :
  (length (List.filter f l) <= length l)%nat.
Proof.
  induction l as [| a l IH]; simpl; [lia |]. destruct (f a); simpl; lia.
Qed.

(** X6.  Call budget of one invocation, whatever the world answers: at most
    one download per listed reference, no more uploads than downloads, at most
    two deletion attempts per upload, at most one generation call with at most
    one part per reference plus the prompt, and at most two writes. *)
Theorem call_budget (W : World) (event : Event) (d : CoffeeData)
    (doc : gmap string Js.Value) :
  data event = Some d ->
  let j := journal (snd (run W event doc)) in
  let n := length (default [] (photoPaths d)) in
  (length (downloads j) <= n)%nat
  /\ (length (uploads j) <= length (downloads j))%nat
  /\ (length (unlinks j) <= 2 * length (uploads j))%nat
  /\ (length (generations j) <= 1)%nat
  /\ (length (updates j) <= 2)%nat
  /\ (forall m parts g,
        In (m, parts, g) (generations j) -> (length parts <= S n)%nat).
Proof.
  intros Hd j n; subst j n.
  destruct (Js.truthy (result d)) eqn:Hr.
  { rewrite (run_skips W event d doc Hd Hr). simpl.
    repeat split; try lia; intros ? ? ? []. }
  destruct (Js.truthy_str (GEMINI_API_KEY W)) eqn:Hk.
  - destruct (run_observed W event d doc Hd Hr Hk)
      as (js & g & tail & _ & Hm & Hreg & Hdl & Hup & Hg & Hupd & Hun & Hend).
    assert (Hcd : (length (createdFiles (journal (snd (run W event doc))))
                   <= length (downloads (journal (snd (run W event doc)))))%nat).
    { apply omap_length_le. intros [] [x Hx]; try discriminate.
      eexists; reflexivity. }
    assert (Hru : (length (registeredFiles (journal (snd (run W event doc))))
                   <= length (uploads (journal (snd (run W event doc)))))%nat).
    { apply omap_length_le. intros [] [x Hx]; try discriminate.
      eexists; reflexivity. }
    assert (Hmr : (length (materializedParts (journal (snd (run W event doc))))
                   <= length (registeredFiles
                                (journal (snd (run W event doc)))))%nat).
    { apply omap_length_le. intros [] [x Hx]; try discriminate.
      destruct outcome; [discriminate | eexists; reflexivity]. }
    rewrite Hm in Hmr. rewrite Hreg in Hru, Hmr.
    rewrite Hup, Hg, Hupd, Hun. rewrite Hup in Hru. rewrite Hdl in *.
    pose proof (kept_length_le (has_handle W) (default [] (photoPaths d)))
      as Hkept.
    split; [lia |]. split; [exact Hcd |]. split.
    { destruct (ending_journal _ _ _ _ _ _ _ _ _ _ Hend)
        as (_ & _ & _ & _ & _ & _ & [-> | ->]);
        rewrite ?length_app; lia. }
    split; [simpl; lia |]. split.
    { pose proof (ending_updates _ _ _ _ _ _ _ _ _ _ Hend) as Hu.
      destruct g as [e | text].
      - destruct Hu as (now & o & -> & _). simpl; lia.
      - destruct Hu as (now & [(-> & _) | (e & now' & o & -> & _)]);
          simpl; lia. }
    intros m parts g' [Heq | []]. inversion Heq; subst.
    rewrite length_app. simpl. lia.
  - destruct (run_without_key W event d doc Hd Hr Hk) as (Hj & _).
    rewrite Hj. simpl. repeat split; try lia; intros ? ? ? [].
Qed.

(** X7.  A record without photo references (the field missing or an empty
    list): no download, no upload, no deletion, and the model receives the
    prompt text as its only part. *)
Theorem no_references_is_text_only (W : World) (event : Event)
    (d : CoffeeData) (doc : gmap string Js.Value) :
  data event = Some d ->
  Js.truthy (result d) = false ->
  Js.truthy_str (GEMINI_API_KEY W) = true ->
  default [] (photoPaths d) = [] ->
  let j := journal (snd (run W event doc)) in
  downloads j = [] /\ uploads j = [] /\ unlinks j = []
  /\ exists g, generations j = [(GEMINI_MODEL, [PartText (promptFor W d)], g)].
Proof.
  intros Hd Hr Hk Hp j; subst j.
  destruct (run_observed W event d doc Hd Hr Hk)
    as (js & g & tail & _ & Hm & Hreg & Hdl & Hup & Hg & _ & Hun & Hend).
  rewrite Hp in Hdl.
  assert (Hc : createdFiles (journal (snd (run W event doc))) = []).
  { pose proof (omap_length_le created_file download_attempt
                  (journal (snd (run W event doc)))) as H.
    fold (createdFiles (journal (snd (run W event doc)))) in H.
    fold (downloads (journal (snd (run W event doc)))) in H.
    rewrite Hdl in H. apply length_zero_iff_nil.
    cut (length (createdFiles (journal (snd (run W event doc)))) <= 0)%nat;
      [lia |].
    apply H. intros [] [x Hx]; try discriminate. eexists; reflexivity. }
  rewrite Hc in Hup.
  pose proof (no_uploads_no_parts _ Hup) as Hparts. rewrite Hm in Hparts.
  assert (Hregs : registeredFiles js = []).
  { rewrite <- Hreg. apply length_zero_iff_nil.
    pose proof (omap_length_le registered_file upload_attempt
                  (journal (snd (run W event doc)))) as H.
    fold (uploads (journal (snd (run W event doc)))) in H.
    rewrite Hup in H.
    cut (length (registeredFiles (journal (snd (run W event doc)))) <= 0)%nat;
      [lia |].
    apply H. intros [] [x Hx]; try discriminate. eexists; reflexivity. }
  split; [exact Hdl |]. split; [exact Hup |]. split.
  - rewrite Hun.
    destruct (ending_journal _ _ _ _ _ _ _ _ _ _ Hend)
      as (_ & _ & _ & _ & _ & _ & [-> | ->]); rewrite Hregs; reflexivity.
  - exists g. rewrite Hg, Hparts. reflexivity.
Qed.

(** X10.  The age clause enters the prompt exactly when the parsed birthday
    lies at least one full year before today, comparing (year + 1, month, day)
    with today's (year, month, day). *)
Theorem age_clause_iff_a_year_old (now birth : JsDate.Fields) :
  age_given (Some (ageAsOf (JsDate.Valid now) (JsDate.Valid birth))) = true
  <-> a_year_before birth now.
Proof.
  rewrite ageAsOf_rule. unfold age_given, Js.gt, Js.lt, a_year_before,
    PromptSpec.age_rule, PromptSpec.precedes.
  rewrite Z.ltb_lt.
  destruct (Z.compare_spec (JsDate.month now) (JsDate.month birth));
    [destruct (Z.ltb_spec (JsDate.date now) (JsDate.date birth)) | |]; lia.
Qed.

(** X11.  Values the handler counts as absent do not show in the prompt: an
    empty string is as good as a missing field, and [NaN], zero or a negative
    age as good as [null]; the prompt of any four attributes is the prompt of
    their normalised forms. *)
Theorem absent_values_do_not_matter (n r e : option string)
    (a : option Js.Num) :
  composePrompt n a r e
  = composePrompt (PromptSpec.present n)
      (option_map Js.Int (PromptSpec.meaningful_age a))
      (PromptSpec.present r) (PromptSpec.present e)
  /\ composePrompt (Some "") a r e = composePrompt None a r e
  /\ composePrompt n (Some Js.NaN) r e = composePrompt n None r e.
Proof.
  assert (Hp : forall o, PromptSpec.present (PromptSpec.present o)
                         = PromptSpec.present o).
  { intros o. unfold PromptSpec.present.
    destruct (Js.truthy_str o) eqn:E; [rewrite E |]; reflexivity. }
  assert (Ha : forall x, PromptSpec.meaningful_age
                           (option_map Js.Int (PromptSpec.meaningful_age x))
                         = PromptSpec.meaningful_age x).
  { intros [[| z] |]; try reflexivity. simpl.
    destruct (0 <? z) eqn:E; simpl; [rewrite E |]; reflexivity. }
  split; [| split]; rewrite !composePrompt_normalized; try reflexivity.
  unfold PromptSpec.normalize. rewrite !Hp, Ha. reflexivity.
Qed.

(** X1.  An event without a snapshot: the handler logs the error and
    returns; nothing is called and the stored record is untouched. *)
Theorem event_without_data_is_ignored (W : World) (event : Event)
    (doc : gmap string Js.Value) :
  data event = None ->
  fst (run W event doc) = Normal tt
  /\ journal (snd (run W event doc)) = []
  /\ record (snd (run W event doc)) = doc
  /\ logs (snd (run W event doc))
     = [(LError, "No data associated with the event")].
Proof.
  intros Hd. unfold run, processCoffeeWithGemini. rewrite Hd.
  repeat split; reflexivity.
Qed.

(** ** What the handler calls, and how *)

Section Yields.

Context (Q : Call -> Prop).

Lemma yields_quiet {A} (R : A -> Prop) (m : M A) :
  (forall st, journal (snd (m st)) = journal st) ->
  (forall st a, fst (m st) = Normal a -> R a) ->
  yields Q R m.
Proof.
  intros Hj Hr st. exists []. rewrite app_nil_r.
  split; [apply Hj |]. split; [constructor |].
  destruct (fst (m st)) eqn:E; [eapply Hr; exact E | exact I].
Qed.

Lemma yields_call {A} (R : A -> Prop) (m : M A) :
  (forall st, exists c, journal (snd (m st)) = journal st ++ [c] /\ Q c) ->
  (forall st a, fst (m st) = Normal a -> R a) ->
  yields Q R m.
Proof.
  intros Hj Hr st. destruct (Hj st) as (c & Hc & Hq). exists [c].
  split; [exact Hc |]. split; [repeat constructor; exact Hq |].
  destruct (fst (m st)) eqn:E; [eapply Hr; exact E | exact I].
Qed.

Lemma yields_bind {A B} (R : A -> Prop) (R' : B -> Prop) (m : M A)
    (k : A -> M B) :
  yields Q R m -> (forall a, R a -> yields Q R' (k a)) ->
  yields Q R' (bind m k).
Proof.
  intros Hm Hk st. unfold bind.
  destruct (Hm st) as (js & Hj & Hq & Hr).
  destruct (m st) as [[a | e] st1]; simpl in *.
  - destruct (Hk a Hr st1) as (ks & Hj' & Hq' & Hr').
    exists (js ++ ks). rewrite Hj', Hj, app_assoc.
    split; [reflexivity |]. split; [apply Forall_app; split; assumption |].
    exact Hr'.
  - exists js. repeat split; assumption.
Qed.

Lemma yields_try_catch {A} (R : A -> Prop) (body : M A)
    (handler : Js.Thrown -> M A) :
  yields Q R body -> (forall e, yields Q R (handler e)) ->
  yields Q R (try_catch body handler).
Proof.
  intros Hm Hh st. unfold try_catch.
  destruct (Hm st) as (js & Hj & Hq & Hr).
  destruct (body st) as [[a | e] st1]; simpl in *.
  - exists js. repeat split; assumption.
  - destruct (Hh e st1) as (ks & Hj' & Hq' & Hr').
    exists (js ++ ks). rewrite Hj', Hj, app_assoc.
    split; [reflexivity |]. split; [apply Forall_app; split; assumption |].
    exact Hr'.
Qed.

Lemma yields_for_of {A} (xs : list A) (body : A -> M unit) :
  (forall x, yields Q anything (body x)) ->
  yields Q anything (for_of xs body).
Proof.
  intros Hb. induction xs as [| x xs IH]; simpl.
  - apply yields_quiet; [reflexivity | intros; exact I].
  - eapply yields_bind; [apply Hb | intros _ _; exact IH].
Qed.

Lemma yields_weaken {A} (R R' : A -> Prop) (m : M A) :
  (forall a, R a -> R' a) -> yields Q R m -> yields Q R' m.
Proof.
  intros Hw Hm st. destruct (Hm st) as (js & Hj & Hq & Hr).
  exists js. split; [exact Hj |]. split; [exact Hq |].
  destruct (fst (m st)); [apply Hw, Hr | exact I].
Qed.

End Yields.

Section Addressing.

Context (W : World) (id : string).

Lemma log_addressed (lvl : Level) (msg : string) : yields (well_addressed W id) anything (log lvl msg).
Proof. apply yields_quiet; [reflexivity | intros; exact I]. Qed.

Lemma processPhoto_addressed (p : string) :
  yields (well_addressed W id) anything (processPhoto W p).
Proof.
  unfold processPhoto.
  apply yields_try_catch; [| intros e; apply log_addressed].
  eapply yields_bind with (R := anything);
    [apply yields_quiet; [reflexivity | intros; exact I] |].
  intros _ _.
  eapply yields_bind with (R := anything);
    [apply yields_quiet; [reflexivity | intros; exact I] |].
  intros _ _.
  eapply (yields_bind (well_addressed W id) (fun t => exists k, t = dateNow W k)).
  { apply yields_quiet; [reflexivity |].
    intros st a H. inversion H. eexists; reflexivity. }
  intros t [k ->].
  eapply yields_bind with (R := anything).
  { apply yields_call; [| intros; exact I].
    intros st. eexists. split; [reflexivity |]. exists k. reflexivity. }
  intros _ _.
  eapply yields_bind; [apply log_addressed |]. intros _ _.
  eapply yields_bind with (R := anything).
  { apply yields_call; [| intros; exact I].
    intros st. eexists. split; [reflexivity |]. reflexivity. }
  intros up _.
  eapply yields_bind with (R := anything).
  { destruct (_ && _); apply yields_quiet;
      try reflexivity; intros; exact I. }
  intros _ _. apply yields_quiet; [reflexivity | intros; exact I].
Qed.

Lemma cleanup_addressed (done : string) :
  yields (well_addressed W id) anything (cleanupTempFiles W done).
Proof.
  unfold cleanupTempFiles.
  eapply yields_bind with (R := anything).
  { apply yields_quiet; [reflexivity | intros; exact I]. }
  intros files _. apply yields_for_of. intros f. unfold unlinkTurn.
  apply yields_try_catch; [| intros e; apply log_addressed].
  eapply yields_bind with (R := anything); [| intros; apply log_addressed].
  apply yields_call; [| intros; exact I].
  intros st. eexists. split; [reflexivity |]. exact I.
Qed.

Lemma doc_update_addressed (payload : list (string * Js.Value)) :
  yields (well_addressed W id) anything (doc_update W "coffee" id payload).
Proof.
  apply yields_call; [| intros; exact I].
  intros st.
  exists (Update "coffee" id payload
            (update W (journal st) "coffee" id payload)).
  split.
  - unfold doc_update; cbn zeta.
    destruct (update W _ _ _ _); reflexivity.
  - split; reflexivity.
Qed.

Lemma catchBlock_addressed (e : Js.Thrown) :
  yields (well_addressed W id) anything (catchBlock W id e).
Proof.
  unfold catchBlock.
  eapply yields_bind; [apply log_addressed |]. intros _ _.
  eapply yields_bind; [apply cleanup_addressed |]. intros _ _.
  eapply yields_bind with (R := anything).
  { apply yields_quiet; [reflexivity | intros; exact I]. }
  intros now _. apply doc_update_addressed.
Qed.

Lemma tryBlock_addressed (d : CoffeeData) :
  yields (well_addressed W id) anything (tryBlock W d id).
Proof.
  unfold tryBlock.
  eapply yields_bind; [apply log_addressed |]. intros _ _.
  eapply yields_bind with (R := anything).
  { destruct (negb _); apply yields_quiet;
      try reflexivity; intros; exact I. }
  intros _ _.
  eapply yields_bind with (R := anything).
  { apply yields_quiet; [| intros; exact I].
    intros st. rewrite computeUserAge_value. simpl.
    destruct (Js.truthy_str _); reflexivity. }
  intros userAge _.
  eapply yields_bind; [apply log_addressed |]. intros _ _.
  eapply yields_bind with (R := anything).
  { apply yields_quiet; [reflexivity | intros; exact I]. }
  intros _ _.
  eapply yields_bind with (R := anything).
  { unfold materializePhotos. destruct (photoPaths d) as [paths |].
    - destruct (0 <? length paths)%nat.
      + apply yields_for_of. apply processPhoto_addressed.
      + apply yields_quiet; [reflexivity | intros; exact I].
    - apply yields_quiet; [reflexivity | intros; exact I]. }
  intros _ _.
  eapply yields_bind with (R := anything).
  { apply yields_quiet; [reflexivity | intros; exact I]. }
  intros _ _.
  eapply yields_bind with (R := anything).
  { apply yields_quiet; [reflexivity | intros; exact I]. }
  intros parts _.
  eapply yields_bind with (R := anything).
  { apply yields_call; [| intros; exact I].
    intros st. eexists. split; [reflexivity |]. reflexivity. }
  intros text _.
  eapply yields_bind; [apply log_addressed |]. intros _ _.
  eapply yields_bind; [apply cleanup_addressed |]. intros _ _.
  eapply yields_bind with (R := anything).
  { apply yields_quiet; [reflexivity | intros; exact I]. }
  intros now _.
  eapply yields_bind; [apply doc_update_addressed |]. intros _ _.
  apply log_addressed.
Qed.

End Addressing.

(** X8.  Every external call of every run is addressed as the source fixes
    it: the destination of a download is what [path.join] makes of [tmpdir]
    and the file name temp_<clock reading>_<base name of the reference>
    (joined by a slash and normalised, so that a [tmpdir] of "/" or one with
    a trailing slash gives no doubled slash), uploads are declared as
    "image/jpeg", the model is [GEMINI_MODEL], and every write goes to the
    document [coffee/<docId>] of the triggering event. *)
Theorem calls_are_well_addressed (W : World) (event : Event)
    (doc : gmap string Js.Value) :
  Forall (well_addressed W (docId event)) (journal (snd (run W event doc))).
Proof.
  assert (H : yields (well_addressed W (docId event)) anything
                (processCoffeeWithGemini W event)).
  { unfold processCoffeeWithGemini.
    destruct (data event) as [d |]; [| apply log_addressed].
    destruct (Js.truthy (result d)); [apply log_addressed |].
    eapply yields_bind with (R := anything).
    { apply yields_quiet; [reflexivity | intros; exact I]. }
    intros _ _. apply yields_try_catch.
    - apply tryBlock_addressed.
    - intros e. apply catchBlock_addressed. }
  destruct (H (initial doc)) as (js & Hj & Hq & _).
  unfold run. rewrite Hj. exact Hq.
Qed.

(** [path.join] normalises what it joins. *)
Example join_normalises :
  Path.join "/tmp" "temp_1_cup.jpg" = "/tmp/temp_1_cup.jpg"
  /\ Path.join "/" "temp_1_cup.jpg" = "/temp_1_cup.jpg"
  /\ Path.join "/tmp/" "temp_1_cup.jpg" = "/tmp/temp_1_cup.jpg"
  /\ Path.join "/var//tmp/./x/.." "temp_1_cup.jpg"
     = "/var/tmp/temp_1_cup.jpg"
  /\ Path.join "" "temp_1_cup.jpg" = "temp_1_cup.jpg"
  /\ Path.join "../t" "temp_1_cup.jpg" = "../t/temp_1_cup.jpg".
Proof. repeat split; vm_compute; reflexivity. Qed.

Lemma take_segment_no_slash (cs : list ascii) :
  forallb (fun c => negb (Path.is_slash c)) (Path.take_segment cs) = true.
Proof.
  induction cs as [| c cs IH]; simpl; [reflexivity |].
  destruct (Path.is_slash c) eqn:E; simpl; [reflexivity |].
  rewrite E, IH. reflexivity.
Qed.

(** X9.  The base name taken from a photo reference never contains a
    slash, so the directory part of a reference cannot steer the temp file
    out of [tmpdir]. *)
Theorem basename_has_no_slash (p : string) :
  forallb (fun c => negb (Path.is_slash c))
    (list_ascii_of_string (Path.basename p)) = true.
Proof.
  unfold Path.basename. rewrite list_ascii_of_string_of_list_ascii.
  rewrite forallb_forall. intros c Hc. apply in_rev in Hc.
  pose proof (take_segment_no_slash
                (Path.drop_slashes (rev (list_ascii_of_string p)))) as H.
  rewrite forallb_forall in H. apply H, Hc.
Qed.

(** ** The second revision *)

Lemma sweep_nothing (us : list Call) : sweep us [] -> us = [].
Proof.
  intros [Hall Hus]. destruct us as [| u us]; [reflexivity |].
  simpl in Hall. apply andb_true_iff in Hall as [Hu _].
  destruct u; discriminate.
Qed.

Section Rev2Run.

Context (W : World).

Lemma rev2_catchBlock_ending (docId : string) (e : Js.Thrown) (st : State) :
  exists us now o,
    journal (snd (Rev2.catchBlock W docId e st))
    = journal st ++ us
      ++ [Update "coffee" docId
            (Legacy.errorPayload e (JsDate.toISOString now)) o]
    /\ sweep us (tempFiles st)
    /\ fst (Rev2.catchBlock W docId e st) = of_outcome o
    /\ record (snd (Rev2.catchBlock W docId e st))
       = settle o (Legacy.errorPayload e (JsDate.toISOString now)) (record st).
Proof.
  unfold Rev2.catchBlock, bind, log; cbn beta iota.
  match goal with
  | |- context [cleanupTempFiles W ?d ?s] =>
      destruct (cleanupTempFiles_swept W d s)
        as (Hn & us & Hj & Hs & _ & _ & _ & Hr);
      destruct (cleanupTempFiles W d s) as [c st1]
  end.
  simpl in Hn, Hj, Hs, Hr; subst c.
  unfold new_Date, doc_update; cbn beta iota zeta.
  exists us, (newDate W (ticks st1)).
  exists (update W (journal (tick st1)) "coffee" docId
            (Legacy.errorPayload e
               (JsDate.toISOString (newDate W (ticks st1))))).
  simpl. rewrite Hj.
  destruct Hs as [Hall Hus].
  destruct (update W _ _ _ _); simpl; rewrite ?Hj, ?Hr, <- ?app_assoc;
    repeat split; auto.
Qed.

(** The run past the guard, from the state the marker write leaves. *)
Lemma rev2_after_marker (d : CoffeeData) (docId : string) (st : State) :
  Js.truthy_str (GEMINI_API_KEY W) = true ->
  tempFiles st = [] ->
  let rest :=
    (set_contentParts [] ;;
     materializePhotos W (Some (default [] (photoPaths d))) ;;
     push_contentPart (PartText (Rev2.promptFor d)) ;;
     parts <- get_contentParts ;;
     text <- models_generateContent W Legacy.MODEL parts ;;
     log LInfo ("Gemini response received for document: " +:+ docId) ;;
     cleanupTempFiles W "Cleaned up temporary file: " ;;
     now <- new_Date W ;;
     doc_update W "coffee" docId
       (Legacy.completedPayload text (JsDate.toISOString now)) ;;
     log LInfo ("Successfully updated document " +:+ docId
                +:+ " with Gemini result"))%js in
  let r := try_catch rest (Rev2.catchBlock W docId) st in
  exists js parts g us,
    Rev2.staged W d js parts /\ sweep us (registeredFiles js)
    /\ ((exists e now o,
           g = GenerateThrows e
           /\ journal (snd r)
              = journal st ++ js ++ GenerateContent Legacy.MODEL parts g
                :: us ++ [Update "coffee" docId
                            (Legacy.errorPayload e (JsDate.toISOString now)) o]
           /\ fst r = of_outcome o
           /\ record (snd r)
              = settle o (Legacy.errorPayload e (JsDate.toISOString now))
                  (record st))
        \/ (exists text now,
              g = Generated text
              /\ journal (snd r)
                 = journal st ++ js ++ GenerateContent Legacy.MODEL parts g
                   :: us ++ [Update "coffee" docId
                               (Legacy.completedPayload text
                                  (JsDate.toISOString now)) None]
              /\ fst r = Normal tt
              /\ record (snd r)
                 = apply_update
                     (Legacy.completedPayload text (JsDate.toISOString now))
                     (record st))
        \/ (exists text now e us' now' o,
              g = Generated text /\ sweep us' (registeredFiles js)
              /\ journal (snd r)
                 = journal st ++ js ++ GenerateContent Legacy.MODEL parts g
                   :: us ++ [Update "coffee" docId
                               (Legacy.completedPayload text
                                  (JsDate.toISOString now)) (Some e)]
                   ++ us' ++ [Update "coffee" docId
                                (Legacy.errorPayload e
                                   (JsDate.toISOString now')) o]
              /\ fst r = of_outcome o
              /\ record (snd r)
                 = settle o (Legacy.errorPayload e (JsDate.toISOString now'))
                     (record st))).
Proof.
  intros Hk Hf0 rest r; subst rest r.
  erewrite try_bind_normal by reflexivity.
  match goal with
  | |- context [try_catch (bind (materializePhotos W ?p) _) _ ?s] =>
      pose proof (materializePhotos_returns W p s) as Hn;
      destruct (materializePhotos_materialized W p s)
        as (js & Hj & Ht & Hdl & Hup & Hc & Hf & Hrec);
      destruct (materializePhotos W p s) as [c st2] eqn:Hloop
  end.
  simpl in Hn, Hj, Hc, Hf, Hrec, Hdl. subst c. rewrite Hf0 in Hf.
  simpl in Hf.
  erewrite (try_bind_normal _ _ _ _ _ _ Hloop).
  erewrite try_bind_normal by reflexivity.
  erewrite try_bind_normal by reflexivity.
  simpl (contentParts _). rewrite Hc. clear Hloop.
  match goal with
  | |- context [try_catch _ _ ?s] =>
      assert (Hj3 : journal s = journal st ++ js) by exact Hj;
      assert (Hf3 : tempFiles s = registeredFiles js) by exact Hf;
      assert (Hr3 : record s = record st) by exact Hrec;
      generalize dependent s; intros st3 Hj3 Hf3 Hr3
  end.
  set (parts := materializedParts js ++ [PartText (Rev2.promptFor d)]).
  assert (Hst : Rev2.staged W d js parts) by (repeat split; assumption).
  destruct (generateContent W (journal st3) Legacy.MODEL parts)
    as [e | text] eqn:Hg.
  - erewrite try_bind_throw
      by (unfold models_generateContent; cbn zeta; rewrite Hg; reflexivity).
    match goal with
    | |- context [Rev2.catchBlock W _ e ?s] =>
        destruct (rev2_catchBlock_ending docId e s)
          as (us & now & o & Hj' & Hs' & Hn' & Hr')
    end.
    simpl in Hj', Hs', Hr'. rewrite Hj3 in Hj'. rewrite Hf3 in Hs'.
    rewrite Hr3 in Hr'.
    exists js, parts, (GenerateThrows e), us.
    split; [exact Hst |]. split; [exact Hs' |]. left.
    exists e, now, o. rewrite Hj', Hn', Hr', <- !app_assoc.
    repeat split; reflexivity.
  - erewrite try_bind_normal
      by (unfold models_generateContent; cbn zeta; rewrite Hg; reflexivity).
    erewrite try_bind_normal by reflexivity.
    match goal with
    | |- context [try_catch (bind (cleanupTempFiles W ?dn) _) _ ?s] =>
        destruct (cleanupTempFiles_swept W dn s)
          as (Hn & us & Hj4 & Hs4 & Hf4 & _ & _ & Hr4);
        destruct (cleanupTempFiles W dn s) as [c st4] eqn:Hc4
    end.
    simpl in Hn, Hj4, Hs4, Hf4, Hr4; subst c.
    rewrite Hj3 in Hj4. rewrite Hf3 in Hs4, Hf4. rewrite Hr3 in Hr4.
    erewrite (try_bind_normal _ _ _ _ _ _ Hc4).
    erewrite try_bind_normal by reflexivity.
    set (payload := Legacy.completedPayload text
                      (JsDate.toISOString (newDate W (ticks st4)))).
    exists js, parts, (Generated text), us.
    split; [exact Hst |]. split; [exact Hs4 |]. right.
    destruct (update W (journal (tick st4)) "coffee" docId payload)
      as [e |] eqn:Hu.
    + erewrite try_bind_throw
        by (unfold doc_update; cbn zeta; rewrite Hu; reflexivity).
      match goal with
      | |- context [Rev2.catchBlock W docId e ?s] =>
          destruct (rev2_catchBlock_ending docId e s)
            as (us' & now' & o & Hj' & Hs' & Hn' & Hr')
      end.
      simpl in Hj', Hs', Hr'. rewrite Hf4 in Hs'. rewrite Hj4 in Hj'.
      rewrite Hr4 in Hr'.
      right. exists text, (newDate W (ticks st4)), e, us', now', o.
      rewrite Hj', Hn', Hr', <- !app_assoc. simpl.
      repeat split; try reflexivity; apply Hs'.
    + erewrite try_bind_normal
        by (unfold doc_update; cbn zeta; rewrite Hu; reflexivity).
      unfold try_catch, log; simpl.
      left. exists text, (newDate W (ticks st4)).
      rewrite Hj4, Hr4, <- !app_assoc. simpl.
      repeat split; reflexivity.
Qed.

Lemma rev2_run_past_guard (event : Event) (d : CoffeeData)
    (doc : gmap string Js.Value) :
  data event = Some d -> Js.truthy (result d) = false ->
  Rev2.run W event doc
  = try_catch (Rev2.tryBlock W d (docId event))
      (Rev2.catchBlock W (docId event)) (initial doc).
Proof.
  intros Hd Hr. unfold Rev2.run, Rev2.processCoffeeWithGemini.
  rewrite Hd, Hr. reflexivity.
Qed.

Lemma rev2_run_shape (event : Event) (d : CoffeeData)
    (doc : gmap string Js.Value) :
  data event = Some d -> Js.truthy (result d) = false ->
  Legacy.Shape W (docId event) (Rev2.staged W d) registeredFiles doc
    (journal (snd (Rev2.run W event doc))) (fst (Rev2.run W event doc))
    (record (snd (Rev2.run W event doc))).
Proof.
  intros Hd Hr. rewrite (rev2_run_past_guard _ _ _ Hd Hr).
  unfold Rev2.tryBlock.
  erewrite try_bind_normal by reflexivity.
  destruct (update W [] "coffee" (docId event) Legacy.processingPayload)
    as [e |] eqn:Hu.
  - erewrite try_bind_throw
      by (unfold doc_update; cbn zeta; simpl journal; rewrite Hu;
          reflexivity).
    match goal with
    | |- context [Rev2.catchBlock W _ e ?s] =>
        assert (Hjs : journal s
                      = [Update "coffee" (docId event)
                           Legacy.processingPayload (Some e)])
          by reflexivity;
        assert (Hfs : tempFiles s = []) by reflexivity;
        assert (Hrs : record s = doc) by reflexivity;
        generalize dependent s; intros st1 Hjs Hfs Hrs
    end.
    destruct (rev2_catchBlock_ending (docId event) e st1)
      as (us & now & o & Hj' & Hs' & Hn' & Hr').
    rewrite Hfs in Hs'. apply sweep_nothing in Hs'. subst us.
    rewrite Hj', Hn', Hr', Hjs, Hrs. apply Legacy.marker_rejected.
  - erewrite try_bind_normal
      by (unfold doc_update; cbn zeta; simpl journal; rewrite Hu;
          reflexivity).
    destruct (Js.truthy_str (GEMINI_API_KEY W)) eqn:Hk; cbv beta iota;
      simpl negb; cbv iota.
    + erewrite try_bind_normal by reflexivity.
      fold (Rev2.promptFor d).
      match goal with
      | |- context [try_catch _ _ ?s] =>
          assert (Hjs : journal s
                        = [Update "coffee" (docId event)
                             Legacy.processingPayload None])
            by reflexivity;
          assert (Hfs : tempFiles s = []) by reflexivity;
          assert (Hrs : record s = apply_update Legacy.processingPayload doc)
            by reflexivity;
          generalize dependent s; intros st1 Hjs Hfs Hrs
      end.
      destruct (rev2_after_marker d (docId event) st1 Hk Hfs)
        as (js & parts & g & us & Hst & Hs & Hcase).
      cbv zeta in Hcase. rewrite Hjs, Hrs in Hcase.
      destruct Hcase as [(e & now & o & -> & Hj & Hc & Hrec)
                        | [(text & now & -> & Hj & Hc & Hrec)
                          | (text & now & e & us' & now' & o & -> & Hs'
                             & Hj & Hc & Hrec)]];
        rewrite Hj, Hc, Hrec.
      * apply Legacy.generation_failed; assumption.
      * apply Legacy.write_accepted; assumption.
      * apply Legacy.write_rejected; assumption.
    + erewrite try_bind_throw by reflexivity.
      match goal with
      | |- context [Rev2.catchBlock W _ ?e ?s] =>
          assert (Hjs : journal s
                        = [Update "coffee" (docId event)
                             Legacy.processingPayload None])
            by reflexivity;
          assert (Hfs : tempFiles s = []) by reflexivity;
          assert (Hrs : record s = apply_update Legacy.processingPayload doc)
            by reflexivity;
          generalize dependent s; intros st1 Hjs Hfs Hrs
      end.
      destruct (rev2_catchBlock_ending (docId event) Legacy.keyError st1)
        as (us & now & o & Hj' & Hs' & Hn' & Hr').
      rewrite Hfs in Hs'. apply sweep_nothing in Hs'. subst us.
      rewrite Hj', Hn', Hr', Hjs, Hrs. apply Legacy.key_missing. exact Hk.
Qed.

End Rev2Run.

(** ** The first revision *)

Lemma sweep_of_nothing : sweep [] [].
Proof. split; reflexivity. Qed.

Section Rev1Run.

Context (W : World).

Lemma rev1_upload_loop (urls : list string) (st : State) :
  fst (for_of urls (Rev1.uploadPhoto W) st) = Normal tt
  /\ exists js,
       journal (snd (for_of urls (Rev1.uploadPhoto W) st)) = journal st ++ js
       /\ forallb Rev1.is_upload js = true
       /\ uploads js = urls
       /\ contentParts (snd (for_of urls (Rev1.uploadPhoto W) st))
          = contentParts st ++ materializedParts js
       /\ tempFiles (snd (for_of urls (Rev1.uploadPhoto W) st)) = tempFiles st
       /\ record (snd (for_of urls (Rev1.uploadPhoto W) st)) = record st.
Proof.
  revert st; induction urls as [| u urls IH]; intros st; simpl.
  - split; [reflexivity |]. exists []. rewrite !app_nil_r.
    repeat split; reflexivity.
  - unfold bind.
    assert (Hturn : exists o st1,
               Rev1.uploadPhoto W u st = (Normal tt, st1)
               /\ journal st1 = journal st ++ [Upload u "image/jpeg" o]
               /\ contentParts st1
                  = contentParts st
                    ++ materializedParts [Upload u "image/jpeg" o]
               /\ tempFiles st1 = tempFiles st
               /\ record st1 = record st).
    { unfold Rev1.uploadPhoto, try_catch, bind, files_upload,
        push_contentPart, log, ret; simpl.
      destruct (upload W (journal st) u "image/jpeg") as [e | uri mime];
        simpl;
        [| destruct (Js.truthy_str uri && Js.truthy_str mime) eqn:Hp; simpl];
        do 2 eexists; (split; [reflexivity |]); (split; [reflexivity |]);
        unfold materializedParts; simpl; rewrite ?Hp, ?app_nil_r;
        repeat split; reflexivity. }
    destruct Hturn as (o & st1 & -> & Hj & Hc & Hf & Hr).
    destruct (IH st1) as (Hn & js & Hj' & Hall & Hus & Hc' & Hf' & Hr').
    split; [exact Hn |].
    exists (Upload u "image/jpeg" o :: js).
    rewrite Hj', Hj, Hc', Hc, Hf', Hf, Hr', Hr, <- !app_assoc.
    repeat split; try reflexivity.
    + simpl. exact Hall.
    + unfold uploads in *. rewrite omap_cons. simpl. f_equal. exact Hus.
    + f_equal. change (Upload u "image/jpeg" o :: js)
        with ([Upload u "image/jpeg" o] ++ js).
      unfold materializedParts. rewrite omap_app. reflexivity.
Qed.

Lemma rev1_catchBlock_ending (docId : string) (e : Js.Thrown) (st : State) :
  exists now o,
    journal (snd (Rev1.catchBlock W docId e st))
    = journal st
      ++ [Update "coffee" docId
            (Legacy.errorPayload e (JsDate.toISOString now)) o]
    /\ fst (Rev1.catchBlock W docId e st) = of_outcome o
    /\ record (snd (Rev1.catchBlock W docId e st))
       = settle o (Legacy.errorPayload e (JsDate.toISOString now)) (record st).
Proof.
  unfold Rev1.catchBlock, bind, log, new_Date, doc_update;
    cbn beta iota zeta.
  exists (newDate W (ticks st)).
  exists (update W (journal st) "coffee" docId
            (Legacy.errorPayload e
               (JsDate.toISOString (newDate W (ticks st))))).
  simpl. destruct (update W _ _ _ _); simpl; repeat split; reflexivity.
Qed.

Lemma rev1_run_past_guard (event : Rev1.Event) (d : Rev1.CoffeeData)
    (doc : gmap string Js.Value) :
  Rev1.data event = Some d -> Js.truthy (Rev1.result d) = false ->
  Rev1.run W event doc
  = try_catch (Rev1.tryBlock W d (Rev1.docId event))
      (Rev1.catchBlock W (Rev1.docId event)) (initial doc).
Proof.
  intros Hd Hr. unfold Rev1.run, Rev1.processCoffeeWithGemini.
  rewrite Hd, Hr. reflexivity.
Qed.

Lemma rev1_run_shape (event : Rev1.Event) (d : Rev1.CoffeeData)
    (doc : gmap string Js.Value) :
  Rev1.data event = Some d -> Js.truthy (Rev1.result d) = false ->
  Legacy.Shape W (Rev1.docId event) (Rev1.uploaded d) Rev1.no_files doc
    (journal (snd (Rev1.run W event doc))) (fst (Rev1.run W event doc))
    (record (snd (Rev1.run W event doc))).
Proof.
  intros Hd Hr. rewrite (rev1_run_past_guard _ _ _ Hd Hr).
  unfold Rev1.tryBlock.
  erewrite try_bind_normal by reflexivity.
  destruct (update W [] "coffee" (Rev1.docId event) Legacy.processingPayload)
    as [e |] eqn:Hu.
  - erewrite try_bind_throw
      by (unfold doc_update; cbn zeta; simpl journal; rewrite Hu;
          reflexivity).
    match goal with
    | |- context [Rev1.catchBlock W _ e ?s] =>
        assert (Hjs : journal s
                      = [Update "coffee" (Rev1.docId event)
                           Legacy.processingPayload (Some e)])
          by reflexivity;
        assert (Hrs : record s = doc) by reflexivity;
        generalize dependent s; intros st1 Hjs Hrs
    end.
    destruct (rev1_catchBlock_ending (Rev1.docId event) e st1)
      as (now & o & Hj' & Hn' & Hr').
    rewrite Hj', Hn', Hr', Hjs, Hrs. apply Legacy.marker_rejected.
  - erewrite try_bind_normal
      by (unfold doc_update; cbn zeta; simpl journal; rewrite Hu;
          reflexivity).
    destruct (Js.truthy_str (GEMINI_API_KEY W)) eqn:Hk; cbv beta iota;
      simpl negb; cbv iota.
    + erewrite try_bind_normal by reflexivity.
      fold (Rev1.promptFor d).
      erewrite try_bind_normal by reflexivity.
      match goal with
      | |- context [try_catch _ _ ?s] =>
          assert (Hjs : journal s
                        = [Update "coffee" (Rev1.docId event)
                             Legacy.processingPayload None])
            by reflexivity;
          assert (Hcs : contentParts s = []) by reflexivity;
          assert (Hrs : record s = apply_update Legacy.processingPayload doc)
            by reflexivity;
          generalize dependent s; intros st1 Hjs Hcs Hrs
      end.
      assert (Hloop : exists st2 js,
                 (if (0 <? length (default [] (Rev1.photoUrls d)))%nat
                  then for_of (default [] (Rev1.photoUrls d))
                         (Rev1.uploadPhoto W)
                  else ret tt) st1 = (Normal tt, st2)
                 /\ journal st2 = journal st1 ++ js
                 /\ forallb Rev1.is_upload js = true
                 /\ uploads js = default [] (Rev1.photoUrls d)
                 /\ contentParts st2 = contentParts st1 ++ materializedParts js
                 /\ record st2 = record st1).
      { destruct (default [] (Rev1.photoUrls d)) as [| u urls] eqn:Hurls.
        - exists st1, []. rewrite !app_nil_r. repeat split; reflexivity.
        - destruct (rev1_upload_loop (u :: urls) st1)
            as (Hn & js & Hj & Hall & Hus & Hc & _ & Hrec).
          destruct (for_of (u :: urls) (Rev1.uploadPhoto W) st1)
            as [c st2] eqn:E.
          simpl in Hn, Hj, Hc, Hrec. subst c.
          exists st2, js. change (0 <? length (u :: urls))%nat with true.
          cbv iota. rewrite E. repeat split; assumption. }
      destruct Hloop as (st2 & js & Hloop & Hj2 & Hall & Hus & Hc2 & Hr2).
      rewrite Hjs in Hj2. rewrite Hcs in Hc2. rewrite Hrs in Hr2.
      simpl in Hj2, Hc2.
      erewrite (try_bind_normal _ _ _ _ _ _ Hloop).
      erewrite try_bind_normal by reflexivity.
      erewrite try_bind_normal by reflexivity.
      simpl (contentParts _). rewrite Hc2. clear Hloop.
      match goal with
      | |- context [try_catch _ _ ?s] =>
          assert (Hj3 : journal s
                        = Update "coffee" (Rev1.docId event)
                            Legacy.processingPayload None :: js)
            by exact Hj2;
          assert (Hr3 : record s = apply_update Legacy.processingPayload doc)
            by exact Hr2;
          generalize dependent s; intros st3 Hj3 Hr3
      end.
      set (parts := materializedParts js ++ [PartText (Rev1.promptFor d)]).
      assert (Hst : Rev1.uploaded d js parts) by (repeat split; assumption).
      destruct (generateContent W (journal st3) Legacy.MODEL parts)
        as [e | text] eqn:Hg.
      * erewrite try_bind_throw
          by (unfold models_generateContent; cbn zeta; rewrite Hg;
              reflexivity).
        match goal with
        | |- context [Rev1.catchBlock W _ e ?s] =>
            assert (Hj5 : journal s
                          = Update "coffee" (Rev1.docId event)
                              Legacy.processingPayload None
                            :: js ++ [GenerateContent Legacy.MODEL parts
                                        (GenerateThrows e)])
              by (simpl; rewrite Hj3; reflexivity);
            assert (Hr5 : record s
                          = apply_update Legacy.processingPayload doc)
              by exact Hr3;
            generalize dependent s; intros st5 Hj5 Hr5
        end.
        destruct (rev1_catchBlock_ending (Rev1.docId event) e st5)
          as (now & o & Hj' & Hn' & Hr').
        rewrite Hj', Hn', Hr', Hj5, Hr5. simpl. rewrite <- app_assoc.
        apply (Legacy.generation_failed W _ _ _ _ js parts e [] now o Hk Hst).
        apply sweep_of_nothing.
      * erewrite try_bind_normal
          by (unfold models_generateContent; cbn zeta; rewrite Hg;
              reflexivity).
        erewrite try_bind_normal by reflexivity.
        erewrite try_bind_normal by reflexivity.
        match goal with
        | |- context [try_catch
                        (bind (doc_update W _ _
                                 (Legacy.completedPayload text
                                    (JsDate.toISOString ?n))) _) _ ?s] =>
            set (now := n);
            assert (Hj4 : journal s
                          = Update "coffee" (Rev1.docId event)
                              Legacy.processingPayload None
                            :: js ++ [GenerateContent Legacy.MODEL parts
                                        (Generated text)])
              by (simpl; rewrite Hj3; reflexivity);
            assert (Hr4 : record s
                          = apply_update Legacy.processingPayload doc)
              by exact Hr3;
            generalize dependent s; intros st4 Hj4 Hr4
        end.
        destruct (update W (journal st4) "coffee" (Rev1.docId event)
                    (Legacy.completedPayload text (JsDate.toISOString now)))
          as [e |] eqn:Hu4.
        -- erewrite try_bind_throw
             by (unfold doc_update; cbn zeta; rewrite Hu4; reflexivity).
           match goal with
           | |- context [Rev1.catchBlock W _ e ?s] =>
               assert (Hj5 : journal s
                             = journal st4
                               ++ [Update "coffee" (Rev1.docId event)
                                     (Legacy.completedPayload text
                                        (JsDate.toISOString now)) (Some e)])
                 by reflexivity;
               assert (Hr5 : record s = record st4) by reflexivity;
               generalize dependent s; intros st5 Hj5 Hr5
           end.
           destruct (rev1_catchBlock_ending (Rev1.docId event) e st5)
             as (now' & o & Hj' & Hn' & Hr').
           rewrite Hj', Hn', Hr', Hj5, Hr5, Hj4, Hr4. simpl.
           rewrite <- !app_assoc.
           apply (Legacy.write_rejected W _ _ _ _ js parts text [] now e []
                    now' o Hk Hst); apply sweep_of_nothing.
        -- erewrite try_bind_normal
             by (unfold doc_update; cbn zeta; rewrite Hu4; reflexivity).
           unfold try_catch, log; simpl. rewrite Hj4, Hr4. simpl.
           rewrite <- !app_assoc.
           apply (Legacy.write_accepted W _ _ _ _ js parts text [] now Hk Hst).
           apply sweep_of_nothing.
    + erewrite try_bind_throw by reflexivity.
      match goal with
      | |- context [Rev1.catchBlock W _ ?e ?s] =>
          assert (Hjs : journal s
                        = [Update "coffee" (Rev1.docId event)
                             Legacy.processingPayload None])
            by reflexivity;
          assert (Hrs : record s = apply_update Legacy.processingPayload doc)
            by reflexivity;
          generalize dependent s; intros st1 Hjs Hrs
      end.
      destruct (rev1_catchBlock_ending (Rev1.docId event) Legacy.keyError st1)
        as (now & o & Hj' & Hn' & Hr').
      rewrite Hj', Hn', Hr', Hjs, Hrs. apply Legacy.key_missing. exact Hk.
Qed.

End Rev1Run.

(** ** What the two early revisions have in common *)

Lemma legacy_processing_status (doc : gmap string Js.Value) :
  apply_update Legacy.processingPayload doc !! "status"
  = Some (Js.VStr "processing").
Proof. unfold apply_update; simpl. apply lookup_insert_eq. Qed.

Lemma legacy_completed_status (text : option string) (at_ : string)
    (m : gmap string Js.Value) :
  apply_update (Legacy.completedPayload text at_) m !! "status"
  = Some (Js.VStr "completed").
Proof. unfold apply_update; simpl. apply lookup_insert_eq. Qed.

Lemma legacy_error_status (e : Js.Thrown) (at_ : string)
    (m : gmap string Js.Value) :
  apply_update (Legacy.errorPayload e at_) m !! "status"
  = Some (Js.VStr "error").
Proof. unfold apply_update; simpl. apply lookup_insert_eq. Qed.

Section Shapes.

Context (W : World) (docId : string) (T : list Call -> list Part -> Prop)
  (files : list Call -> list string) (doc : gmap string Js.Value).

Lemma shape_marker_first (j : list Call) (c : Completion unit)
    (doc' : gmap string Js.Value) :
  Legacy.Shape W docId T files doc j c doc' ->
  exists o rest,
    j = Update "coffee" docId [("status", Js.VStr "processing")] o :: rest
    /\ (forall e, o = Some e ->
        exists now o',
          rest = [Update "coffee" docId
                    (Legacy.errorPayload e (JsDate.toISOString now)) o'])
    /\ (o = None -> Js.truthy_str (GEMINI_API_KEY W) = false ->
        exists now o',
          rest = [Update "coffee" docId
                    (Legacy.errorPayload Legacy.keyError
                       (JsDate.toISOString now)) o']).
Proof.
  intros H; destruct H as [e now o | now o Hk | js parts e us now o Hk Ht Hs
                          | js parts text us now Hk Ht Hs
                          | js parts text us now e us' now' o Hk Ht Hs Hs'].
  - eexists _, _. split; [reflexivity |]. split.
    + intros e' [= <-]. eexists _, _; reflexivity.
    + discriminate.
  - eexists _, _. split; [reflexivity |]. split.
    + discriminate.
    + intros _ _. eexists _, _; reflexivity.
  - eexists _, _. split; [reflexivity |]. split; [discriminate |].
    intros _ Hk'. congruence.
  - eexists _, _. split; [reflexivity |]. split; [discriminate |].
    intros _ Hk'. congruence.
  - eexists _, _. split; [reflexivity |]. split; [discriminate |].
    intros _ Hk'. congruence.
Qed.

(** How the handler completes, and the record it leaves. *)
Lemma shape_completion (j : list Call) (c : Completion unit)
    (doc' : gmap string Js.Value) :
  Legacy.Shape W docId T files doc j c doc' ->
  (exists payload o,
     last j = Some (Update "coffee" docId payload o)
     /\ (field "status" payload = Some (Js.VStr "completed")
         \/ field "status" payload = Some (Js.VStr "error"))
     /\ c = of_outcome o)
  /\ (c = Normal tt -> terminal doc')
  /\ (forall e, c = Throw e ->
      doc' = doc \/ doc' = apply_update Legacy.processingPayload doc).
Proof.
  intros H; destruct H as [e now o | now o Hk | js parts e us now o Hk Ht Hs
                          | js parts text us now Hk Ht Hs
                          | js parts text us now e us' now' o Hk Ht Hs Hs'].
  - split; [| split].
    + eexists _, o. split; [reflexivity |]. split; [right |]; reflexivity.
    + destruct o; [discriminate |]. intros _. right.
      apply legacy_error_status.
    + intros e'. destruct o; [| discriminate]. intros _. left; reflexivity.
  - split; [| split].
    + eexists _, o. split; [reflexivity |]. split; [right |]; reflexivity.
    + destruct o; [discriminate |]. intros _. right.
      apply legacy_error_status.
    + intros e'. destruct o; [| discriminate]. intros _. right; reflexivity.
  - split; [| split].
    + eexists _, o. split.
      * rewrite last_cons, last_app_cons, last_cons, last_snoc. reflexivity.
      * split; [right |]; reflexivity.
    + destruct o; [discriminate |]. intros _. right.
      apply legacy_error_status.
    + intros e'. destruct o; [| discriminate]. intros _. right; reflexivity.
  - split; [| split].
    + eexists _, None. split.
      * rewrite last_cons, last_app_cons, last_cons, last_snoc. reflexivity.
      * split; [left |]; reflexivity.
    + intros _. left. apply legacy_completed_status.
    + discriminate.
  - split; [| split].
    + eexists _, o. split.
      * rewrite last_cons, last_app_cons, last_cons, !app_assoc, last_snoc.
        reflexivity.
      * split; [right |]; reflexivity.
    + destruct o; [discriminate |]. intros _. right.
      apply legacy_error_status.
    + intros e'. destruct o; [| discriminate]. intros _. right; reflexivity.
Qed.

Lemma shape_body (j : list Call) (c : Completion unit)
    (doc' : gmap string Js.Value) :
  Legacy.Shape W docId T files doc j c doc' ->
  head j = Some (Update "coffee" docId Legacy.processingPayload None) ->
  Js.truthy_str (GEMINI_API_KEY W) = true ->
  exists js parts g tail,
    T js parts
    /\ j = Update "coffee" docId Legacy.processingPayload None
           :: js ++ GenerateContent Legacy.MODEL parts g :: tail
    /\ forallb is_settling tail = true
    /\ unlinks tail
       = if completed_write_rejected tail
         then files js ++ files js
         else files js.
Proof.
  assert (Hsw : forall us fs, sweep us fs -> forallb is_settling us = true).
  { intros us fs [H _]. induction us as [| u us IH]; [reflexivity |].
    simpl in *. apply andb_true_iff in H as [Hu Hus].
    destruct u; try discriminate. simpl. apply IH, Hus. }
  intros H; destruct H as [e now o | now o Hk | js parts e us now o Hk Ht Hs
                          | js parts text us now Hk Ht Hs
                          | js parts text us now e us' now' o Hk Ht Hs Hs'];
    intros Hh Hk'; try discriminate; try congruence;
    eexists js, parts, _, _; (split; [exact Ht |]); (split; [reflexivity |]);
    rewrite ?forallb_app; simpl forallb;
    rewrite ?(Hsw _ _ Hs), ?(Hsw _ _ Hs'); (split; [reflexivity |]);
    rewrite ?completed_write_rejected_app, ?(sweep_no_rejection _ _ Hs),
      ?(sweep_no_rejection _ _ Hs');
    unfold unlinks; rewrite ?omap_app;
    try (destruct Hs' as [_ Hus']; unfold unlinks in Hus'; rewrite Hus');
    destruct Hs as [_ Hus]; unfold unlinks in Hus; rewrite Hus.
  - destruct o; simpl; rewrite app_nil_r; reflexivity.
  - simpl. rewrite app_nil_r. reflexivity.
  - simpl. rewrite !app_nil_r. reflexivity.
Qed.

End Shapes.

Lemma settling_silent (tail : list Call) :
  forallb is_settling tail = true ->
  downloads tail = [] /\ createdFiles tail = [] /\ uploads tail = []
  /\ registeredFiles tail = [] /\ materializedParts tail = []
  /\ generations tail = [].
Proof.
  intros H. repeat split;
    (eapply omap_nothing; [| exact H]); intros [] ?; try discriminate;
    reflexivity.
Qed.

Lemma uploads_silent (js : list Call) :
  forallb Rev1.is_upload js = true ->
  downloads js = [] /\ createdFiles js = [] /\ unlinks js = []
  /\ generations js = [] /\ updates js = [].
Proof.
  intros H. repeat split;
    (eapply omap_nothing; [| exact H]); intros [] ?; try discriminate;
    reflexivity.
Qed.


(** ** The second revision, observed *)

Section Rev2Observed.

Context (W : World) (event : Event) (d : CoffeeData)
  (doc : gmap string Js.Value).

Hypothesis Hdata : data event = Some d.
Hypothesis Hfresh : Js.truthy (result d) = false.

(** X12.  The second revision writes the [processing] marker before
    anything else; when that write is turned down, or the key is missing, the
    error write is all that follows. *)
Theorem rev2_marks_processing_first :
  exists o rest,
    journal (snd (Rev2.run W event doc))
    = Update "coffee" (docId event) [("status", Js.VStr "processing")] o
      :: rest
    /\ (forall e, o = Some e ->
        exists now o',
          rest = [Update "coffee" (docId event)
                    (Legacy.errorPayload e (JsDate.toISOString now)) o'])
    /\ (o = None -> Js.truthy_str (GEMINI_API_KEY W) = false ->
        exists now o',
          rest = [Update "coffee" (docId event)
                    (Legacy.errorPayload Legacy.keyError
                       (JsDate.toISOString now)) o']).
Proof. eapply shape_marker_first, rev2_run_shape; eassumption. Qed.

(** X13.  How a run of the second revision ends: its last call is the
    [completed] or [error] write and the handler completes as that write
    does; when the handler returns normally the record is [completed] or
    [error]; when it rejects, the record is as it was or is left at
    [processing]. *)
Theorem rev2_outcome_follows_last_write :
  (exists payload o,
     last (journal (snd (Rev2.run W event doc)))
     = Some (Update "coffee" (docId event) payload o)
     /\ (field "status" payload = Some (Js.VStr "completed")
         \/ field "status" payload = Some (Js.VStr "error"))
     /\ fst (Rev2.run W event doc) = of_outcome o)
  /\ (fst (Rev2.run W event doc) = Normal tt ->
      terminal (record (snd (Rev2.run W event doc))))
  /\ (forall e, fst (Rev2.run W event doc) = Throw e ->
      record (snd (Rev2.run W event doc)) = doc
      \/ record (snd (Rev2.run W event doc))
         = apply_update [("status", Js.VStr "processing")] doc).
Proof. eapply shape_completion, rev2_run_shape; eassumption. Qed.

(** X14.  Photos in the second revision, once the marker is written and
    with the key in place: a reference for which no file handle can be made
    (no bucket, or an empty name) is skipped before anything is called; every
    other reference gets a download attempt, in order; a registration is
    attempted exactly for the created files; there is one generation call,
    whose parts are the materialised ones followed by the prompt; and every
    registered file gets one deletion attempt, in order, and a second one
    exactly when the journal holds a [completed] write that the datastore
    turned down. *)
Theorem rev2_photo_failures_are_skipped :
  Js.truthy_str (GEMINI_API_KEY W) = true ->
  head (journal (snd (Rev2.run W event doc)))
  = Some (Update "coffee" (docId event) [("status", Js.VStr "processing")]
            None) ->
  let j := journal (snd (Rev2.run W event doc)) in
  downloads j
  = List.filter
      (fun photoPath =>
         match bucket W with
         | Some _ => false
         | None => negb (String.eqb photoPath "")
         end) (default [] (photoPaths d))
  /\ uploads j = createdFiles j
  /\ (exists g,
        generations j
        = [(Legacy.MODEL,
            materializedParts j ++ [PartText (Rev2.promptFor d)], g)])
  /\ unlinks j
     = (if completed_write_rejected j
        then registeredFiles j ++ registeredFiles j
        else registeredFiles j).
Proof.
  intros Hk Hh j; subst j.
  destruct (shape_body _ _ _ _ _ _ _ _
              (rev2_run_shape W event d doc Hdata Hfresh) Hh Hk)
    as (js & parts & g & tail & (Ht & Hdl & Hup & Hparts) & Hj & Hset & Hun).
  rewrite Hj.
  destruct (transfers_silent js Ht) as (Hu1 & _ & Hg1).
  destruct (settling_silent tail Hset) as (Hd2 & Hc2 & Hu2 & Hr2 & Hm2 & Hg2).
  change (Update "coffee" (docId event) Legacy.processingPayload None
          :: js ++ GenerateContent Legacy.MODEL parts g :: tail)
    with ([Update "coffee" (docId event) Legacy.processingPayload None]
          ++ js ++ [GenerateContent Legacy.MODEL parts g] ++ tail).
  rewrite !completed_write_rejected_app, (transfers_no_rejection js Ht).
  unfold downloads, uploads, createdFiles, generations, materializedParts,
    unlinks, registeredFiles in *.
  rewrite !omap_app.
  rewrite Hd2, Hc2, Hu2, Hr2, Hm2, Hg2, Hu1, Hg1, Hdl, Hup, Hparts, Hun.
  simpl. rewrite !app_nil_r.
  repeat split; try reflexivity. eexists; reflexivity.
Qed.

End Rev2Observed.

(** X15.  The second revision cannot tell a value that equals its
    placeholder from a missing one: a user named "kullanıcı", or a birthday,
    relationship or employment status "belirtilmemiş", adds no clause; with
    nothing stated the prompt is the bare request. *)
Theorem rev2_placeholder_values_are_dropped (n b r e : option string)
    (photos : option (list string)) (res : Js.Value) :
  Rev2.promptFor (Sample.person (Some "kullanıcı") b r e photos res)
  = Rev2.promptFor (Sample.person None b r e photos res)
  /\ Rev2.promptFor (Sample.person n (Some "belirtilmemiş") r e photos res)
     = Rev2.promptFor (Sample.person n None r e photos res)
  /\ Rev2.promptFor (Sample.person n b (Some "belirtilmemiş") e photos res)
     = Rev2.promptFor (Sample.person n b None e photos res)
  /\ Rev2.promptFor (Sample.person n b r (Some "belirtilmemiş") photos res)
     = Rev2.promptFor (Sample.person n b r None photos res)
  /\ Rev2.promptFor (Sample.person None None None None photos res)
     = "Kahve falımı yorumla.".
Proof. repeat split; reflexivity. Qed.

(** ** The first revision, observed *)

Section Rev1Observed.

Context (W : World) (event : Rev1.Event) (d : Rev1.CoffeeData)
  (doc : gmap string Js.Value).

Hypothesis Hdata : Rev1.data event = Some d.
Hypothesis Hfresh : Js.truthy (Rev1.result d) = false.

(** X16.  The first revision writes the [processing] marker before anything
    else; when that write is turned down, or the key is missing, the error
    write is all that follows. *)
Theorem rev1_marks_processing_first :
  exists o rest,
    journal (snd (Rev1.run W event doc))
    = Update "coffee" (Rev1.docId event) [("status", Js.VStr "processing")] o
      :: rest
    /\ (forall e, o = Some e ->
        exists now o',
          rest = [Update "coffee" (Rev1.docId event)
                    (Legacy.errorPayload e (JsDate.toISOString now)) o'])
    /\ (o = None -> Js.truthy_str (GEMINI_API_KEY W) = false ->
        exists now o',
          rest = [Update "coffee" (Rev1.docId event)
                    (Legacy.errorPayload Legacy.keyError
                       (JsDate.toISOString now)) o']).
Proof. eapply shape_marker_first, rev1_run_shape; eassumption. Qed.

(** X17.  How a run of the first revision ends: its last call is the
    [completed] or [error] write and the handler completes as that write
    does; a normal return leaves the record [completed] or [error], a
    rejection leaves it as it was or at [processing]. *)
Theorem rev1_outcome_follows_last_write :
  (exists payload o,
     last (journal (snd (Rev1.run W event doc)))
     = Some (Update "coffee" (Rev1.docId event) payload o)
     /\ (field "status" payload = Some (Js.VStr "completed")
         \/ field "status" payload = Some (Js.VStr "error"))
     /\ fst (Rev1.run W event doc) = of_outcome o)
  /\ (fst (Rev1.run W event doc) = Normal tt ->
      terminal (record (snd (Rev1.run W event doc))))
  /\ (forall e, fst (Rev1.run W event doc) = Throw e ->
      record (snd (Rev1.run W event doc)) = doc
      \/ record (snd (Rev1.run W event doc))
         = apply_update [("status", Js.VStr "processing")] doc).
Proof. eapply shape_completion, rev1_run_shape; eassumption. Qed.

(** X18.  Photos in the first revision, once the marker is written and with
    the key in place: every URL is handed to the AI service once, in order,
    nothing is downloaded or deleted, and the one generation call gets the
    parts of the uploads that returned followed by the prompt. *)
Theorem rev1_uploads_every_url :
  Js.truthy_str (GEMINI_API_KEY W) = true ->
  head (journal (snd (Rev1.run W event doc)))
  = Some (Update "coffee" (Rev1.docId event)
            [("status", Js.VStr "processing")] None) ->
  let j := journal (snd (Rev1.run W event doc)) in
  uploads j = default [] (Rev1.photoUrls d)
  /\ downloads j = [] /\ unlinks j = []
  /\ exists g,
       generations j
       = [(Legacy.MODEL,
           materializedParts j ++ [PartText (Rev1.promptFor d)], g)].
Proof.
  intros Hk Hh j; subst j.
  destruct (shape_body _ _ _ _ _ _ _ _
              (rev1_run_shape W event d doc Hdata Hfresh) Hh Hk)
    as (js & parts & g & tail & (Ht & Hup & Hparts) & Hj & Hset & Hun).
  rewrite Hj.
  destruct (uploads_silent js Ht) as (Hd1 & _ & Hu1 & Hg1 & _).
  destruct (settling_silent tail Hset) as (Hd2 & Hc2 & Hu2 & Hr2 & Hm2 & Hg2).
  assert (Hun' : unlinks tail = [])
    by (rewrite Hun; destruct (completed_write_rejected tail); reflexivity).
  change (Update "coffee" (Rev1.docId event) Legacy.processingPayload None
          :: js ++ GenerateContent Legacy.MODEL parts g :: tail)
    with ([Update "coffee" (Rev1.docId event) Legacy.processingPayload None]
          ++ js ++ GenerateContent Legacy.MODEL parts g :: tail).
  unfold downloads, uploads, createdFiles, generations, materializedParts,
    unlinks, registeredFiles in *.
  rewrite !omap_app, !omap_cons.
  rewrite Hd2, Hu2, Hm2, Hg2, Hd1, Hu1, Hg1, Hup, Hparts, Hun'.
  simpl. rewrite !app_nil_r.
  repeat split; try reflexivity. eexists; reflexivity.
Qed.

End Rev1Observed.

(** ** The further properties at sample inputs *)

Lemma event_without_data_is_ignored_witness :
  fst (run Sample.calm Scenario.no_snapshot ∅) = Normal tt
  /\ journal (snd (run Sample.calm Scenario.no_snapshot ∅)) = []
  /\ record (snd (run Sample.calm Scenario.no_snapshot ∅)) = ∅
  /\ logs (snd (run Sample.calm Scenario.no_snapshot ∅))
     = [(LError, "No data associated with the event")].
Proof.
  apply (event_without_data_is_ignored Sample.calm Scenario.no_snapshot ∅).
  reflexivity.
Defined.

Lemma run_is_settled_by_its_last_write_witness :
  exists payload o,
    last (journal (snd (run Scenario.writes_refused
                          (Sample.created Sample.one_photo) ∅)))
    = Some (Update "coffee" "doc1" payload o)
    /\ (field "status" payload = Some (Js.VStr "completed")
        \/ field "status" payload = Some (Js.VStr "error"))
    /\ fst (run Scenario.writes_refused (Sample.created Sample.one_photo) ∅)
       = of_outcome o
    /\ record (snd (run Scenario.writes_refused
                      (Sample.created Sample.one_photo) ∅))
       = settle o payload ∅.
Proof.
  apply (run_is_settled_by_its_last_write Scenario.writes_refused
           (Sample.created Sample.one_photo) Sample.one_photo ∅);
    reflexivity.
Defined.

Lemma user_fields_are_never_written_witness :
  record (snd (run Sample.calm (Sample.created Sample.ahmet)
                 {[ "userName" := Js.VStr "Ahmet" ]})) !! "userName"
  = ({[ "userName" := Js.VStr "Ahmet" ]} : gmap string Js.Value) !! "userName".
Proof.
  apply (user_fields_are_never_written Sample.calm
           (Sample.created Sample.ahmet)
           {[ "userName" := Js.VStr "Ahmet" ]} "userName");
    [discriminate | discriminate | left; discriminate].
Defined.

Lemma transfers_then_generation_then_settling_witness :
  exists js parts g tail,
    journal (snd (run Sample.calm (Sample.created Sample.ahmet) ∅))
    = js ++ GenerateContent GEMINI_MODEL parts g :: tail
    /\ forallb is_transfer js = true
    /\ forallb is_settling tail = true.
Proof.
  apply (transfers_then_generation_then_settling Sample.calm
           (Sample.created Sample.ahmet) Sample.ahmet ∅);
    reflexivity.
Defined.

Lemma cleanup_covers_registered_witness :
  let j := journal (snd (run Sample.write_rejected
                           (Sample.created Sample.one_photo) ∅)) in
  completed_write_rejected j = true
  /\ registeredFiles j = ["/tmp/temp_1756377000000_cup1.jpg"]
  /\ unlinks j
     = (if completed_write_rejected j
        then registeredFiles j ++ registeredFiles j
        else registeredFiles j)
  /\ uploads j = createdFiles j.
Proof.
  split; [vm_compute; reflexivity |]. split; [vm_compute; reflexivity |].
  apply (cleanup_covers_registered Sample.write_rejected
           (Sample.created Sample.one_photo) Sample.one_photo ∅);
    reflexivity.
Defined.

Lemma call_budget_witness :
  let j := journal (snd (run Sample.write_rejected
                           (Sample.created Sample.ahmet) ∅)) in
  let n := length (default [] (photoPaths Sample.ahmet)) in
  (length (downloads j) <= n)%nat
  /\ (length (uploads j) <= length (downloads j))%nat
  /\ (length (unlinks j) <= 2 * length (uploads j))%nat
  /\ (length (generations j) <= 1)%nat
  /\ (length (updates j) <= 2)%nat
  /\ (forall m parts g,
        In (m, parts, g) (generations j) -> (length parts <= S n)%nat).
Proof.
  apply (call_budget Sample.write_rejected (Sample.created Sample.ahmet)
           Sample.ahmet ∅).
  reflexivity.
Defined.

Lemma no_references_is_text_only_witness :
  let j := journal (snd (run Sample.calm (Sample.created Sample.bare) ∅)) in
  downloads j = [] /\ uploads j = [] /\ unlinks j = []
  /\ exists g,
       generations j
       = [(GEMINI_MODEL, [PartText (promptFor Sample.calm Sample.bare)], g)].
Proof.
  apply (no_references_is_text_only Sample.calm (Sample.created Sample.bare)
           Sample.bare ∅); reflexivity.
Defined.

Lemma rev2_marks_processing_first_witness :
  exists o rest,
    journal (snd (Rev2.run Sample.no_key (Sample.created Sample.ahmet) ∅))
    = Update "coffee" "doc1" [("status", Js.VStr "processing")] o :: rest
    /\ (forall e, o = Some e ->
        exists now o',
          rest = [Update "coffee" "doc1"
                    (Legacy.errorPayload e (JsDate.toISOString now)) o'])
    /\ (o = None -> Js.truthy_str (GEMINI_API_KEY Sample.no_key) = false ->
        exists now o',
          rest = [Update "coffee" "doc1"
                    (Legacy.errorPayload Legacy.keyError
                       (JsDate.toISOString now)) o']).
Proof.
  apply (rev2_marks_processing_first Sample.no_key
           (Sample.created Sample.ahmet) Sample.ahmet ∅);
    reflexivity.
Defined.

Lemma rev2_outcome_follows_last_write_witness :
  fst (Rev2.run Scenario.marker_only (Sample.created Sample.bare) ∅)
  = Throw (Js.ThrownError "UNAVAILABLE")
  /\ (record (snd (Rev2.run Scenario.marker_only
                    (Sample.created Sample.bare) ∅)) = ∅
      \/ record (snd (Rev2.run Scenario.marker_only
                       (Sample.created Sample.bare) ∅))
         = apply_update [("status", Js.VStr "processing")] ∅).
Proof.
  split; [vm_compute; reflexivity |].
  apply (rev2_outcome_follows_last_write Scenario.marker_only
           (Sample.created Sample.bare) Sample.bare ∅ eq_refl eq_refl)
    with (e := Js.ThrownError "UNAVAILABLE").
  vm_compute; reflexivity.
Defined.

Lemma rev2_photo_failures_are_skipped_witness :
  let j := journal (snd (Rev2.run Sample.write_rejected
                           (Sample.created Scenario.blank_reference) ∅)) in
  (downloads j = ["coffee-images/cup2.jpg"]
   /\ registeredFiles j = ["/tmp/temp_1756377000000_cup2.jpg"]
   /\ completed_write_rejected j = true)
  /\ downloads j
     = List.filter
         (fun photoPath =>
            match bucket Sample.write_rejected with
            | Some _ => false
            | None => negb (String.eqb photoPath "")
            end) (default [] (photoPaths Scenario.blank_reference))
  /\ uploads j = createdFiles j
  /\ (exists g,
        generations j
        = [(Legacy.MODEL,
            materializedParts j
            ++ [PartText (Rev2.promptFor Scenario.blank_reference)], g)])
  /\ unlinks j
     = (if completed_write_rejected j
        then registeredFiles j ++ registeredFiles j
        else registeredFiles j).
Proof.
  split; [repeat split; vm_compute; reflexivity |].
  apply (rev2_photo_failures_are_skipped Sample.write_rejected
           (Sample.created Scenario.blank_reference)
           Scenario.blank_reference ∅);
    vm_compute; reflexivity.
Defined.

Lemma rev1_marks_processing_first_witness :
  exists o rest,
    journal (snd (Rev1.run Scenario.datastore_down
                    (Scenario.created1 Scenario.ahmet_urls) ∅))
    = Update "coffee" "doc1" [("status", Js.VStr "processing")] o :: rest
    /\ (forall e, o = Some e ->
        exists now o',
          rest = [Update "coffee" "doc1"
                    (Legacy.errorPayload e (JsDate.toISOString now)) o'])
    /\ (o = None ->
        Js.truthy_str (GEMINI_API_KEY Scenario.datastore_down) = false ->
        exists now o',
          rest = [Update "coffee" "doc1"
                    (Legacy.errorPayload Legacy.keyError
                       (JsDate.toISOString now)) o']).
Proof.
  apply (rev1_marks_processing_first Scenario.datastore_down
           (Scenario.created1 Scenario.ahmet_urls) Scenario.ahmet_urls ∅);
    reflexivity.
Defined.

Lemma rev1_outcome_follows_last_write_witness :
  fst (Rev1.run Sample.calm (Scenario.created1 Scenario.ahmet_urls) ∅)
  = Normal tt
  /\ terminal (record (snd (Rev1.run Sample.calm
                              (Scenario.created1 Scenario.ahmet_urls) ∅))).
Proof.
  split; [vm_compute; reflexivity |].
  apply (rev1_outcome_follows_last_write Sample.calm
           (Scenario.created1 Scenario.ahmet_urls) Scenario.ahmet_urls ∅
           eq_refl eq_refl).
  vm_compute; reflexivity.
Defined.

Lemma rev1_uploads_every_url_witness :
  let j := journal (snd (Rev1.run Sample.upload_refused
                           (Scenario.created1 Scenario.ahmet_urls) ∅)) in
  uploads j = ["https://example.com/coffee-cup-1.jpg";
               "https://example.com/coffee-cup-2.jpg"]
  /\ downloads j = [] /\ unlinks j = []
  /\ exists g,
       generations j
       = [(Legacy.MODEL,
           materializedParts j
           ++ [PartText (Rev1.promptFor Scenario.ahmet_urls)], g)].
Proof.
  apply (rev1_uploads_every_url Sample.upload_refused
           (Scenario.created1 Scenario.ahmet_urls) Scenario.ahmet_urls ∅);
    try reflexivity; vm_compute; reflexivity.
Defined.

(** ** What the early revisions call *)

Lemma yields_silent (Q : Call -> Prop) {A} (m : M A) :
  (forall st, journal (snd (m st)) = journal st) -> yields Q anything m.
Proof. intros H. apply yields_quiet; [exact H | intros; exact I]. Qed.

Lemma yields_update (Q : Call -> Prop) (W : World) (id : string)
    (payload : list (string * Js.Value)) :
  (forall o, Q (Update "coffee" id payload o)) ->
  yields Q anything (doc_update W "coffee" id payload).
Proof.
  intros HQ. apply yields_call; [| intros; exact I].
  intros st.
  exists (Update "coffee" id payload
            (update W (journal st) "coffee" id payload)).
  split; [| apply HQ].
  unfold doc_update; cbn zeta. destruct (update W _ _ _ _); reflexivity.
Qed.

Lemma yields_generate (Q : Call -> Prop) (W : World) (model : string)
    (parts : list Part) :
  (forall o, Q (GenerateContent model parts o)) ->
  yields Q anything (models_generateContent W model parts).
Proof.
  intros HQ. apply yields_call; [| intros; exact I].
  intros st. eexists. split; [reflexivity | apply HQ].
Qed.

Lemma yields_cleanup (Q : Call -> Prop) (W : World) (done : string) :
  (forall f o, Q (Unlink f o)) ->
  yields Q anything (cleanupTempFiles W done).
Proof.
  intros HQ. unfold cleanupTempFiles.
  eapply yields_bind with (R := anything);
    [apply yields_silent; reflexivity |].
  intros files _. apply yields_for_of. intros f. unfold unlinkTurn.
  apply yields_try_catch;
    [| intros e; apply yields_silent; reflexivity].
  eapply yields_bind with (R := anything);
    [| intros; apply yields_silent; reflexivity].
  apply yields_call; [| intros; exact I].
  intros st. eexists. split; [reflexivity | apply HQ].
Qed.

Section Rev2Calls.

Context (W : World) (id : string).

Lemma rev2_photo_addressed (p : string) :
  yields (rev2_addressed W id) anything (processPhoto W p).
Proof.
  unfold processPhoto.
  apply yields_try_catch; [| intros e; apply yields_silent; reflexivity].
  eapply yields_bind with (R := anything);
    [apply yields_silent; reflexivity |].
  intros _ _.
  eapply yields_bind with (R := anything);
    [apply yields_silent; reflexivity |].
  intros _ _.
  eapply (yields_bind _ (fun t => exists k, t = dateNow W k)).
  { apply yields_quiet; [reflexivity |].
    intros st a H. inversion H. eexists; reflexivity. }
  intros t [k ->].
  eapply yields_bind with (R := anything).
  { apply yields_call; [| intros; exact I].
    intros st. eexists. split; [reflexivity |]. exists k. reflexivity. }
  intros _ _.
  eapply yields_bind; [apply yields_silent; reflexivity |]. intros _ _.
  eapply yields_bind with (R := anything).
  { apply yields_call; [| intros; exact I].
    intros st. eexists. split; [reflexivity |]. reflexivity. }
  intros up _.
  eapply yields_bind with (R := anything).
  { destruct (_ && _); apply yields_silent; reflexivity. }
  intros _ _. apply yields_silent; reflexivity.
Qed.

Lemma rev2_catch_addressed (e : Js.Thrown) :
  yields (rev2_addressed W id) anything (Rev2.catchBlock W id e).
Proof.
  unfold Rev2.catchBlock.
  eapply yields_bind; [apply yields_silent; reflexivity |]. intros _ _.
  eapply yields_bind; [apply yields_cleanup; intros; exact I |]. intros _ _.
  eapply yields_bind with (R := anything);
    [apply yields_silent; reflexivity |].
  intros now _. apply yields_update. intros o. split; reflexivity.
Qed.

Lemma rev2_try_addressed (d : CoffeeData) :
  yields (rev2_addressed W id) anything (Rev2.tryBlock W d id).
Proof.
  unfold Rev2.tryBlock.
  eapply yields_bind; [apply yields_silent; reflexivity |]. intros _ _.
  eapply yields_bind;
    [apply yields_update; intros o; split; reflexivity |]. intros _ _.
  eapply yields_bind with (R := anything).
  { destruct (negb _); apply yields_silent; reflexivity. }
  intros _ _.
  eapply yields_bind with (R := anything);
    [apply yields_silent; reflexivity |].
  intros _ _.
  eapply yields_bind with (R := anything).
  { unfold materializePhotos.
    destruct (0 <? length (default [] (photoPaths d)))%nat.
    - apply yields_for_of. apply rev2_photo_addressed.
    - apply yields_silent; reflexivity. }
  intros _ _.
  eapply yields_bind with (R := anything);
    [apply yields_silent; reflexivity |].
  intros _ _.
  eapply yields_bind with (R := anything);
    [apply yields_silent; reflexivity |].
  intros parts _.
  eapply yields_bind with (R := anything);
    [apply yields_generate; intros; reflexivity |].
  intros text _.
  eapply yields_bind; [apply yields_silent; reflexivity |]. intros _ _.
  eapply yields_bind; [apply yields_cleanup; intros; exact I |]. intros _ _.
  eapply yields_bind with (R := anything);
    [apply yields_silent; reflexivity |].
  intros now _.
  eapply yields_bind;
    [apply yields_update; intros o; split; reflexivity |]. intros _ _.
  apply yields_silent; reflexivity.
Qed.

End Rev2Calls.

(** X19.  Every external call of every run of the second revision is
    addressed as its source fixes it: the destination of a download is what
    [path.join] makes of [tmpdir] and the file name
    temp_<clock reading>_<base name> (joined by a slash and normalised),
    uploads are declared as "image/jpeg", the model is
    "gemini-2.0-flash-001", and every write, the [processing] marker
    included, goes to the triggering document. *)
Theorem rev2_calls_are_well_addressed (W : World) (event : Event)
    (doc : gmap string Js.Value) :
  Forall (rev2_addressed W (docId event))
    (journal (snd (Rev2.run W event doc))).
Proof.
  assert (H : yields (rev2_addressed W (docId event)) anything
                (Rev2.processCoffeeWithGemini W event)).
  { unfold Rev2.processCoffeeWithGemini.
    destruct (data event) as [d |]; [| apply yields_silent; reflexivity].
    destruct (Js.truthy (result d)); [apply yields_silent; reflexivity |].
    eapply yields_bind with (R := anything);
      [apply yields_silent; reflexivity |].
    intros _ _. apply yields_try_catch.
    - apply rev2_try_addressed.
    - intros e. apply rev2_catch_addressed. }
  destruct (H (initial doc)) as (js & Hj & Hq & _).
  unfold Rev2.run. rewrite Hj. exact Hq.
Qed.

Section Rev1Calls.

Context (W : World) (d : Rev1.CoffeeData) (id : string).

Lemma rev1_upload_addressed (u : string) :
  In u (default [] (Rev1.photoUrls d)) ->
  yields (rev1_addressed d id) anything (Rev1.uploadPhoto W u).
Proof.
  intros Hu. unfold Rev1.uploadPhoto.
  apply yields_try_catch; [| intros e; apply yields_silent; reflexivity].
  eapply yields_bind with (R := anything).
  { apply yields_call; [| intros; exact I].
    intros st. eexists. split; [reflexivity |]. split; [exact Hu |].
    reflexivity. }
  intros up _. destruct (_ && _); apply yields_silent; reflexivity.
Qed.

Lemma rev1_loop_addressed (urls : list string) :
  (forall u, In u urls -> In u (default [] (Rev1.photoUrls d))) ->
  yields (rev1_addressed d id) anything (for_of urls (Rev1.uploadPhoto W)).
Proof.
  induction urls as [| u urls IH]; intros Hin; simpl.
  - apply yields_silent; reflexivity.
  - eapply yields_bind.
    + apply rev1_upload_addressed. apply Hin. left; reflexivity.
    + intros _ _. apply IH. intros v Hv. apply Hin. right; exact Hv.
Qed.

Lemma rev1_catch_addressed (e : Js.Thrown) :
  yields (rev1_addressed d id) anything (Rev1.catchBlock W id e).
Proof.
  unfold Rev1.catchBlock.
  eapply yields_bind; [apply yields_silent; reflexivity |]. intros _ _.
  eapply yields_bind with (R := anything);
    [apply yields_silent; reflexivity |].
  intros now _. apply yields_update. intros o. split; reflexivity.
Qed.

Lemma rev1_try_addressed :
  yields (rev1_addressed d id) anything (Rev1.tryBlock W d id).
Proof.
  unfold Rev1.tryBlock.
  eapply yields_bind; [apply yields_silent; reflexivity |]. intros _ _.
  eapply yields_bind;
    [apply yields_update; intros o; split; reflexivity |]. intros _ _.
  eapply yields_bind with (R := anything).
  { destruct (negb _); apply yields_silent; reflexivity. }
  intros _ _.
  eapply yields_bind with (R := anything);
    [apply yields_silent; reflexivity |].
  intros _ _.
  eapply yields_bind with (R := anything).
  { destruct (0 <? length (default [] (Rev1.photoUrls d)))%nat.
    - apply rev1_loop_addressed. intros u Hu; exact Hu.
    - apply yields_silent; reflexivity. }
  intros _ _.
  eapply yields_bind with (R := anything);
    [apply yields_silent; reflexivity |].
  intros _ _.
  eapply yields_bind with (R := anything);
    [apply yields_silent; reflexivity |].
  intros parts _.
  eapply yields_bind with (R := anything);
    [apply yields_generate; intros; reflexivity |].
  intros text _.
  eapply yields_bind; [apply yields_silent; reflexivity |]. intros _ _.
  eapply yields_bind with (R := anything);
    [apply yields_silent; reflexivity |].
  intros now _.
  eapply yields_bind;
    [apply yields_update; intros o; split; reflexivity |]. intros _ _.
  apply yields_silent; reflexivity.
Qed.

End Rev1Calls.

(** X20.  The first revision never touches object storage or the file
    system: every external call of every run is an upload of one of the
    record's photo URLs declared as "image/jpeg", the generation call with
    model "gemini-2.0-flash-001", or a write to the triggering document. *)
Theorem rev1_calls_are_uploads_generation_and_writes (W : World)
    (event : Rev1.Event) (d : Rev1.CoffeeData) (doc : gmap string Js.Value) :
  Rev1.data event = Some d ->
  Forall (rev1_addressed d (Rev1.docId event))
    (journal (snd (Rev1.run W event doc))).
Proof.
  intros Hd.
  assert (H : yields (rev1_addressed d (Rev1.docId event)) anything
                (Rev1.processCoffeeWithGemini W event)).
  { unfold Rev1.processCoffeeWithGemini. rewrite Hd.
    destruct (Js.truthy (Rev1.result d));
      [apply yields_silent; reflexivity |].
    apply yields_try_catch.
    - apply rev1_try_addressed.
    - intros e. apply rev1_catch_addressed. }
  destruct (H (initial doc)) as (js & Hj & Hq & _).
  unfold Rev1.run. rewrite Hj. exact Hq.
Qed.

Lemma rev1_calls_are_uploads_generation_and_writes_witness :
  Forall (rev1_addressed Scenario.ahmet_urls "doc1")
    (journal (snd (Rev1.run Sample.upload_refused
                     (Scenario.created1 Scenario.ahmet_urls) ∅))).
Proof.
  apply (rev1_calls_are_uploads_generation_and_writes Sample.upload_refused
           (Scenario.created1 Scenario.ahmet_urls) Scenario.ahmet_urls ∅).
  reflexivity.
Defined.
